(** * pyquotex_integration: connection supervision, watchdog and request queue

    A shallow embedding of the Python package [pyquotex_integration]
    ([config.py], [client.py], [watchdog.py], [async_queue.py]) and the
    properties its specification states about it.

    Conventions of the embedding.
    - Python [int] is [Z]; Python [float] is modelled by exact rationals [Q]
      (rounding and overflow of binary64 are outside the model; every constant
      that occurs in the scenarios is exactly representable).
    - A coroutine is a state transformer in the monad [M]: it returns a value
      or raises a Python exception, and in both cases leaves a new state.
    - Everything outside the Python objects (the remote API, the clock, the
      user's callbacks, the moment [stop] is called) is an oracle: a function
      from the number of earlier calls of that kind to the outcome of the call.
    - Every effect that can be observed from outside (sleeps, API calls, log
      lines, writes of the connection state, hook calls) is appended to a
      trace, oldest event first. *)

From Stdlib Require Import ZArith QArith Qminmax Qpower List String Bool Lia.
From stdpp Require Import gmap strings pretty.
Import ListNotations.

Local Open Scope string_scope.
Local Open Scope list_scope.
Local Open Scope Z_scope.

(** ** Exceptions and the coroutine monad *)

Inductive exn : Type :=
| TimeoutError                  (* asyncio.TimeoutError *)
| CancelledError                (* asyncio.CancelledError: a BaseException *)
| ValueError (msg : string)
| KeyError (key : string)
| OtherException (msg : string). (* any other subclass of Exception *)

(** [except Exception] catches everything but [CancelledError]. *)
Definition is_Exception (e : exn) : bool :=
  match e with
  | CancelledError => false
  | _ => true
  end.

Inductive result (A : Type) : Type :=
| Ret (a : A)
| Raise (e : exn).
Arguments Ret {A} a.
Arguments Raise {A} e.

Definition M (S A : Type) : Type := S -> result A * S.

Definition ret {S A} (a : A) : M S A := fun s => (Ret a, s).
Definition raise {S A} (e : exn) : M S A := fun s => (Raise e, s).
Definition bind {S A B} (m : M S A) (k : A -> M S B) : M S B :=
  fun s =>
    match m s with
    | (Ret a, s') => k a s'
    | (Raise e, s') => (Raise e, s')
    end.
Definition get {S} : M S S := fun s => (Ret s, s).
Definition gets {S A} (f : S -> A) : M S A := fun s => (Ret (f s), s).
Definition modify {S} (f : S -> S) : M S unit := fun s => (Ret tt, f s).

(** [try: body except ...]: the handler says which exceptions it catches
    ([None]: not caught, the exception goes on). *)
Definition try_catch {S A} (body : M S A) (handler : exn -> option (M S A))
  : M S A :=
  fun s =>
    match body s with
    | (Ret a, s') => (Ret a, s')
    | (Raise e, s') =>
        match handler e with
        | Some h => h s'
        | None => (Raise e, s')
        end
    end.

(** [try: body except Exception as e: handler e].  [CancelledError] is not an
    [Exception] and passes through. *)
Definition try_except {S A} (body : M S A) (handler : exn -> M S A) : M S A :=
  try_catch body (fun e => if is_Exception e then Some (handler e) else None).

(** [try: body finally: cleanup] for a cleanup that cannot fail. *)
Definition finally {S A} (body : M S A) (cleanup : S -> S) : M S A :=
  fun s => let (r, s') := body s in (r, cleanup s').

(** A state transformer on a component [T] of the state [S]. *)
Definition lift {S T A} (proj : S -> T) (inj : T -> S -> S) (m : M T A) : M S A :=
  fun s =>
    let (r, t') := m (proj s) in (r, inj t' s).

Declare Scope monad_scope.
Delimit Scope monad_scope with monad.
Notation "x <- m ;; k" := (bind m (fun x => k))
  (at level 100, m at next level, right associativity) : monad_scope.
Notation "m ;;; k" := (bind m (fun _ => k))
  (at level 100, right associativity) : monad_scope.

(** Rational comparisons as the booleans Python computes. *)
Definition Qleb (x y : Q) : bool := Qle_bool x y.
Definition Qltb (x y : Q) : bool := negb (Qle_bool y x).

(** ** config.py *)

Module Config.

Record QuotexConfig : Type := {
  email : string;
  password : string;
  (* connection watchdog settings *)
  ping_interval : Q;
  ping_timeout : Q;
  reconnect_max_retries : Z;
  reconnect_base_delay : Q;
  reconnect_max_delay : Q;
  reconnect_exponential_base : Q;
  (* asset selection settings *)
  min_payout : Q;
  preferred_assets : list string;
  (* async queue settings *)
  request_queue_maxsize : Z;
  callback_timeout : Q;
  (* session settings *)
  dry_run : bool;
  default_stake : Q;
  balance_update_interval : Q;
  (* logging *)
  log_level : string
}.

(** The dataclass defaults, with the two environment variables
    [QUOTEX_EMAIL] and [QUOTEX_PASSWORD] as parameters. *)
Definition default_config (env_email env_password : string) (dry : bool)
  : QuotexConfig :=
  {| email := env_email;
     password := env_password;
     ping_interval := 30;
     ping_timeout := 10;
     reconnect_max_retries := 10;
     reconnect_base_delay := 1;
     reconnect_max_delay := 300;
     reconnect_exponential_base := 2;
     min_payout := 80;
     preferred_assets := ["EURUSD"; "GBPUSD"; "USDJPY"];
     request_queue_maxsize := 100;
     callback_timeout := 30;
     dry_run := dry;
     default_stake := 1;
     balance_update_interval := 5;
     log_level := "INFO" |}.

Definition is_empty (s : string) : bool := String.eqb s "".

(** [QuotexConfig.validate].  The generated constructor of the dataclass does
    no checking at all; [validate] is a method the caller has to invoke. *)
Definition validate (c : QuotexConfig) : result unit :=
  if negb (dry_run c) && (is_empty (email c) || is_empty (password c)) then
    Raise (ValueError "Email and password are required when not in dry run mode")
  else if Qleb (ping_interval c) 0 then
    Raise (ValueError "ping_interval must be positive")
  else if Qleb (reconnect_base_delay c) 0 then
    Raise (ValueError "reconnect_base_delay must be positive")
  else if Qltb (min_payout c) 0 || Qltb 100 (min_payout c) then
    Raise (ValueError "min_payout must be between 0 and 100")
  else Ret tt.

(** What the specification asks of the three back-off parameters. *)
Definition backoff_parameters_ok (c : QuotexConfig) : Prop :=
  (0 < reconnect_base_delay c)%Q /\
  (1 < reconnect_exponential_base c)%Q /\
  (reconnect_base_delay c <= reconnect_max_delay c)%Q.

End Config.

(** ** The back-off policy ([ConnectionWatchdog._calculate_backoff_delay]) *)

Module Backoff.
Import Config.

(** [delay = base * (exponential_base ** retry_count);
     return min(delay, max_delay)]. *)
Definition _calculate_backoff_delay (c : QuotexConfig) (retry_count : Z) : Q :=
  let delay :=
    (reconnect_base_delay c * reconnect_exponential_base c ^ retry_count)%Q in
  Qmin delay (reconnect_max_delay c).



End Backoff.

(** ** The world outside the Python objects *)

Inductive ConnectionState : Type :=
| DISCONNECTED
| CONNECTING
| CONNECTED
| RECONNECTING.

#[global] Instance ConnectionState_eq_dec : EqDecision ConnectionState.
Proof. solve_decision. Defined.

(** Calls into the remote API object ([self._api], a [Quotex] instance). *)
Inductive ApiCall : Type :=
| ApiConstruct                                 (* import quotexapi; Quotex(email, password) *)
| ApiConnect                                   (* self._api.connect *)
| ApiClose                                     (* self._api.close *)
| ApiGetBalance                                (* self._api.get_balance *)
| ApiStopCandlesStream (asset : string) (period : Z).

Definition same_kind (a b : ApiCall) : bool :=
  match a, b with
  | ApiConstruct, ApiConstruct
  | ApiConnect, ApiConnect
  | ApiClose, ApiClose
  | ApiGetBalance, ApiGetBalance
  | ApiStopCandlesStream _ _, ApiStopCandlesStream _ _ => true
  | _, _ => false
  end.

Inductive LogLevel : Type := DEBUG | INFO | WARNING | ERROR.

(** The values interpolated into a log line. *)
Inductive LogArg : Type :=
| ArgZ (z : Z)
| ArgQ (q : Q)
| ArgStr (s : string)
| ArgExn (e : exn).

Inductive Event : Type :=
| EvSleep (seconds : Q)                  (* await asyncio.sleep(seconds) *)
| EvSetState (s : ConnectionState)       (* self._state = s *)
| EvApi (call : ApiCall) (locked : bool) (* locked: _connection_lock held at the call *)
| EvLog (level : LogLevel) (text : string) (args : list LogArg)
| EvHook.                                (* self.on_reconnect() *)

Definition is_api (call : ApiCall) (e : Event) : bool :=
  match e with
  | EvApi c _ => same_kind call c
  | _ => false
  end.

Definition is_sleep (e : Event) : bool :=
  match e with EvSleep _ => true | _ => false end.

Definition is_hook (e : Event) : bool :=
  match e with EvHook => true | _ => false end.

(** How many events of a kind the trace holds: the index of the next call of
    that kind in its oracle. *)
Definition count_events (p : Event -> bool) (t : list Event) : nat :=
  length (List.filter p t).
Arguments count_events : simpl never.

(** Outcomes of the remote calls. *)
Inductive ConstructOutcome : Type :=
| Constructed
| ConstructRaises (msg : string).

Inductive ConnectOutcome : Type :=
| ConnectReturns (check : bool) (reason : string)
| ConnectRaises (msg : string).

Inductive UnitOutcome : Type :=
| Done
| Raises (msg : string).

Inductive BalanceOutcome : Type :=
| BalanceReturns (balance : option Q)    (* within ping_timeout *)
| BalanceTimesOut                        (* wait_for raises TimeoutError *)
| BalanceRaises (msg : string).

(** The remote session: the outcome of the n-th call of each kind. *)
Record Session : Type := {
  construct_outcome : nat -> ConstructOutcome;
  connect_outcome : nat -> ConnectOutcome;
  close_outcome : nat -> UnitOutcome;
  get_balance_outcome : nat -> BalanceOutcome;
  stop_candles_stream_outcome : nat -> UnitOutcome
}.

(** ** client.py *)

Module Client.
Import Config.

Inductive Api : Type := DryRunAPI | Quotex.

Record Subscription : Type := {
  sub_asset : string;
  sub_period : Z;
  sub_active : bool
}.

Record PyQuotexClient : Type := {
  _api : option Api;
  _state : ConnectionState;
  _connection_lock : bool;                          (* held? *)
  _subscriptions : list (string * Subscription);    (* dict, insertion order *)
  _candle_callbacks : list (string * list nat);     (* dict of callback lists *)
  trace : list Event
}.

(** [PyQuotexClient.__init__]. *)
Definition __init__ : PyQuotexClient :=
  {| _api := None;
     _state := DISCONNECTED;
     _connection_lock := false;
     _subscriptions := [];
     _candle_callbacks := [];
     trace := [] |}.

Definition set_api (a : option Api) (c : PyQuotexClient) : PyQuotexClient :=
  {| _api := a; _state := _state c; _connection_lock := _connection_lock c;
     _subscriptions := _subscriptions c;
     _candle_callbacks := _candle_callbacks c; trace := trace c |}.

Definition set_state_field (s : ConnectionState) (c : PyQuotexClient)
  : PyQuotexClient :=
  {| _api := _api c; _state := s; _connection_lock := _connection_lock c;
     _subscriptions := _subscriptions c;
     _candle_callbacks := _candle_callbacks c; trace := trace c |}.

Definition set_lock (b : bool) (c : PyQuotexClient) : PyQuotexClient :=
  {| _api := _api c; _state := _state c; _connection_lock := b;
     _subscriptions := _subscriptions c;
     _candle_callbacks := _candle_callbacks c; trace := trace c |}.

Definition set_subscriptions (l : list (string * Subscription))
  (c : PyQuotexClient) : PyQuotexClient :=
  {| _api := _api c; _state := _state c; _connection_lock := _connection_lock c;
     _subscriptions := l;
     _candle_callbacks := _candle_callbacks c; trace := trace c |}.

Definition set_candle_callbacks (l : list (string * list nat))
  (c : PyQuotexClient) : PyQuotexClient :=
  {| _api := _api c; _state := _state c; _connection_lock := _connection_lock c;
     _subscriptions := _subscriptions c;
     _candle_callbacks := l; trace := trace c |}.

Definition set_trace (t : list Event) (c : PyQuotexClient) : PyQuotexClient :=
  {| _api := _api c; _state := _state c; _connection_lock := _connection_lock c;
     _subscriptions := _subscriptions c;
     _candle_callbacks := _candle_callbacks c; trace := t |}.

Local Open Scope monad_scope.

Definition emit (e : Event) : M PyQuotexClient unit :=
  modify (fun c => set_trace (trace c ++ [e]) c).

Definition log (level : LogLevel) (text : string) (args : list LogArg)
  : M PyQuotexClient unit :=
  emit (EvLog level text args).

Definition sleep (seconds : Q) : M PyQuotexClient unit :=
  emit (EvSleep seconds).

(** [self._state = s]. *)
Definition assign_state (s : ConnectionState) : M PyQuotexClient unit :=
  modify (set_state_field s) ;;; emit (EvSetState s).

(** The index of the next call of the kind of [call], then the call itself
    entered in the trace. *)
Definition api_call (call : ApiCall) : M PyQuotexClient nat :=
  c <- get ;;
  emit (EvApi call (_connection_lock c)) ;;;
  ret (count_events (is_api call) (trace c)).

(** [async with self._connection_lock: body].  The operations of the client
    are run one after the other here, so the lock is free on entry; it is
    released on every way out of the body. *)
Definition with_connection_lock {A} (body : M PyQuotexClient A)
  : M PyQuotexClient A :=
  modify (set_lock true) ;;; finally body (set_lock false).

(** The [state] and [is_connected] properties. *)
Definition state (c : PyQuotexClient) : ConnectionState := _state c.
Definition is_connected (c : PyQuotexClient) : bool :=
  bool_decide (_state c = CONNECTED).

(** Dictionary access on the insertion-ordered dictionaries. *)
Fixpoint dict_get {V} (k : string) (d : list (string * V)) : option V :=
  match d with
  | [] => None
  | (k', v) :: d' => if String.eqb k k' then Some v else dict_get k d'
  end.

Definition dict_del {V} (k : string) (d : list (string * V))
  : list (string * V) :=
  List.filter (fun kv => negb (String.eqb k (fst kv))) d.

Definition dict_set {V} (k : string) (v : V) (d : list (string * V))
  : list (string * V) :=
  match dict_get k d with
  | Some _ => map (fun kv => if String.eqb k (fst kv) then (k, v) else kv) d
  | None => d ++ [(k, v)]
  end.

(** [f"{asset}_{period}"]. *)
Definition sub_key (asset : string) (period : Z) : string :=
  (asset ++ "_" ++ pretty period)%string.

Section WithSession.

Variable cfg : QuotexConfig.
Variable session : Session.

(** [PyQuotexClient.connect]. *)
Definition connect : M PyQuotexClient bool :=
  with_connection_lock (
    st <- gets _state ;;
    if bool_decide (st = CONNECTED) then
      log INFO "Already connected" [] ;;;
      ret true
    else
      assign_state CONNECTING ;;;
      log INFO "Connecting to Quotex API..." [] ;;;
      try_except (
        (* [Some b]: the body returned [b] early *)
        early <-
          (if dry_run cfg then
             log INFO "Dry run mode: simulating connection" [] ;;;
             sleep (1 # 2) ;;;
             modify (set_api (Some DryRunAPI)) ;;;
             ret None
           else
             i <- api_call ApiConstruct ;;
             match construct_outcome session i with
             | ConstructRaises msg => raise (OtherException msg)
             | Constructed =>
                 modify (set_api (Some Quotex)) ;;;
                 j <- api_call ApiConnect ;;
                 match connect_outcome session j with
                 | ConnectRaises msg => raise (OtherException msg)
                 | ConnectReturns check reason =>
                     if negb check then
                       log ERROR "Connection failed: {}" [ArgStr reason] ;;;
                       assign_state DISCONNECTED ;;;
                       ret (Some false)
                     else ret None
                 end
             end) ;;
        match early with
        | Some b => ret b
        | None =>
            assign_state CONNECTED ;;;
            log INFO "Successfully connected to Quotex API" [] ;;;
            ret true
        end)
      (fun e =>
         log ERROR "Connection error: {}" [ArgExn e] ;;;
         assign_state DISCONNECTED ;;;
         ret false)).

(** [PyQuotexClient.unsubscribe_candles]. *)
Definition unsubscribe_candles (asset : string) (period : Z)
  : M PyQuotexClient bool :=
  let key := sub_key asset period in
  subs <- gets _subscriptions ;;
  match dict_get key subs with
  | Some sub =>
      modify (set_subscriptions
                (dict_set key {| sub_asset := sub_asset sub;
                                 sub_period := sub_period sub;
                                 sub_active := false |} subs)) ;;;
      api <- gets _api ;;
      (if negb (dry_run cfg) && bool_decide (api <> None) then
         try_except (
           i <- api_call (ApiStopCandlesStream asset period) ;;
           match stop_candles_stream_outcome session i with
           | Done => ret tt
           | Raises msg => raise (OtherException msg)
           end)
         (fun e => log ERROR "Error stopping candle stream: {}" [ArgExn e])
       else ret tt) ;;;
      modify (fun c => set_subscriptions (dict_del key (_subscriptions c)) c) ;;;
      modify (fun c => set_candle_callbacks
                         (dict_del key (_candle_callbacks c)) c) ;;;
      log INFO "Unsubscribed from candles: {}" [ArgStr key] ;;;
      ret true
  | None => ret false
  end.

(** [for sub_key in list(self._subscriptions.keys()): ...]: the keys are
    taken once, the dictionary is read again at every turn. *)
Fixpoint cleanup_keys (keys : list string) : M PyQuotexClient unit :=
  match keys with
  | [] => ret tt
  | key :: keys' =>
      subs <- gets _subscriptions ;;
      match dict_get key subs with
      | None => raise (KeyError key)
      | Some sub =>
          unsubscribe_candles (sub_asset sub) (sub_period sub) ;;;
          cleanup_keys keys'
      end
  end.

(** [PyQuotexClient._cleanup_subscriptions]. *)
Definition _cleanup_subscriptions : M PyQuotexClient unit :=
  subs <- gets _subscriptions ;;
  cleanup_keys (map fst subs).

(** [PyQuotexClient.disconnect]. *)
Definition disconnect : M PyQuotexClient unit :=
  with_connection_lock (
    st <- gets _state ;;
    if bool_decide (st = DISCONNECTED) then ret tt
    else
      log INFO "Disconnecting from Quotex API..." [] ;;;
      try_except (
        _cleanup_subscriptions ;;;
        api <- gets _api ;;
        (if bool_decide (api <> None) && negb (dry_run cfg) then
           i <- api_call ApiClose ;;
           match close_outcome session i with
           | Done => ret tt
           | Raises msg => raise (OtherException msg)
           end
         else ret tt) ;;;
        modify (set_api None) ;;;
        assign_state DISCONNECTED ;;;
        log INFO "Disconnected successfully" [])
      (fun e =>
         log ERROR "Error during disconnect: {}" [ArgExn e] ;;;
         assign_state DISCONNECTED)).

(** [PyQuotexClient.ping]. *)
Definition ping : M PyQuotexClient bool :=
  c <- get ;;
  if negb (is_connected c) then ret false
  else
    try_except (
      if dry_run cfg then
        sleep (1 # 10) ;;;
        ret true
      else
        match _api c with
        | None => raise (OtherException "'NoneType' object has no attribute 'get_balance'")
        | Some _ =>
            i <- api_call ApiGetBalance ;;
            match get_balance_outcome session i with
            | BalanceReturns balance => ret (bool_decide (balance <> None))
            | BalanceTimesOut => raise TimeoutError
            | BalanceRaises msg => raise (OtherException msg)
            end
        end)
    (fun e =>
       match e with
       | TimeoutError => log WARNING "Ping timeout" [] ;;; ret false
       | _ => log ERROR "Ping error: {}" [ArgExn e] ;;; ret false
       end).

(** The three operations of the supervisor, and a run of a sequence of them
    (the return values are dropped). *)
Inductive Op : Type := OpConnect | OpDisconnect | OpPing.

Definition run_op (o : Op) (c : PyQuotexClient) : PyQuotexClient :=
  match o with
  | OpConnect => snd (connect c)
  | OpDisconnect => snd (disconnect c)
  | OpPing => snd (ping c)
  end.

Definition run_ops (ops : list Op) (c : PyQuotexClient) : PyQuotexClient :=
  fold_left (fun c o => run_op o c) ops c.

End WithSession.

End Client.

(** ** watchdog.py *)

Module Watchdog.
Import Config.
Export Backoff.

Record ConnectionWatchdog : Type := {
  client : Client.PyQuotexClient;
  _running : bool;
  _task : bool;                         (* a monitor task has been created *)
  _consecutive_failures : Z;
  _last_ping_time : option nat;         (* datetime.now(): the logical clock *)
  _last_failure_time : option nat;
  _total_reconnects : Z
}.

(** [ConnectionWatchdog.__init__]. *)
Definition __init__ (c : Client.PyQuotexClient) : ConnectionWatchdog :=
  {| client := c;
     _running := false;
     _task := false;
     _consecutive_failures := 0;
     _last_ping_time := None;
     _last_failure_time := None;
     _total_reconnects := 0 |}.

Definition set_client (c : Client.PyQuotexClient) (w : ConnectionWatchdog)
  : ConnectionWatchdog :=
  {| client := c; _running := _running w; _task := _task w;
     _consecutive_failures := _consecutive_failures w;
     _last_ping_time := _last_ping_time w;
     _last_failure_time := _last_failure_time w;
     _total_reconnects := _total_reconnects w |}.

Definition set_running (b : bool) (w : ConnectionWatchdog)
  : ConnectionWatchdog :=
  {| client := client w; _running := b; _task := _task w;
     _consecutive_failures := _consecutive_failures w;
     _last_ping_time := _last_ping_time w;
     _last_failure_time := _last_failure_time w;
     _total_reconnects := _total_reconnects w |}.

Definition set_task (b : bool) (w : ConnectionWatchdog) : ConnectionWatchdog :=
  {| client := client w; _running := _running w; _task := b;
     _consecutive_failures := _consecutive_failures w;
     _last_ping_time := _last_ping_time w;
     _last_failure_time := _last_failure_time w;
     _total_reconnects := _total_reconnects w |}.

Definition set_consecutive_failures (n : Z) (w : ConnectionWatchdog)
  : ConnectionWatchdog :=
  {| client := client w; _running := _running w; _task := _task w;
     _consecutive_failures := n;
     _last_ping_time := _last_ping_time w;
     _last_failure_time := _last_failure_time w;
     _total_reconnects := _total_reconnects w |}.

Definition set_last_ping_time (t : option nat) (w : ConnectionWatchdog)
  : ConnectionWatchdog :=
  {| client := client w; _running := _running w; _task := _task w;
     _consecutive_failures := _consecutive_failures w;
     _last_ping_time := t;
     _last_failure_time := _last_failure_time w;
     _total_reconnects := _total_reconnects w |}.

Definition set_last_failure_time (t : option nat) (w : ConnectionWatchdog)
  : ConnectionWatchdog :=
  {| client := client w; _running := _running w; _task := _task w;
     _consecutive_failures := _consecutive_failures w;
     _last_ping_time := _last_ping_time w;
     _last_failure_time := t;
     _total_reconnects := _total_reconnects w |}.

Definition set_total_reconnects (n : Z) (w : ConnectionWatchdog)
  : ConnectionWatchdog :=
  {| client := client w; _running := _running w; _task := _task w;
     _consecutive_failures := _consecutive_failures w;
     _last_ping_time := _last_ping_time w;
     _last_failure_time := _last_failure_time w;
     _total_reconnects := n |}.

Local Open Scope monad_scope.

(** A coroutine of the client, awaited by the watchdog. *)
Definition on_client {A} (m : M Client.PyQuotexClient A)
  : M ConnectionWatchdog A :=
  lift client set_client m.

Definition log (level : LogLevel) (text : string) (args : list LogArg)
  : M ConnectionWatchdog unit :=
  on_client (Client.log level text args).

(** [datetime.now()]: the number of events so far. *)
Definition now (w : ConnectionWatchdog) : nat :=
  length (Client.trace (client w)).

(** How a [while] loop goes on after one turn of its body. *)
Inductive Control : Type := Continue | Break.

(** How the retry loop of [_handle_disconnect] ends: by the [return] inside
    it, or by leaving the loop with the retry count reached. *)
Inductive LoopExit : Type :=
| Returned
| Exited (retry_count : Z)
| OutOfFuel.

Section WithEnvironment.

Variable cfg : QuotexConfig.
Variable session : Session.
(** The hook given to the constructor, as the outcome of its n-th call. *)
Variable on_reconnect : option (nat -> UnitOutcome).
(** Whether [stop()] runs while the monitor task is in its n-th sleep. *)
Variable stop_during_sleep : nat -> bool.

(** [await asyncio.sleep(seconds)] in the monitor task.  When [stop()] runs
    meanwhile it clears [_running] and cancels the task, and the sleep raises
    [CancelledError]. *)
Definition monitor_sleep (seconds : Q) : M ConnectionWatchdog unit :=
  w <- get ;;
  on_client (Client.sleep seconds) ;;;
  if stop_during_sleep (count_events is_sleep (Client.trace (client w))) then
    modify (set_running false) ;;;
    raise CancelledError
  else ret tt.

(** [if self.on_reconnect: try: self.on_reconnect() except Exception: log]. *)
Definition call_on_reconnect : M ConnectionWatchdog unit :=
  match on_reconnect with
  | None => ret tt
  | Some hook =>
      try_except (
        w <- get ;;
        on_client (Client.emit EvHook) ;;;
        match hook (count_events is_hook (Client.trace (client w))) with
        | Done => ret tt
        | Raises msg => raise (OtherException msg)
        end)
      (fun e => log ERROR "Error in reconnect callback: {}" [ArgExn e])
  end.

(** [ConnectionWatchdog._check_connection]. *)
Definition _check_connection : M ConnectionWatchdog bool :=
  w <- get ;;
  if bool_decide (Client.state (client w) <> CONNECTED) then ret false
  else
    try_except
      (on_client (Client.ping cfg session))
      (fun e => log ERROR "Ping error: {}" [ArgExn e] ;;; ret false).

(** The [while] loop of [_handle_disconnect], from [retry_count] on.  Every
    turn that does not leave the loop adds one to [retry_count], so
    [reconnect_max_retries - retry_count] turns of fuel are enough. *)
Fixpoint reconnect_loop (fuel : nat) (retry_count : Z)
  : M ConnectionWatchdog LoopExit :=
  running <- gets _running ;;
  if running && (retry_count <? reconnect_max_retries cfg) then
    match fuel with
    | O => ret OutOfFuel
    | S fuel' =>
        let delay := _calculate_backoff_delay cfg retry_count in
        log INFO "Reconnection attempt {}/{} in {}s"
          [ArgZ (retry_count + 1); ArgZ (reconnect_max_retries cfg);
           ArgQ delay] ;;;
        monitor_sleep delay ;;;
        running <- gets _running ;;
        if negb running then ret (Exited retry_count)
        else
          next <-
            try_except (
              on_client (Client.disconnect cfg session) ;;;
              monitor_sleep 1 ;;;
              success <- on_client (Client.connect cfg session) ;;
              if success : bool then
                log INFO "Reconnection successful" [] ;;;
                modify (fun w => set_total_reconnects (_total_reconnects w + 1) w) ;;;
                modify (set_consecutive_failures 0) ;;;
                call_on_reconnect ;;;
                ret None
              else
                log ERROR "Reconnection attempt {} failed"
                  [ArgZ (retry_count + 1)] ;;;
                ret (Some (retry_count + 1)))
            (fun e =>
               log ERROR "Error during reconnection attempt {}: {}"
                 [ArgZ (retry_count + 1); ArgExn e] ;;;
               ret (Some (retry_count + 1))) ;;
          match next with
          | None => ret Returned
          | Some retry_count' => reconnect_loop fuel' retry_count'
          end
    end
  else ret (Exited retry_count).

(** [ConnectionWatchdog._handle_disconnect]. *)
Definition _handle_disconnect : M ConnectionWatchdog unit :=
  log WARNING "Disconnect detected, initiating reconnection..." [] ;;;
  exit <- reconnect_loop (Z.to_nat (reconnect_max_retries cfg)) 0 ;;
  match exit with
  | Exited retry_count =>
      if reconnect_max_retries cfg <=? retry_count then
        log ERROR "Failed to reconnect after {} attempts"
          [ArgZ (reconnect_max_retries cfg)]
      else ret tt
  | Returned | OutOfFuel => ret tt
  end.

(** One turn of the [while self._running] loop of [_monitor_loop]. *)
Definition monitor_iteration : M ConnectionWatchdog Control :=
  try_catch (
    monitor_sleep (ping_interval cfg) ;;;
    running <- gets _running ;;
    if negb running then ret Break
    else
      ping_success <- _check_connection ;;
      if ping_success : bool then
        modify (fun w => set_last_ping_time (Some (now w)) w) ;;;
        failures <- gets _consecutive_failures ;;
        (if 0 <? failures then
           log INFO "Connection recovered" [] ;;;
           modify (set_consecutive_failures 0)
         else ret tt) ;;;
        ret Continue
      else
        modify (fun w => set_consecutive_failures (_consecutive_failures w + 1) w) ;;;
        modify (fun w => set_last_failure_time (Some (now w)) w) ;;;
        failures <- gets _consecutive_failures ;;
        log WARNING "Connection check failed (consecutive failures: {})"
          [ArgZ failures] ;;;
        _handle_disconnect ;;;
        ret Continue)
  (fun e =>
     match e with
     | CancelledError => Some (ret Break)
     | _ => Some (
         log ERROR "Error in watchdog monitor loop: {}" [ArgExn e] ;;;
         monitor_sleep 1 ;;;
         ret Continue)
     end).

(** [ConnectionWatchdog._monitor_loop], for at most [turns] turns of its
    loop: [Ret true] when the loop has been left, [Ret false] when it is
    still going after [turns] turns. *)
Fixpoint _monitor_loop (turns : nat) : M ConnectionWatchdog bool :=
  running <- gets _running ;;
  if negb running then ret true
  else
    match turns with
    | O => ret false
    | S turns' =>
        control <- monitor_iteration ;;
        match control with
        | Break => ret true
        | Continue => _monitor_loop turns'
        end
    end.

(** [ConnectionWatchdog.force_reconnect]; it runs in the caller's task, not
    in the monitor task. *)
Definition force_reconnect : M ConnectionWatchdog bool :=
  log INFO "Forcing reconnect..." [] ;;;
  try_except (
    on_client (Client.disconnect cfg session) ;;;
    on_client (Client.sleep 1) ;;;
    success <- on_client (Client.connect cfg session) ;;
    (if success : bool then
       modify (fun w => set_total_reconnects (_total_reconnects w + 1) w) ;;;
       modify (set_consecutive_failures 0) ;;;
       call_on_reconnect
     else ret tt) ;;;
    ret success)
  (fun e =>
     log ERROR "Error during forced reconnect: {}" [ArgExn e] ;;;
     ret false).

(** [ConnectionWatchdog.start]: the monitor task is created, its loop runs
    from the next suspension of the caller on. *)
Definition start : M ConnectionWatchdog unit :=
  running <- gets _running ;;
  if running : bool then log WARNING "Watchdog already running" []
  else
    modify (set_running true) ;;;
    modify (set_task true) ;;;
    log INFO "Connection watchdog started" [].

(** [ConnectionWatchdog.stop], called while the monitor task is suspended. *)
Definition stop : M ConnectionWatchdog unit :=
  running <- gets _running ;;
  if negb running then ret tt
  else
    modify (set_running false) ;;;
    log INFO "Connection watchdog stopped" [].

End WithEnvironment.

End Watchdog.

(** ** async_queue.py *)

Module Queue.
Import Config.

Inductive RequestType : Type :=
| GET_CANDLES
| SUBSCRIBE_CANDLES
| UNSUBSCRIBE_CANDLES
| PLACE_TRADE
| PLACE_TRADE_AND_WAIT
| GET_BALANCE
| GET_ASSETS.

(** The Python values that travel through the queue. *)
Inductive PyVal : Type :=
| VNone
| VBool (b : bool)
| VInt (z : Z)
| VFloat (q : Q)
| VStr (s : string)
| VCallable (id : nat)
| VData (n : nat).                (* whatever a client call returns *)

(** A callable given by the user, and what
    [asyncio.iscoroutinefunction] says of it. *)
Record Callback : Type := {
  cb_id : nat;
  cb_is_coroutine : bool
}.

Module Request.
Record t : Type := {
  request_id : nat;               (* str(uuid.uuid4()): the n-th identifier drawn *)
  request_type : RequestType;
  params : gmap string PyVal;
  callback : option Callback;
  future : option nat;            (* the handle of an asyncio.Future *)
  timestamp : nat
}.
End Request.

Module Response.
Record t : Type := {
  request_id : nat;
  request_type : RequestType;
  success : bool;
  data : PyVal;
  error : option string;
  timestamp : nat
}.
End Response.

(** The state of an [asyncio.Future]. *)
Inductive FutureState : Type :=
| Pending
| HasResult (response : Response.t)
| Cancelled.

(** A call on the client, with its arguments evaluated. *)
Inductive ClientCall : Type :=
| CallGetCandles (asset period count : PyVal)
| CallSubscribeCandles (asset period candle_callback : PyVal)
| CallUnsubscribeCandles (asset period : PyVal)
| CallBuy (asset amount direction duration : PyVal)
| CallBuyAndCheckWin (asset amount direction duration : PyVal)
| CallGetBalance
| CallGetAssets.

Inductive CallOutcome : Type :=
| Returned (data : PyVal)
| Raised (msg : string).

(** Where the task of a worker is suspended. *)
Inductive Worker : Type :=
| Waiting                                   (* in wait_for(self._queue.get(), 1.0) *)
| Processing (request : Request.t) (call : ClientCall)
                                            (* in the client call of _process_request *)
| InCallback (request : Request.t) (response : Response.t)
                                            (* in await request.callback(response) *)
| Sleeping                                  (* in asyncio.sleep(0.1) of the last handler *)
| Finished.                                 (* the loop has been left *)

Record AsyncRequestQueue : Type := {
  _queue : list Request.t;                  (* asyncio.Queue: the head leaves first *)
  _unfinished_tasks : Z;                    (* of the asyncio.Queue *)
  _running : bool;
  _workers : list Worker;
  _processed_count : Z;
  _failed_count : Z;
  (* the heap and the world around the queue *)
  futures : gmap nat FutureState;
  uuids_drawn : nat;
  clock : nat;
  logged : list Event;
  callback_calls : list (Callback * Response.t);   (* calls of user callbacks *)
  (* history, kept for the statements only *)
  accepted : list Request.t;                (* put on the queue *)
  answered : list (Request.t * Response.t); (* a worker built the Response *)
  abandoned : list Request.t;               (* cancelled inside _process_request *)
  cut_short : list (Request.t * Response.t) (* cancelled inside the callback *)
}.

Definition _num_workers : nat := 3.

Section Setters.
Variable q : AsyncRequestQueue.

Definition set_queue (l : list Request.t) : AsyncRequestQueue :=
  {| _queue := l; _unfinished_tasks := _unfinished_tasks q;
     _running := _running q; _workers := _workers q;
     _processed_count := _processed_count q; _failed_count := _failed_count q;
     futures := futures q; uuids_drawn := uuids_drawn q; clock := clock q;
     logged := logged q; callback_calls := callback_calls q;
     accepted := accepted q; answered := answered q;
     abandoned := abandoned q; cut_short := cut_short q |}.

Definition set_unfinished_tasks (n : Z) : AsyncRequestQueue :=
  {| _queue := _queue q; _unfinished_tasks := n;
     _running := _running q; _workers := _workers q;
     _processed_count := _processed_count q; _failed_count := _failed_count q;
     futures := futures q; uuids_drawn := uuids_drawn q; clock := clock q;
     logged := logged q; callback_calls := callback_calls q;
     accepted := accepted q; answered := answered q;
     abandoned := abandoned q; cut_short := cut_short q |}.

Definition set_running (b : bool) : AsyncRequestQueue :=
  {| _queue := _queue q; _unfinished_tasks := _unfinished_tasks q;
     _running := b; _workers := _workers q;
     _processed_count := _processed_count q; _failed_count := _failed_count q;
     futures := futures q; uuids_drawn := uuids_drawn q; clock := clock q;
     logged := logged q; callback_calls := callback_calls q;
     accepted := accepted q; answered := answered q;
     abandoned := abandoned q; cut_short := cut_short q |}.

Definition set_workers (l : list Worker) : AsyncRequestQueue :=
  {| _queue := _queue q; _unfinished_tasks := _unfinished_tasks q;
     _running := _running q; _workers := l;
     _processed_count := _processed_count q; _failed_count := _failed_count q;
     futures := futures q; uuids_drawn := uuids_drawn q; clock := clock q;
     logged := logged q; callback_calls := callback_calls q;
     accepted := accepted q; answered := answered q;
     abandoned := abandoned q; cut_short := cut_short q |}.

Definition set_processed_count (n : Z) : AsyncRequestQueue :=
  {| _queue := _queue q; _unfinished_tasks := _unfinished_tasks q;
     _running := _running q; _workers := _workers q;
     _processed_count := n; _failed_count := _failed_count q;
     futures := futures q; uuids_drawn := uuids_drawn q; clock := clock q;
     logged := logged q; callback_calls := callback_calls q;
     accepted := accepted q; answered := answered q;
     abandoned := abandoned q; cut_short := cut_short q |}.

Definition set_failed_count (n : Z) : AsyncRequestQueue :=
  {| _queue := _queue q; _unfinished_tasks := _unfinished_tasks q;
     _running := _running q; _workers := _workers q;
     _processed_count := _processed_count q; _failed_count := n;
     futures := futures q; uuids_drawn := uuids_drawn q; clock := clock q;
     logged := logged q; callback_calls := callback_calls q;
     accepted := accepted q; answered := answered q;
     abandoned := abandoned q; cut_short := cut_short q |}.

Definition set_futures (m : gmap nat FutureState) : AsyncRequestQueue :=
  {| _queue := _queue q; _unfinished_tasks := _unfinished_tasks q;
     _running := _running q; _workers := _workers q;
     _processed_count := _processed_count q; _failed_count := _failed_count q;
     futures := m; uuids_drawn := uuids_drawn q; clock := clock q;
     logged := logged q; callback_calls := callback_calls q;
     accepted := accepted q; answered := answered q;
     abandoned := abandoned q; cut_short := cut_short q |}.

Definition set_uuids_drawn (n : nat) : AsyncRequestQueue :=
  {| _queue := _queue q; _unfinished_tasks := _unfinished_tasks q;
     _running := _running q; _workers := _workers q;
     _processed_count := _processed_count q; _failed_count := _failed_count q;
     futures := futures q; uuids_drawn := n; clock := clock q;
     logged := logged q; callback_calls := callback_calls q;
     accepted := accepted q; answered := answered q;
     abandoned := abandoned q; cut_short := cut_short q |}.

Definition set_clock (n : nat) : AsyncRequestQueue :=
  {| _queue := _queue q; _unfinished_tasks := _unfinished_tasks q;
     _running := _running q; _workers := _workers q;
     _processed_count := _processed_count q; _failed_count := _failed_count q;
     futures := futures q; uuids_drawn := uuids_drawn q; clock := n;
     logged := logged q; callback_calls := callback_calls q;
     accepted := accepted q; answered := answered q;
     abandoned := abandoned q; cut_short := cut_short q |}.

Definition set_logged (l : list Event) : AsyncRequestQueue :=
  {| _queue := _queue q; _unfinished_tasks := _unfinished_tasks q;
     _running := _running q; _workers := _workers q;
     _processed_count := _processed_count q; _failed_count := _failed_count q;
     futures := futures q; uuids_drawn := uuids_drawn q; clock := clock q;
     logged := l; callback_calls := callback_calls q;
     accepted := accepted q; answered := answered q;
     abandoned := abandoned q; cut_short := cut_short q |}.

Definition set_callback_calls (l : list (Callback * Response.t))
  : AsyncRequestQueue :=
  {| _queue := _queue q; _unfinished_tasks := _unfinished_tasks q;
     _running := _running q; _workers := _workers q;
     _processed_count := _processed_count q; _failed_count := _failed_count q;
     futures := futures q; uuids_drawn := uuids_drawn q; clock := clock q;
     logged := logged q; callback_calls := l;
     accepted := accepted q; answered := answered q;
     abandoned := abandoned q; cut_short := cut_short q |}.

Definition set_accepted (l : list Request.t) : AsyncRequestQueue :=
  {| _queue := _queue q; _unfinished_tasks := _unfinished_tasks q;
     _running := _running q; _workers := _workers q;
     _processed_count := _processed_count q; _failed_count := _failed_count q;
     futures := futures q; uuids_drawn := uuids_drawn q; clock := clock q;
     logged := logged q; callback_calls := callback_calls q;
     accepted := l; answered := answered q;
     abandoned := abandoned q; cut_short := cut_short q |}.

Definition set_answered (l : list (Request.t * Response.t))
  : AsyncRequestQueue :=
  {| _queue := _queue q; _unfinished_tasks := _unfinished_tasks q;
     _running := _running q; _workers := _workers q;
     _processed_count := _processed_count q; _failed_count := _failed_count q;
     futures := futures q; uuids_drawn := uuids_drawn q; clock := clock q;
     logged := logged q; callback_calls := callback_calls q;
     accepted := accepted q; answered := l;
     abandoned := abandoned q; cut_short := cut_short q |}.

Definition set_abandoned (l : list Request.t) : AsyncRequestQueue :=
  {| _queue := _queue q; _unfinished_tasks := _unfinished_tasks q;
     _running := _running q; _workers := _workers q;
     _processed_count := _processed_count q; _failed_count := _failed_count q;
     futures := futures q; uuids_drawn := uuids_drawn q; clock := clock q;
     logged := logged q; callback_calls := callback_calls q;
     accepted := accepted q; answered := answered q;
     abandoned := l; cut_short := cut_short q |}.

Definition set_cut_short (l : list (Request.t * Response.t))
  : AsyncRequestQueue :=
  {| _queue := _queue q; _unfinished_tasks := _unfinished_tasks q;
     _running := _running q; _workers := _workers q;
     _processed_count := _processed_count q; _failed_count := _failed_count q;
     futures := futures q; uuids_drawn := uuids_drawn q; clock := clock q;
     logged := logged q; callback_calls := callback_calls q;
     accepted := accepted q; answered := answered q;
     abandoned := abandoned q; cut_short := l |}.

End Setters.

(** [AsyncRequestQueue.__init__]. *)
Definition __init__ : AsyncRequestQueue :=
  {| _queue := []; _unfinished_tasks := 0;
     _running := false; _workers := [];
     _processed_count := 0; _failed_count := 0;
     futures := ∅; uuids_drawn := O; clock := O;
     logged := []; callback_calls := [];
     accepted := []; answered := []; abandoned := []; cut_short := [] |}.

Local Open Scope monad_scope.

Definition log (level : LogLevel) (text : string) (args : list LogArg)
  : M AsyncRequestQueue unit :=
  modify (fun q => set_logged q (logged q ++ [EvLog level text args])).

(** [datetime.now()]. *)
Definition datetime_now : M AsyncRequestQueue nat :=
  q <- get ;;
  modify (fun q => set_clock q (S (clock q))) ;;;
  ret (clock q).

(** [str(uuid.uuid4())]: identifiers are never drawn twice. *)
Definition uuid4 : M AsyncRequestQueue nat :=
  q <- get ;;
  modify (fun q => set_uuids_drawn q (S (uuids_drawn q))) ;;;
  ret (uuids_drawn q).

(** [asyncio.Future()].  The future made for a request lives in the heap
    under the identifier that the request draws next. *)
Definition new_future : M AsyncRequestQueue nat :=
  q <- get ;;
  modify (fun q => set_futures q (<[uuids_drawn q := Pending]> (futures q))) ;;;
  ret (uuids_drawn q).

(** [str(e)]. *)
Definition str (e : exn) : string :=
  match e with
  | KeyError key => ("'" ++ key ++ "'")%string
  | ValueError msg | OtherException msg => msg
  | TimeoutError | CancelledError => ""
  end.

(** [params[key]] and [params.get(key, default)]. *)
Definition subscript (params : gmap string PyVal) (key : string)
  : result PyVal :=
  match params !! key with
  | Some v => Ret v
  | None => Raise (KeyError key)
  end.

Definition get_or (params : gmap string PyVal) (key : string) (dflt : PyVal)
  : PyVal :=
  default dflt (params !! key).

Definition and_then {A B} (r : result A) (k : A -> result B) : result B :=
  match r with
  | Ret a => k a
  | Raise e => Raise e
  end.

(** The branch of [_process_request] for the type of the request, up to the
    call it awaits: the arguments are evaluated from left to right. *)
Definition client_call_of (request : Request.t) : result ClientCall :=
  let params := Request.params request in
  match Request.request_type request with
  | GET_CANDLES =>
      and_then (subscript params "asset") (fun asset =>
      Ret (CallGetCandles asset (get_or params "period" (VInt 60))
             (get_or params "count" (VInt 100))))
  | SUBSCRIBE_CANDLES =>
      and_then (subscript params "asset") (fun asset =>
      and_then (subscript params "period") (fun period =>
      and_then (subscript params "candle_callback") (fun candle_callback =>
      Ret (CallSubscribeCandles asset period candle_callback))))
  | UNSUBSCRIBE_CANDLES =>
      and_then (subscript params "asset") (fun asset =>
      and_then (subscript params "period") (fun period =>
      Ret (CallUnsubscribeCandles asset period)))
  | PLACE_TRADE =>
      and_then (subscript params "asset") (fun asset =>
      and_then (subscript params "amount") (fun amount =>
      and_then (subscript params "direction") (fun direction =>
      Ret (CallBuy asset amount direction
             (get_or params "duration" (VInt 60))))))
  | PLACE_TRADE_AND_WAIT =>
      and_then (subscript params "asset") (fun asset =>
      and_then (subscript params "amount") (fun amount =>
      and_then (subscript params "direction") (fun direction =>
      Ret (CallBuyAndCheckWin asset amount direction
             (get_or params "duration" (VInt 60))))))
  | GET_BALANCE => Ret CallGetBalance
  | GET_ASSETS => Ret CallGetAssets
  end.

(** The two [Response(...)] that [_process_request] builds. *)
Definition success_response (request : Request.t) (data : PyVal) (now : nat)
  : Response.t :=
  {| Response.request_id := Request.request_id request;
     Response.request_type := Request.request_type request;
     Response.success := true;
     Response.data := data;
     Response.error := None;
     Response.timestamp := now |}.

Definition failure_response (id : nat) (rt : RequestType) (msg : string)
  (now : nat) : Response.t :=
  {| Response.request_id := id;
     Response.request_type := rt;
     Response.success := false;
     Response.data := VNone;
     Response.error := Some msg;
     Response.timestamp := now |}.

(** What [submit_request] returns: [Union[str, Response]]. *)
Inductive Submitted : Type :=
| RequestId (id : nat)
| Reply (response : Response.t).

Section WithEnvironment.

Variable cfg : QuotexConfig.
(** What the awaited client call of a request does. *)
Variable client_outcome : Request.t -> ClientCall -> CallOutcome.
(** What a user callback does with a response. *)
Variable callback_outcome : Callback -> Response.t -> UnitOutcome.

(** [asyncio.Queue(maxsize=config.request_queue_maxsize).full()]. *)
Definition full (q : AsyncRequestQueue) : bool :=
  (0 <? request_queue_maxsize cfg) &&
  (request_queue_maxsize cfg <=? Z.of_nat (length (_queue q))).


(** [await asyncio.wait_for(self._queue.put(request), timeout=1.0)].  On a
    full queue the caller is suspended; the schedules in which a worker makes
    room within the second are those in which the step of the worker comes
    first, so here a full queue means the wait times out. *)
Definition put (request : Request.t) : M AsyncRequestQueue unit :=
  q <- get ;;
  if full q then raise TimeoutError
  else
    modify (fun q => set_queue q (_queue q ++ [request])) ;;;
    modify (fun q => set_unfinished_tasks q (_unfinished_tasks q + 1)) ;;;
    modify (fun q => set_accepted q (accepted q ++ [request])).

(** The two [except] clauses of [submit_request]. *)
Definition submit_handlers {A} (id : nat) (rt : RequestType)
  (wait_for_response : bool) (finish : Submitted -> A)
  (body : M AsyncRequestQueue A) : M AsyncRequestQueue A :=
  try_catch body (fun e =>
    match e with
    | TimeoutError => Some (
        log ERROR "Queue full, request timeout" [] ;;;
        if wait_for_response then
          now <- datetime_now ;;
          ret (finish (Reply (failure_response id rt "Queue full" now)))
        else raise TimeoutError)
    | CancelledError => None
    | _ => Some (
        log ERROR "Error submitting request: {}" [ArgExn e] ;;;
        raise e)
    end).

(** [submit_request] up to the point where the caller either has its answer
    ([inl]) or is suspended on the future of its request ([inr]). *)
Definition submit_request_start (rt : RequestType)
  (params : option (gmap string PyVal)) (cb : option Callback)
  (wait_for_response : bool)
  : M AsyncRequestQueue (Submitted + Request.t) :=
  let params := default ∅ params in
  future <- (if wait_for_response then f <- new_future ;; ret (Some f)
             else ret None) ;;
  id <- uuid4 ;;
  now <- datetime_now ;;
  let request :=
    {| Request.request_id := id;
       Request.request_type := rt;
       Request.params := params;
       Request.callback := cb;
       Request.future := future;
       Request.timestamp := now |} in
  submit_handlers id rt wait_for_response inl (
    put request ;;;
    log DEBUG "Request submitted: {}" [ArgZ (Z.of_nat id)] ;;;
    if wait_for_response then ret (inr request)
    else ret (inl (RequestId id))).

(** The caller resumes from
    [await asyncio.wait_for(future, timeout=self.config.callback_timeout)]:
    the future has its result, or the time is up, in which case [wait_for]
    cancels the future and raises [TimeoutError]. *)
Definition submit_request_resume (request : Request.t)
  : M AsyncRequestQueue Submitted :=
  submit_handlers (Request.request_id request) (Request.request_type request)
    true (fun s => s) (
    q <- get ;;
    match Request.future request with
    | None => raise (OtherException "An asyncio.Future, a coroutine or an awaitable is required")
    | Some f =>
        match futures q !! f with
        | Some (HasResult response) => ret (Reply response)
        | Some Pending =>
            modify (fun q => set_futures q (<[f := Cancelled]> (futures q))) ;;;
            raise TimeoutError
        | Some Cancelled | None => raise CancelledError
        end
    end).

(** [AsyncRequestQueue.submit_request]; [meanwhile] is what the other tasks
    do while the caller is suspended on its future. *)
Definition submit_request (rt : RequestType)
  (params : option (gmap string PyVal)) (cb : option Callback)
  (wait_for_response : bool)
  (meanwhile : AsyncRequestQueue -> AsyncRequestQueue)
  : M AsyncRequestQueue Submitted :=
  started <- submit_request_start rt params cb wait_for_response ;;
  match started with
  | inl answer => ret answer
  | inr request =>
      modify meanwhile ;;;
      submit_request_resume request
  end.

(** *** The workers *)

Definition set_worker (i : nat) (w : Worker) : M AsyncRequestQueue unit :=
  modify (fun q => set_workers q (<[i := w]> (_workers q))).

(** Back at [while self._running]. *)
Definition again (i : nat) : M AsyncRequestQueue unit :=
  running <- gets _running ;;
  if running : bool then set_worker i Waiting
  else
    log DEBUG "Worker {} stopped" [ArgZ (Z.of_nat i)] ;;;
    set_worker i Finished.

(** [self._queue.task_done()]. *)
Definition task_done : M AsyncRequestQueue unit :=
  q <- get ;;
  if _unfinished_tasks q <=? 0 then
    raise (ValueError "task_done() called too many times")
  else modify (fun q => set_unfinished_tasks q (_unfinished_tasks q - 1)).

(** The three [except] clauses of the loop of [_worker_loop]. *)
Definition worker_handlers (i : nat) (body : M AsyncRequestQueue unit)
  : M AsyncRequestQueue unit :=
  try_catch body (fun e =>
    match e with
    | TimeoutError => Some (again i)
    | CancelledError => Some (
        log DEBUG "Worker {} stopped" [ArgZ (Z.of_nat i)] ;;;
        set_worker i Finished)
    | _ => Some (
        log ERROR "Worker {} error: {}" [ArgZ (Z.of_nat i); ArgExn e] ;;;
        set_worker i Sleeping)
    end).

(** The call of a user callback; an exception in it is logged. *)
Definition callback_returns (cb : Callback) (response : Response.t)
  : M AsyncRequestQueue unit :=
  try_except (
    match callback_outcome cb response with
    | Done => ret tt
    | Raises msg => raise (OtherException msg)
    end)
  (fun e => log ERROR "Error in callback: {}" [ArgExn e]).

(** From the test of the future to the end of the turn. *)
Definition resolve_and_finish (i : nat) (request : Request.t)
  (response : Response.t) : M AsyncRequestQueue unit :=
  q <- get ;;
  match Request.future request with
  | Some f =>
      match futures q !! f with
      | Some Pending =>
          modify (fun q => set_futures q
                             (<[f := HasResult response]> (futures q)))
      | _ => ret tt
      end
  | None => ret tt
  end ;;;
  task_done ;;;
  again i.

(** From the [Response] that [_process_request] returned to the end of the
    turn, or to the suspension in a coroutine callback. *)
Definition handle_response (i : nat) (request : Request.t)
  (response : Response.t) : M AsyncRequestQueue unit :=
  modify (fun q => set_answered q (answered q ++ [(request, response)])) ;;;
  (if Response.success response then
     modify (fun q => set_processed_count q (_processed_count q + 1))
   else
     modify (fun q => set_failed_count q (_failed_count q + 1))) ;;;
  match Request.callback request with
  | Some cb =>
      modify (fun q => set_callback_calls q
                         (callback_calls q ++ [(cb, response)])) ;;;
      if cb_is_coroutine cb then set_worker i (InCallback request response)
      else
        callback_returns cb response ;;;
        resolve_and_finish i request response
  | None => resolve_and_finish i request response
  end.

(** The task of worker [i] runs from where it is suspended to its next
    suspension. *)
Definition worker_step (i : nat) : M AsyncRequestQueue unit :=
  q <- get ;;
  match _workers q !! i with
  | Some Waiting =>
      worker_handlers i (
        match _queue q with
        | [] => raise TimeoutError
        | request :: rest =>
            modify (fun q => set_queue q rest) ;;;
            log DEBUG "Processing request: {}"
              [ArgZ (Z.of_nat (Request.request_id request))] ;;;
            match client_call_of request with
            | Ret call => set_worker i (Processing request call)
            | Raise e =>
                log ERROR "Error processing request {}: {}"
                  [ArgZ (Z.of_nat (Request.request_id request)); ArgExn e] ;;;
                now <- datetime_now ;;
                handle_response i request
                  (failure_response (Request.request_id request)
                     (Request.request_type request) (str e) now)
            end
        end)
  | Some (Processing request call) =>
      worker_handlers i (
        response <-
          match client_outcome request call with
          | Returned data =>
              now <- datetime_now ;;
              ret (success_response request data now)
          | Raised msg =>
              log ERROR "Error processing request {}: {}"
                [ArgZ (Z.of_nat (Request.request_id request));
                 ArgExn (OtherException msg)] ;;;
              now <- datetime_now ;;
              ret (failure_response (Request.request_id request)
                     (Request.request_type request) msg now)
          end ;;
        handle_response i request response)
  | Some (InCallback request response) =>
      worker_handlers i (
        match Request.callback request with
        | Some cb => callback_returns cb response
        | None => ret tt
        end ;;;
        resolve_and_finish i request response)
  | Some Sleeping => again i
  | Some Finished | None => ret tt
  end.

(** *** Start and stop *)

(** [AsyncRequestQueue.start]. *)
Definition start : M AsyncRequestQueue unit :=
  running <- gets _running ;;
  if running : bool then log WARNING "Queue already running" []
  else
    modify (fun q => set_running q true) ;;;
    modify (fun q => set_workers q (_workers q ++ replicate _num_workers Waiting)) ;;;
    log INFO "Started {} queue workers" [ArgZ (Z.of_nat _num_workers)].

(** What the cancellation of the workers leaves undone. *)
Definition requests_in_flight (ws : list Worker) : list Request.t :=
  flat_map (fun w => match w with
                     | Processing request _ => [request]
                     | _ => []
                     end) ws.

Definition callbacks_in_flight (ws : list Worker)
  : list (Request.t * Response.t) :=
  flat_map (fun w => match w with
                     | InCallback request response => [(request, response)]
                     | _ => []
                     end) ws.

(** [AsyncRequestQueue.stop]: every worker is cancelled where it is
    suspended, [gather] waits until all have left, the list is cleared.
    Nothing touches [_queue] or the futures.  (The DEBUG lines that a worker
    writes when its task first runs and when it is cancelled are not
    recorded in [logged].) *)
Definition stop : M AsyncRequestQueue unit :=
  running <- gets _running ;;
  if negb running then ret tt
  else
    modify (fun q => set_running q false) ;;;
    modify (fun q => set_abandoned q
                       (abandoned q ++ requests_in_flight (_workers q))) ;;;
    modify (fun q => set_cut_short q
                       (cut_short q ++ callbacks_in_flight (_workers q))) ;;;
    modify (fun q => set_workers q []) ;;;
    log INFO "Queue workers stopped" [].

(** *** Schedules *)

Inductive Step : Type :=
| StStart
| StStop
| StSubmit (rt : RequestType) (params : option (gmap string PyVal))
    (cb : option Callback) (wait_for_response : bool)
| StResume (request : Request.t)
| StWorker (i : nat).

Definition step (s : Step) (q : AsyncRequestQueue) : AsyncRequestQueue :=
  match s with
  | StStart => snd (start q)
  | StStop => snd (stop q)
  | StSubmit rt params cb wait_for_response =>
      snd (submit_request_start rt params cb wait_for_response q)
  | StResume request => snd (submit_request_resume request q)
  | StWorker i => snd (worker_step i q)
  end.

Definition run (steps : list Step) (q : AsyncRequestQueue)
  : AsyncRequestQueue :=
  fold_left (fun q s => step s q) steps q.

End WithEnvironment.

End Queue.

(** ** async_queue.py: the typed entry points *)

Module QueueApi.
Import Config Queue.

Local Open Scope monad_scope.

(** The dictionaries of parameters that the entry points build. *)
Definition candles_params (asset : string) (period count : Z)
  : gmap string PyVal :=
  <["asset" := VStr asset]>
    (<["period" := VInt period]> (<["count" := VInt count]> ∅)).

Definition subscription_params (asset : string) (period : Z) (callback : nat)
  : gmap string PyVal :=
  <["asset" := VStr asset]>
    (<["period" := VInt period]>
       (<["candle_callback" := VCallable callback]> ∅)).

Definition trade_params (asset : string) (amount : Q) (direction : string)
  (duration : Z) : gmap string PyVal :=
  <["asset" := VStr asset]>
    (<["amount" := VFloat amount]>
       (<["direction" := VStr direction]>
          (<["duration" := VInt duration]> ∅))).

Section WithEnvironment.

Variable cfg : QuotexConfig.
(** What the other tasks do while a caller waits for its response. *)
Variable meanwhile : AsyncRequestQueue -> AsyncRequestQueue.

(** [AsyncRequestQueue.get_candles]. *)
Definition get_candles (asset : string) (period count : Z)
  (callback : option Callback) : M AsyncRequestQueue Submitted :=
  submit_request cfg GET_CANDLES (Some (candles_params asset period count))
    callback false meanwhile.

(** [AsyncRequestQueue.subscribe_candles]: the callback for the candles
    travels in the parameters, the request itself has no callback. *)
Definition subscribe_candles (asset : string) (period : Z) (callback : nat)
  : M AsyncRequestQueue Submitted :=
  submit_request cfg SUBSCRIBE_CANDLES
    (Some (subscription_params asset period callback)) None false meanwhile.

(** [AsyncRequestQueue.place_trade]. *)
Definition place_trade (asset : string) (amount : Q) (direction : string)
  (duration : Z) (wait_for_result : bool) (callback : option Callback)
  : M AsyncRequestQueue Submitted :=
  let request_type :=
    if wait_for_result then PLACE_TRADE_AND_WAIT else PLACE_TRADE in
  submit_request cfg request_type
    (Some (trade_params asset amount direction duration))
    callback false meanwhile.

(** [AsyncRequestQueue.get_balance] and [AsyncRequestQueue.get_assets]: the
    two entry points that wait for the response. *)
Definition get_balance (callback : option Callback)
  : M AsyncRequestQueue Submitted :=
  submit_request cfg GET_BALANCE None callback true meanwhile.

Definition get_assets (callback : option Callback)
  : M AsyncRequestQueue Submitted :=
  submit_request cfg GET_ASSETS None callback true meanwhile.

End WithEnvironment.

End QueueApi.

(** ** client.py: the balance and the categories of assets *)

Module ClientData.
Import Config Client.

Local Open Scope monad_scope.

(** The dictionary with the keys ["real"] and ["demo"]. *)
Record Balance : Type := {
  real : Q;
  demo : Q
}.

(** [balance if balance else 0.0]. *)
Definition or_zero (balance : option Q) : Q :=
  match balance with
  | Some b => if Qeq_bool b 0 then 0%Q else b
  | None => 0%Q
  end.

Section WithSession.

Variable cfg : QuotexConfig.
Variable session : Session.
(** The [balance] attribute of the simulated API at the time of the call. *)
Variable dry_run_balance : Q.

(** [PyQuotexClient.get_balance].  The remote call is the one that [ping]
    makes, without the time limit. *)
Definition get_balance : M PyQuotexClient (option Balance) :=
  c <- get ;;
  if negb (is_connected c) then
    log ERROR "Not connected" [] ;;;
    ret None
  else
    try_except (
      if dry_run cfg then
        match _api c with
        | None =>
            raise (OtherException
                     "'NoneType' object has no attribute 'get_balance'")
        | Some _ => ret (Some {| real := dry_run_balance; demo := 0 |})
        end
      else
        match _api c with
        | None =>
            raise (OtherException
                     "'NoneType' object has no attribute 'get_balance'")
        | Some _ =>
            i <- api_call ApiGetBalance ;;
            match get_balance_outcome session i with
            | BalanceReturns balance =>
                ret (Some {| real := or_zero balance; demo := 0 |})
            | BalanceTimesOut => raise TimeoutError
            | BalanceRaises msg => raise (OtherException msg)
            end
        end)
    (fun e =>
       log ERROR "Error getting balance: {}" [ArgExn e] ;;;
       ret None).

End WithSession.

(** [needle in haystack] on strings. *)
Fixpoint contains (needle haystack : string) : bool :=
  String.prefix needle haystack ||
  match haystack with
  | EmptyString => false
  | String _ rest => contains needle rest
  end.

(** [PyQuotexClient._categorize_asset]. *)
Definition _categorize_asset (asset_name : string) : string :=
  if existsb (fun curr => contains curr asset_name)
       ["USD"; "EUR"; "GBP"; "JPY"; "AUD"; "CAD"]
  then "forex"
  else if existsb (fun crypto => contains crypto asset_name)
            ["BTC"; "ETH"; "LTC"; "XRP"]
  then "crypto"
  else "other".

End ClientData.

(** ** asset_selector.py *)

Module AssetSelector.
Import Config.

(** [AssetInfo]. *)
Record AssetInfo : Type := {
  name : string;
  category : string;
  is_open : bool;
  payout : Q;
  last_updated : nat
}.

(** The [score] property. *)
Definition score (a : AssetInfo) : Q :=
  if negb (is_open a) then 0%Q else payout a.

Record AssetSelector : Type := {
  _assets : list (string * AssetInfo);     (* dict, insertion order *)
  _running : bool;
  _update_interval : Q;
  _callbacks : list nat;                   (* the callables, by identity *)
  (* the world around the selector *)
  clock : nat;
  logged : list Event;
  notified : list (nat * list AssetInfo)   (* calls of the callbacks *)
}.

(** [AssetSelector.__init__]. *)
Definition __init__ : AssetSelector :=
  {| _assets := []; _running := false; _update_interval := 60;
     _callbacks := []; clock := O; logged := []; notified := [] |}.

Definition set_assets (l : list (string * AssetInfo)) (s : AssetSelector)
  : AssetSelector :=
  {| _assets := l; _running := _running s;
     _update_interval := _update_interval s; _callbacks := _callbacks s;
     clock := clock s; logged := logged s; notified := notified s |}.

Definition set_callbacks (l : list nat) (s : AssetSelector) : AssetSelector :=
  {| _assets := _assets s; _running := _running s;
     _update_interval := _update_interval s; _callbacks := l;
     clock := clock s; logged := logged s; notified := notified s |}.

Definition set_clock (n : nat) (s : AssetSelector) : AssetSelector :=
  {| _assets := _assets s; _running := _running s;
     _update_interval := _update_interval s; _callbacks := _callbacks s;
     clock := n; logged := logged s; notified := notified s |}.

Definition set_logged (l : list Event) (s : AssetSelector) : AssetSelector :=
  {| _assets := _assets s; _running := _running s;
     _update_interval := _update_interval s; _callbacks := _callbacks s;
     clock := clock s; logged := l; notified := notified s |}.


(** [self._assets.values()]. *)
Definition values (s : AssetSelector) : list AssetInfo := map snd (_assets s).

(** The [available_assets] property. *)
Definition available_assets (s : AssetSelector) : list AssetInfo :=
  List.filter is_open (values s).

(** [sorted(l, key=lambda a: a.score, reverse=True)]: the sort is stable, so
    an asset goes in front of the first one that does not score more. *)
Fixpoint insert_by_score (a : AssetInfo) (l : list AssetInfo)
  : list AssetInfo :=
  match l with
  | [] => [a]
  | b :: rest =>
      if Qltb (score a) (score b) then b :: insert_by_score a rest
      else a :: b :: rest
  end.

Definition sorted_by_score (l : list AssetInfo) : list AssetInfo :=
  fold_right insert_by_score [] l.

(** The [best_assets] property. *)
Definition best_assets (s : AssetSelector) : list AssetInfo :=
  sorted_by_score (available_assets s).

(** [x in l] on a list of strings, and the truth value of an optional
    list. *)
Definition among (x : string) (l : list string) : bool :=
  existsb (String.eqb x) l.

Definition given (l : option (list string)) : list string :=
  match l with Some l => l | None => [] end.

(** [min_payout or self.config.min_payout]: a [min_payout] of zero counts as
    not given. *)
Definition effective_min_payout (cfg : QuotexConfig) (min_payout : option Q)
  : Q :=
  match min_payout with
  | Some m => if Qeq_bool m 0 then Config.min_payout cfg else m
  | None => Config.min_payout cfg
  end.

(** The four tests of the loop of [filter_assets]: an asset is kept when
    none of them says [continue]. *)
Definition kept (cfg : QuotexConfig) (min_payout : Q)
  (categories : list string) (only_open preferred : bool) (a : AssetInfo)
  : bool :=
  negb (only_open && negb (is_open a)) &&
  negb (Qltb (payout a) min_payout) &&
  negb (match categories with
        | [] => false
        | _ => negb (among (category a) categories)
        end) &&
  negb (preferred && negb (among (name a) (preferred_assets cfg))).

(** [AssetSelector.filter_assets]. *)
Definition filter_assets (cfg : QuotexConfig) (s : AssetSelector)
  (min_payout : option Q) (categories : option (list string))
  (only_open preferred : bool) : list AssetInfo :=
  let min_payout := effective_min_payout cfg min_payout in
  sorted_by_score
    (List.filter (kept cfg min_payout (given categories) only_open preferred)
       (values s)).

(** [AssetSelector.get_best_asset]. *)
Definition get_best_asset (cfg : QuotexConfig) (s : AssetSelector)
  (min_payout : option Q) (categories exclude : option (list string))
  : option AssetInfo :=
  let filtered := filter_assets cfg s min_payout categories true false in
  let filtered :=
    match given exclude with
    | [] => filtered
    | names => List.filter (fun a => negb (among (name a) names)) filtered
    end in
  head filtered.

(** [l[:count]]: a negative [count] counts from the end. *)
Definition up_to {A} (count : Z) (l : list A) : list A :=
  if 0 <=? count then firstn (Z.to_nat count) l
  else firstn (length l - Z.to_nat (- count)) l.

(** [AssetSelector.get_top_assets]. *)
Definition get_top_assets (cfg : QuotexConfig) (s : AssetSelector)
  (count : Z) (min_payout : option Q) (categories : option (list string))
  : list AssetInfo :=
  up_to count (filter_assets cfg s min_payout categories true false).


Definition log (level : LogLevel) (text : string) (args : list LogArg)
  (s : AssetSelector) : AssetSelector :=
  set_logged (logged s ++ [EvLog level text args]) s.

(** [list.remove(x)]: the first occurrence goes. *)
Fixpoint remove_first (x : nat) (l : list nat) : list nat :=
  match l with
  | [] => []
  | y :: rest => if Nat.eqb x y then rest else y :: remove_first x rest
  end.

(** [AssetSelector.register_callback] and
    [AssetSelector.unregister_callback]. *)
Definition register_callback (callback : nat) (s : AssetSelector)
  : AssetSelector :=
  if existsb (Nat.eqb callback) (_callbacks s) then s
  else
    log DEBUG "Registered callback: {}" [ArgZ (Z.of_nat callback)]
      (set_callbacks (_callbacks s ++ [callback]) s).

Definition unregister_callback (callback : nat) (s : AssetSelector)
  : AssetSelector :=
  if existsb (Nat.eqb callback) (_callbacks s) then
    log DEBUG "Unregistered callback: {}" [ArgZ (Z.of_nat callback)]
      (set_callbacks (remove_first callback (_callbacks s)) s)
  else s.

(** The statistics of [get_stats]. *)
Record Stats : Type := {
  total_assets : nat;
  available : nat;
  is_running : bool;
  update_interval : Q;
  callbacks_registered : nat
}.

Definition get_stats (s : AssetSelector) : Stats :=
  {| total_assets := length (_assets s);
     available := length (available_assets s);
     is_running := _running s;
     update_interval := _update_interval s;
     callbacks_registered := length (_callbacks s) |}.

(** *** Updates *)

(** An entry of the list that [client.get_assets] returns: a dictionary that
    may lack any of its keys. *)
Record AssetData : Type := {
  data_name : option string;
  data_category : option string;
  data_is_open : option bool
}.

Inductive AssetsOutcome : Type :=
| AssetsReturned (data : option (list AssetData))
| AssetsRaised (msg : string).

Inductive PaymentOutcome : Type :=
| PaymentReturned (payout : option Q)
| PaymentRaised (msg : string).

Local Open Scope monad_scope.

Section WithEnvironment.

Variable cfg : QuotexConfig.
(** [self.client.is_connected] and what [self.client.get_assets()] does, at
    the time of the update. *)
Variable client_is_connected : bool.
Variable get_assets_outcome : AssetsOutcome.
(** [random.uniform(80, 90)] for an asset. *)
Variable uniform : string -> Q.
(** [self.client._api.get_payment], when the API object has one. *)
Variable get_payment : option (string -> PaymentOutcome).
(** What a registered callback does with the list of assets. *)
Variable callback_outcome : nat -> list AssetInfo -> UnitOutcome.


Definition datetime_now : M AssetSelector nat :=
  s <- get ;;
  modify (set_clock (S (clock s))) ;;;
  ret (clock s).






End WithEnvironment.

End AssetSelector.

(** ** session.py *)

Module SessionContext.
Import Config.

(** The [result] dictionary of a trade that was checked. *)
Record TradeResult : Type := {
  result_win : bool;
  result_profit : Q;
  result_close_price : Q
}.

(** [TradeRecord]. *)
Record TradeRecord : Type := {
  trade_id : string;
  asset : string;
  amount : Q;
  direction : string;
  duration : Z;
  timestamp : nat;
  status : string;
  result : option TradeResult;
  profit : Q;
  win : option bool
}.

(** [AccountInfo]. *)
Record AccountInfo : Type := {
  balance_real : Q;
  balance_demo : Q;
  initial_balance : Q;
  total_trades : Z;
  winning_trades : Z;
  losing_trades : Z;
  total_profit : Q;
  last_updated : nat
}.

(** The [win_rate] and [roi] properties. *)
Definition win_rate (a : AccountInfo) : Q :=
  if total_trades a =? 0 then 0%Q
  else (inject_Z (winning_trades a) / inject_Z (total_trades a) * 100)%Q.

Definition roi (a : AccountInfo) : Q :=
  if Qeq_bool (initial_balance a) 0 then 0%Q
  else (total_profit a / initial_balance a * 100)%Q.

Record SessionContext : Type := {
  account : AccountInfo;
  trades : list TradeRecord;
  _running : bool;
  (* the world around the session *)
  clock : nat;
  logged : list Event
}.

(** [AccountInfo(balance_real=..., initial_balance=...)] with the other
    fields at their defaults, at the time [now]. *)
Definition new_account (balance initial : Q) (now : nat) : AccountInfo :=
  {| balance_real := balance; balance_demo := 0; initial_balance := initial;
     total_trades := 0; winning_trades := 0; losing_trades := 0;
     total_profit := 0; last_updated := now |}.

(** [SessionContext.__init__]. *)
Definition __init__ : SessionContext :=
  {| account := new_account 0 0 0; trades := []; _running := false;
     clock := 1; logged := [] |}.

Definition set_account (a : AccountInfo) (s : SessionContext)
  : SessionContext :=
  {| account := a; trades := trades s; _running := _running s;
     clock := clock s; logged := logged s |}.

Definition set_trades (l : list TradeRecord) (s : SessionContext)
  : SessionContext :=
  {| account := account s; trades := l; _running := _running s;
     clock := clock s; logged := logged s |}.

Definition set_clock (n : nat) (s : SessionContext) : SessionContext :=
  {| account := account s; trades := trades s; _running := _running s;
     clock := n; logged := logged s |}.

Definition set_logged (l : list Event) (s : SessionContext) : SessionContext :=
  {| account := account s; trades := trades s; _running := _running s;
     clock := clock s; logged := l |}.

(** The dictionary that [client.get_balance] returns, and the one that
    [client.buy] and [client.buy_and_check_win] return: either may lack any
    of its keys. *)
Record BalanceInfo : Type := {
  info_real : option Q;
  info_demo : option Q
}.

Inductive Timestamp : Type :=
| NoTimestamp                     (* the key is missing *)
| NotIsoFormat                    (* fromisoformat raises ValueError *)
| At (t : nat).

Record TradeInfo : Type := {
  info_id : option string;
  info_timestamp : Timestamp;
  info_status : option string;
  info_result : option TradeResult;
  info_profit : option Q;
  info_win : option bool
}.

Inductive BalanceAnswer : Type :=
| BalanceGiven (info : option BalanceInfo)
| BalanceFailed (msg : string).

Inductive TradeAnswer : Type :=
| TradeGiven (info : option TradeInfo)
| TradeFailed (msg : string).

(** [not balance_info] and [not trade_info]: [None], or a dictionary
    without any key. *)
Definition no_balance (info : option BalanceInfo) : bool :=
  match info with
  | None => true
  | Some b =>
      match info_real b, info_demo b with
      | None, None => true
      | _, _ => false
      end
  end.

Definition no_trade (info : option TradeInfo) : bool :=
  match info with
  | None => true
  | Some t =>
      match info_id t, info_timestamp t, info_status t, info_result t,
            info_profit t, info_win t with
      | None, NoTimestamp, None, None, None, None => true
      | _, _, _, _, _, _ => false
      end
  end.

Local Open Scope monad_scope.

Definition log (level : LogLevel) (text : string) (args : list LogArg)
  : M SessionContext unit :=
  modify (fun s => set_logged (logged s ++ [EvLog level text args]) s).

Definition datetime_now : M SessionContext nat :=
  s <- get ;;
  modify (set_clock (S (clock s))) ;;;
  ret (clock s).

(** The updates of the fields of [self.account]. *)
Definition with_balance (real demo : Q) (now : nat) (a : AccountInfo)
  : AccountInfo :=
  {| balance_real := real; balance_demo := demo;
     initial_balance := initial_balance a;
     total_trades := total_trades a; winning_trades := winning_trades a;
     losing_trades := losing_trades a; total_profit := total_profit a;
     last_updated := now |}.

Definition with_initial_balance (initial : Q) (a : AccountInfo)
  : AccountInfo :=
  {| balance_real := balance_real a; balance_demo := balance_demo a;
     initial_balance := initial;
     total_trades := total_trades a; winning_trades := winning_trades a;
     losing_trades := losing_trades a; total_profit := total_profit a;
     last_updated := last_updated a |}.

Definition with_statistics (total winning losing : Z) (total_profit : Q)
  (a : AccountInfo) : AccountInfo :=
  {| balance_real := balance_real a; balance_demo := balance_demo a;
     initial_balance := initial_balance a;
     total_trades := total; winning_trades := winning;
     losing_trades := losing; total_profit := total_profit;
     last_updated := last_updated a |}.

(** What [await self.client.get_balance()] does. *)
Definition client_get_balance (answer : BalanceAnswer)
  : M SessionContext (option BalanceInfo) :=
  match answer with
  | BalanceGiven info => ret info
  | BalanceFailed msg => raise (OtherException msg)
  end.

(** [SessionContext.initialize]. *)
Definition initialize (answer : BalanceAnswer) : M SessionContext bool :=
  log INFO "Initializing session context..." [] ;;;
  try_except (
    balance_info <- client_get_balance answer ;;
    if no_balance balance_info then
      log ERROR "Failed to get balance" [] ;;;
      ret false
    else
      let real := default 0%Q (balance_info ≫= info_real) in
      let demo := default 0%Q (balance_info ≫= info_demo) in
      now <- datetime_now ;;
      modify (fun s =>
                set_account
                  (with_initial_balance real
                     (with_balance real demo now (account s))) s) ;;;
      log INFO "Session initialized - Balance: ${}" [ArgQ real] ;;;
      ret true)
  (fun e =>
     log ERROR "Error initializing session: {}" [ArgExn e] ;;;
     ret false).

(** [SessionContext.update_balance]. *)
Definition update_balance (answer : BalanceAnswer) : M SessionContext bool :=
  try_except (
    balance_info <- client_get_balance answer ;;
    if no_balance balance_info then ret false
    else
      let real := default 0%Q (balance_info ≫= info_real) in
      let demo := default 0%Q (balance_info ≫= info_demo) in
      now <- datetime_now ;;
      modify (fun s => set_account (with_balance real demo now (account s)) s) ;;;
      log DEBUG "Balance updated: ${}" [ArgQ real] ;;;
      ret true)
  (fun e =>
     log ERROR "Error updating balance: {}" [ArgExn e] ;;;
     ret false).

(** [SessionContext._update_stats]. *)
Definition _update_stats (trade : TradeRecord) : M SessionContext unit :=
  modify (fun s =>
    let a := account s in
    let a1 :=
      with_statistics (total_trades a + 1) (winning_trades a)
        (losing_trades a) (total_profit a) a in
    let a2 :=
      match win trade with
      | Some true =>
          with_statistics (total_trades a1) (winning_trades a1 + 1)
            (losing_trades a1) (total_profit a1 + profit trade)%Q a1
      | Some false =>
          with_statistics (total_trades a1) (winning_trades a1)
            (losing_trades a1 + 1) (total_profit a1 + profit trade)%Q a1
      | None => a1
      end in
    set_account a2 s).

(** The word for the outcome in the last log line of [record_trade]. *)
Definition outcome_word (trade : TradeRecord) : string :=
  match win trade with
  | Some true => "WIN"
  | Some false => "LOSS"
  | None => "PENDING"
  end.

(** [SessionContext.record_trade].  [trade_answer] is what the client does
    when asked to place the trade ([buy_and_check_win] when
    [wait_for_result], [buy] otherwise), [balance_answer] what it does when
    the balance is asked for afterwards. *)
Definition record_trade (cfg : QuotexConfig)
  (asset : string) (amount : Q) (direction : string) (duration : Z)
  (wait_for_result : bool)
  (trade_answer : TradeAnswer) (balance_answer : BalanceAnswer)
  : M SessionContext (option TradeRecord) :=
  (if dry_run cfg then
     log INFO "DRY RUN: Would place {} trade on {} for ${}"
       [ArgStr direction; ArgStr asset; ArgQ amount]
   else ret tt) ;;;
  try_except (
    trade_info <-
      match trade_answer with
      | TradeGiven info => ret info
      | TradeFailed msg => raise (OtherException msg)
      end ;;
    match trade_info with
    | None =>
        log ERROR "Trade placement failed" [] ;;;
        ret None
    | Some info =>
        if no_trade trade_info then
          log ERROR "Trade placement failed" [] ;;;
          ret None
        else
          match info_id info with
          | None => raise (KeyError "id")
          | Some id =>
              match info_timestamp info with
              | NoTimestamp => raise (KeyError "timestamp")
              | NotIsoFormat => raise (ValueError "Invalid isoformat string")
              | At t =>
                  let trade_record :=
                    {| trade_id := id;
                       asset := asset;
                       amount := amount;
                       direction := direction;
                       duration := duration;
                       timestamp := t;
                       status := default "pending" (info_status info);
                       result := info_result info;
                       profit := default 0%Q (info_profit info);
                       win := info_win info |} in
                  modify (fun s => set_trades (trades s ++ [trade_record]) s) ;;;
                  _update_stats trade_record ;;;
                  update_balance balance_answer ;;;
                  log INFO "Trade recorded: {} {} ${} {}"
                    [ArgStr asset; ArgStr direction; ArgQ amount;
                     ArgStr (outcome_word trade_record)] ;;;
                  ret (Some trade_record)
              end
          end
    end)
  (fun e =>
     log ERROR "Error recording trade: {}" [ArgExn e] ;;;
     ret None).

(** [l[start:]]: a negative [start] counts from the end. *)
Definition from {A} (start : Z) (l : list A) : list A :=
  if 0 <=? start then skipn (Z.to_nat start) l
  else skipn (length l - Z.to_nat (- start)) l.

(** [SessionContext.get_recent_trades]: [self.trades[-count:]]. *)
Definition get_recent_trades (count : Z) (s : SessionContext)
  : list TradeRecord :=
  match trades s with
  | [] => []
  | _ => from (- count) (trades s)
  end.

(** [SessionContext.get_winning_trades] and
    [SessionContext.get_losing_trades]. *)
Definition get_winning_trades (s : SessionContext) : list TradeRecord :=
  List.filter (fun t => match win t with Some true => true | _ => false end)
    (trades s).

Definition get_losing_trades (s : SessionContext) : list TradeRecord :=
  List.filter (fun t => match win t with Some false => true | _ => false end)
    (trades s).

(** [SessionContext.reset]. *)
Definition reset : M SessionContext unit :=
  log INFO "Resetting session context..." [] ;;;
  s <- get ;;
  let current_balance := balance_real (account s) in
  now <- datetime_now ;;
  modify (set_account (new_account current_balance current_balance now)) ;;;
  modify (set_trades []) ;;;
  log INFO "Session context reset" [].

(** The operations on a session, each with what the client answers to
    it. *)
Inductive Op : Type :=
| OpInitialize (answer : BalanceAnswer)
| OpUpdateBalance (answer : BalanceAnswer)
| OpRecordTrade (asset : string) (amount : Q) (direction : string)
    (duration : Z) (wait_for_result : bool)
    (trade_answer : TradeAnswer) (balance_answer : BalanceAnswer)
| OpReset.

Definition run_op (cfg : QuotexConfig) (s : SessionContext) (o : Op)
  : SessionContext :=
  match o with
  | OpInitialize answer => snd (initialize answer s)
  | OpUpdateBalance answer => snd (update_balance answer s)
  | OpRecordTrade asset amount direction duration wait_for_result
      trade_answer balance_answer =>
      snd (record_trade cfg asset amount direction duration wait_for_result
             trade_answer balance_answer s)
  | OpReset => snd (reset s)
  end.

Definition run_ops (cfg : QuotexConfig) (ops : list Op) (s : SessionContext)
  : SessionContext :=
  fold_left (run_op cfg) ops s.

End SessionContext.

(** ** client.py: the simulated API of the dry-run mode *)

Module DryRunAPI.

(** The dictionary that [buy] builds. *)
Record Trade : Type := {
  id : string;
  asset : string;
  amount : Q;
  direction : string;
  duration : Z;
  timestamp : nat;
  status : string
}.

(** The dictionary that [check_win] returns. *)
Record WinResult : Type := {
  win : bool;
  profit : Q;
  close_price : Q
}.

(** A candle. *)
Record Candle : Type := {
  candle_timestamp : Q;
  open : Q;
  high : Q;
  low : Q;
  close : Q;
  volume : Q
}.

Record DryRunAPI : Type := {
  balance : Q;
  trades : gmap string Trade;
  candle_streams : gmap string Q;
  (* the world around the object: the number of random draws made and the
     number of times the clock was read *)
  draws : nat;
  clock : nat
}.

(** [DryRunAPI.__init__]. *)
Definition __init__ : DryRunAPI :=
  {| balance := 10000; trades := ∅; candle_streams := ∅;
     draws := 0; clock := 0 |}.

Definition set_balance (b : Q) (s : DryRunAPI) : DryRunAPI :=
  {| balance := b; trades := trades s; candle_streams := candle_streams s;
     draws := draws s; clock := clock s |}.

Definition set_trades (t : gmap string Trade) (s : DryRunAPI) : DryRunAPI :=
  {| balance := balance s; trades := t; candle_streams := candle_streams s;
     draws := draws s; clock := clock s |}.

Definition set_candle_streams (c : gmap string Q) (s : DryRunAPI)
  : DryRunAPI :=
  {| balance := balance s; trades := trades s; candle_streams := c;
     draws := draws s; clock := clock s |}.

Definition set_draws (n : nat) (s : DryRunAPI) : DryRunAPI :=
  {| balance := balance s; trades := trades s;
     candle_streams := candle_streams s; draws := n; clock := clock s |}.

Definition set_clock (n : nat) (s : DryRunAPI) : DryRunAPI :=
  {| balance := balance s; trades := trades s;
     candle_streams := candle_streams s; draws := draws s; clock := n |}.

(** The module [random]: what the n-th draw gives. *)
Record Random : Type := {
  randint : Z -> Z -> nat -> Z;
  choice : nat -> bool;
  uniform : Q -> Q -> nat -> Q
}.

Section WithEnvironment.

Variable random : Random.
(** [datetime.now().timestamp()] at the n-th reading of the clock. *)
Variable time_at : nat -> Q.

Local Open Scope monad_scope.

Definition draw {A} (f : nat -> A) : M DryRunAPI A :=
  s <- get ;;
  modify (set_draws (S (draws s))) ;;;
  ret (f (draws s)).

Definition random_randint (a b : Z) : M DryRunAPI Z := draw (randint random a b).
Definition random_choice : M DryRunAPI bool := draw (choice random).
Definition random_uniform (a b : Q) : M DryRunAPI Q := draw (uniform random a b).

Definition datetime_now : M DryRunAPI nat :=
  s <- get ;;
  modify (set_clock (S (clock s))) ;;;
  ret (clock s).

(** [DryRunAPI.buy]. *)
Definition buy (asset : string) (amount : Q) (direction : string)
  (duration : Z) : M DryRunAPI Trade :=
  n <- random_randint 10000 99999 ;;
  let trade_id := ("dry_run_" ++ pretty n)%string in
  now <- datetime_now ;;
  let trade :=
    {| id := trade_id; asset := asset; amount := amount;
       direction := direction; duration := duration; timestamp := now;
       status := "opened" |} in
  modify (fun s => set_trades (<[trade_id := trade]> (trades s)) s) ;;;
  ret trade.

(** [DryRunAPI.check_win]. *)
Definition check_win (trade_id : string) : M DryRunAPI (option WinResult) :=
  s <- get ;;
  match trades s !! trade_id with
  | None => ret None
  | Some trade =>
      win <- random_choice ;;
      let profit :=
        if win then (amount trade * (85 # 100))%Q else (- amount trade)%Q in
      modify (fun s => set_balance (balance s + profit)%Q s) ;;;
      close_price <- random_uniform 1 2 ;;
      ret (Some {| win := win; profit := profit;
                   close_price := close_price |})
  end.

(** One turn of the loop of [get_candles]; the result is the candle and
    the next [base_price]. *)
Definition candle_turn (count period i : Z) (base_price : Q)
  : M DryRunAPI Candle :=
  now <- datetime_now ;;
  let timestamp := (time_at now - inject_Z ((count - i) * period))%Q in
  d <- random_uniform (- (1 # 100)) (1 # 100) ;;
  let open_price := (base_price + d)%Q in
  d <- random_uniform (- (5 # 1000)) (5 # 1000) ;;
  let close_price := (open_price + d)%Q in
  d <- random_uniform 0 (3 # 1000) ;;
  let high_price := (Qmax open_price close_price + d)%Q in
  d <- random_uniform 0 (3 # 1000) ;;
  let low_price := (Qmin open_price close_price - d)%Q in
  v <- random_uniform 100 1000 ;;
  ret {| candle_timestamp := timestamp; open := open_price;
         high := high_price; low := low_price; close := close_price;
         volume := v |}.

Fixpoint candle_loop (count period : Z) (indices : list Z) (base_price : Q)
  (candles : list Candle) : M DryRunAPI (list Candle) :=
  match indices with
  | [] => ret candles
  | i :: rest =>
      c <- candle_turn count period i base_price ;;
      candle_loop count period rest (close c) (candles ++ [c])
  end.

(** [range(count)]. *)
Definition range (count : Z) : list Z :=
  map Z.of_nat (seq 0 (Z.to_nat count)).

(** [DryRunAPI.get_candles]. *)
Definition get_candles (asset : string) (period count : Z)
  : M DryRunAPI (list Candle) :=
  candle_loop count period (range count) (11 # 10) [].

(** [DryRunAPI.get_latest_candle]. *)
Definition get_latest_candle (sub_key : string) : M DryRunAPI Candle :=
  s <- get ;;
  (match candle_streams s !! sub_key with
   | None =>
       modify (fun s =>
                 set_candle_streams (<[sub_key := 11 # 10]> (candle_streams s)) s)
   | Some _ => ret tt
   end) ;;;
  s <- get ;;
  match candle_streams s !! sub_key with
  | None => raise (KeyError sub_key)
  | Some base_price =>
      let open_price := base_price in
      d <- random_uniform (- (5 # 1000)) (5 # 1000) ;;
      let close_price := (open_price + d)%Q in
      d <- random_uniform 0 (3 # 1000) ;;
      let high_price := (Qmax open_price close_price + d)%Q in
      d <- random_uniform 0 (3 # 1000) ;;
      let low_price := (Qmin open_price close_price - d)%Q in
      modify (fun s =>
                set_candle_streams
                  (<[sub_key := close_price]> (candle_streams s)) s) ;;;
      now <- datetime_now ;;
      v <- random_uniform 100 1000 ;;
      ret {| candle_timestamp := time_at now; open := open_price;
             high := high_price; low := low_price; close := close_price;
             volume := v |}
  end.

End WithEnvironment.

End DryRunAPI.

(** * Properties *)

(** ** Comparisons *)

Lemma Qleb_le x y : Qleb x y = true <-> (x <= y)%Q.
Proof. apply Qle_bool_iff. Qed.

Lemma Qltb_lt x y : Qltb x y = true <-> (x < y)%Q.
Proof.
  unfold Qltb. rewrite negb_true_iff, <- not_true_iff_false, Qle_bool_iff.
  split; [apply Qnot_le_lt | apply Qlt_not_le].
Qed.

(** ** The back-off policy *)

Module BackoffFacts.
Import Config Backoff.




End BackoffFacts.

(** ** Validation of the configuration *)

Module ConfigFacts.
Import Config Backoff.

(** The configuration [c] with another multiplier and maximal delay. *)
Definition with_backoff (multiplier max_delay : Q) (c : QuotexConfig)
  : QuotexConfig :=
  {| email := email c;
     password := password c;
     ping_interval := ping_interval c;
     ping_timeout := ping_timeout c;
     reconnect_max_retries := reconnect_max_retries c;
     reconnect_base_delay := reconnect_base_delay c;
     reconnect_max_delay := max_delay;
     reconnect_exponential_base := multiplier;
     min_payout := min_payout c;
     preferred_assets := preferred_assets c;
     request_queue_maxsize := request_queue_maxsize c;
     callback_timeout := callback_timeout c;
     dry_run := dry_run c;
     default_stake := default_stake c;
     balance_update_interval := balance_update_interval c;
     log_level := log_level c |}.

(** A multiplier below 1, and a maximal delay below the base delay. *)
Definition shrinking_config : QuotexConfig :=
  with_backoff (1 # 2) 300 (default_config "" "" true).

Definition low_ceiling_config : QuotexConfig :=
  with_backoff 2 (1 # 10) (default_config "" "" true).

(** C4, as stated, fails: [validate] accepts a configuration whose
    multiplier is 1/2 and one whose maximal delay is below the base delay,
    and the delay is then computed without any error. *)
Lemma validate_accepts_bad_backoff :
  (~ backoff_parameters_ok shrinking_config /\
   validate shrinking_config = Ret tt /\
   _calculate_backoff_delay shrinking_config 3 = (1 # 8)%Q) /\
  (~ backoff_parameters_ok low_ceiling_config /\
   validate low_ceiling_config = Ret tt /\
   _calculate_backoff_delay low_ceiling_config 0 = (1 # 10)%Q).
Proof.
  unfold backoff_parameters_ok.
  repeat split; try reflexivity.
  - intros (_ & H & _). revert H. cbn. unfold Qlt. cbn. lia.
  - intros (_ & _ & H). revert H. cbn. unfold Qle. cbn. lia.
Qed.

(** C4, amended.  [validate] raises a [ValueError] for every configuration
    whose base delay is not positive; the multiplier and the maximal delay
    have no part in its result. *)
Theorem validate_checks_base_delay_only (c : QuotexConfig) :
  ((reconnect_base_delay c <= 0)%Q ->
   exists msg, validate c = Raise (ValueError msg)) /\
  (forall multiplier max_delay,
     validate (with_backoff multiplier max_delay c) = validate c).
Proof.
  split.
  - intros H. apply Qleb_le in H. unfold validate.
    destruct (negb (dry_run c) && _); [eauto|].
    destruct (Qleb (ping_interval c) 0); [eauto|].
    rewrite H. eauto.
  - intros. reflexivity.
Qed.

Lemma validate_checks_base_delay_only_witness :
  exists msg,
    validate {| email := "a"; password := "b"; ping_interval := 30;
                ping_timeout := 10; reconnect_max_retries := 10;
                reconnect_base_delay := 0; reconnect_max_delay := 300;
                reconnect_exponential_base := 2; min_payout := 80;
                preferred_assets := []; request_queue_maxsize := 100;
                callback_timeout := 30; dry_run := false; default_stake := 1;
                balance_update_interval := 5; log_level := "INFO" |}
    = Raise (ValueError msg).
Proof.
  apply validate_checks_base_delay_only. unfold Qle. simpl. lia.
Defined.

End ConfigFacts.

(** ** The supervisor of the connection *)

Module ClientFacts.
Import Config Client.

Lemma count_events_app p t l :
  count_events p (t ++ l) = (count_events p t + count_events p l)%nat.
Proof. unfold count_events. now rewrite List.filter_app, List.length_app. Qed.

Ltac step_monad :=
  cbv [bind ret raise get gets modify try_except try_catch finally lift
       with_connection_lock emit log sleep assign_state api_call].

(** Normal form of a trace grown by single events. *)
Ltac flatten_trace :=
  repeat rewrite <- app_assoc; cbn [app].

Ltac close_case :=
  repeat match goal with
    | |- _ /\ _ => split
    | |- _ -> _ => intro
    | |- Forall _ _ => repeat constructor
    | |- In _ _ => cbn; auto 10
    | |- _ \/ _ => (left; split; reflexivity) || (right; split; reflexivity)
    | |- _ => reflexivity || discriminate || assumption
    end.

(** A call of the remote API made while the connection lock was held. *)
Definition under_lock (e : Event) : Prop :=
  match e with
  | EvApi _ locked => locked = true
  | _ => True
  end.

(** What the remote side answers to the next attempt to connect: the API
    object can be built and its [connect] returns a true [check]. *)
Definition session_accepts (session : Session) (t : list Event) : bool :=
  match construct_outcome session (count_events (is_api ApiConstruct) t) with
  | Constructed =>
      match connect_outcome session (count_events (is_api ApiConnect) t) with
      | ConnectReturns check _ => check
      | ConnectRaises _ => false
      end
  | ConstructRaises _ => false
  end.

(** The two ways through [connect]. *)
Lemma connect_outcomes (cfg : QuotexConfig) (session : Session)
  (c : PyQuotexClient) :
  let r := connect cfg session c in
  (_state c = CONNECTED ->
   r = (Ret true,
        set_lock false
          (set_trace (trace c ++ [EvLog INFO "Already connected" []]) c))) /\
  (_state c <> CONNECTED ->
   exists events,
     trace (snd r) = trace c ++ EvSetState CONNECTING :: events /\
     Forall under_lock events /\
     (dry_run cfg = false ->
      In (EvApi ApiConstruct true) events /\
      (construct_outcome session
         (count_events (is_api ApiConstruct) (trace c)) = Constructed ->
       In (EvApi ApiConnect true) events)) /\
     _connection_lock (snd r) = false /\
     fst r = Ret (dry_run cfg || session_accepts session (trace c)) /\
     ((fst r = Ret true /\ _state (snd r) = CONNECTED) \/
      (fst r = Ret false /\ _state (snd r) = DISCONNECTED))).
Proof.
  cbv zeta. split; intros Hst.
  - unfold connect. step_monad. cbn.
    rewrite bool_decide_true by assumption. reflexivity.
  - unfold connect, session_accepts. step_monad. cbn.
    rewrite bool_decide_false by assumption. cbn.
    destruct (dry_run cfg); cbn.
    + flatten_trace. eexists. split; [reflexivity|]. close_case.
    + rewrite !count_events_app. cbn. rewrite !Nat.add_0_r.
      destruct (construct_outcome session _); cbn.
      * rewrite !count_events_app. cbn. rewrite !Nat.add_0_r.
        destruct (connect_outcome session _) as [[|] reason|msg]; cbn;
          flatten_trace; (eexists; split; [reflexivity|]); close_case.
      * flatten_trace. eexists. split; [reflexivity|]. close_case.
Qed.

(** C7.  [connect] on a connected client returns [True] at once: nothing but
    the log line is added to the trace, so the session is not touched.
    Otherwise the state is first set to [CONNECTING], every call of the
    session is made with the lock held and in non-dry-run mode the session is
    asked to connect as soon as its object is built; the call never raises, it
    ends in [CONNECTED] with [True] or in [DISCONNECTED] with [False], the
    latter also when the session raises, and the lock is free afterwards. *)
Theorem connect_contract (cfg : QuotexConfig) (session : Session)
  (c : PyQuotexClient) :
  let r := connect cfg session c in
  (_state c = CONNECTED ->
   r = (Ret true,
        set_lock false
          (set_trace (trace c ++ [EvLog INFO "Already connected" []]) c))) /\
  (_state c <> CONNECTED ->
   exists events,
     trace (snd r) = trace c ++ EvSetState CONNECTING :: events /\
     Forall under_lock events /\
     (dry_run cfg = false ->
      In (EvApi ApiConstruct true) events /\
      (construct_outcome session
         (count_events (is_api ApiConstruct) (trace c)) = Constructed ->
       In (EvApi ApiConnect true) events)) /\
     _connection_lock (snd r) = false /\
     fst r = Ret (dry_run cfg || session_accepts session (trace c)) /\
     ((fst r = Ret true /\ _state (snd r) = CONNECTED) \/
      (fst r = Ret false /\ _state (snd r) = DISCONNECTED))).
Proof. exact (connect_outcomes cfg session c). Qed.

Lemma connect_contract_witness :
  let cfg := default_config "" "" true in
  let session :=
    {| construct_outcome := fun _ => Constructed;
       connect_outcome := fun _ => ConnectReturns true "";
       close_outcome := fun _ => Done;
       get_balance_outcome := fun _ => BalanceReturns (Some 1%Q);
       stop_candles_stream_outcome := fun _ => Done |} in
  let connected := set_state_field CONNECTED __init__ in
  connect cfg session connected =
    (Ret true,
     set_lock false
       (set_trace (trace connected ++ [EvLog INFO "Already connected" []])
          connected)) /\
  exists events,
    trace (snd (connect cfg session __init__)) =
      trace __init__ ++ EvSetState CONNECTING :: events /\
    Forall under_lock events /\
    (dry_run cfg = false ->
     In (EvApi ApiConstruct true) events /\
     (construct_outcome session
        (count_events (is_api ApiConstruct) (trace __init__)) = Constructed ->
      In (EvApi ApiConnect true) events)) /\
    _connection_lock (snd (connect cfg session __init__)) = false /\
    fst (connect cfg session __init__) =
      Ret (dry_run cfg || session_accepts session (trace __init__)) /\
    ((fst (connect cfg session __init__) = Ret true /\
      _state (snd (connect cfg session __init__)) = CONNECTED) \/
     (fst (connect cfg session __init__) = Ret false /\
      _state (snd (connect cfg session __init__)) = DISCONNECTED)).
Proof.
  intros cfg session connected. split.
  - apply (proj1 (connect_contract cfg session connected)). reflexivity.
  - apply (proj2 (connect_contract cfg session __init__)). discriminate.
Defined.

(** *** Invariants of the client, rule by rule *)

(** [m] keeps the invariant [I] of the state, however it ends. *)
Definition preserves {S A} (I : S -> Prop) (m : M S A) : Prop :=
  forall s, I s -> I (snd (m s)).

Section PreservationRules.
Context {S : Type} (I : S -> Prop).

Lemma preserves_ret {A} (a : A) : preserves I (ret a).
Proof. intros s H. exact H. Qed.

Lemma preserves_raise {A} (e : exn) : preserves I (@raise S A e).
Proof. intros s H. exact H. Qed.

Lemma preserves_get : preserves I get.
Proof. intros s H. exact H. Qed.

Lemma preserves_gets {A} (f : S -> A) : preserves I (gets f).
Proof. intros s H. exact H. Qed.

Lemma preserves_modify (f : S -> S) :
  (forall s, I s -> I (f s)) -> preserves I (modify f).
Proof. intros Hf s H. apply Hf, H. Qed.

Lemma preserves_bind {A B} (m : M S A) (k : A -> M S B) :
  preserves I m -> (forall a, preserves I (k a)) -> preserves I (bind m k).
Proof.
  intros Hm Hk s H. unfold bind. specialize (Hm s H).
  destruct (m s) as [[a|e] s']; cbn in *; [apply Hk|]; assumption.
Qed.

Lemma preserves_try_catch {A} (body : M S A) handler :
  preserves I body ->
  (forall e h, handler e = Some h -> preserves I h) ->
  preserves I (try_catch body handler).
Proof.
  intros Hb Hh s H. unfold try_catch. specialize (Hb s H).
  destruct (body s) as [[a|e] s']; cbn in *; [assumption|].
  destruct (handler e) as [h|] eqn:E; [eapply Hh; eauto|assumption].
Qed.

Lemma preserves_try_except {A} (body : M S A) handler :
  preserves I body -> (forall e, preserves I (handler e)) ->
  preserves I (try_except body handler).
Proof.
  intros Hb Hh. apply preserves_try_catch; [assumption|].
  intros e h. destruct (is_Exception e); [|discriminate].
  intros [= <-]. apply Hh.
Qed.

Lemma preserves_finally {A} (body : M S A) (cleanup : S -> S) :
  preserves I body -> (forall s, I s -> I (cleanup s)) ->
  preserves I (finally body cleanup).
Proof.
  intros Hb Hc s H. unfold finally. specialize (Hb s H).
  destruct (body s) as [r s']. cbn in *. apply Hc, Hb.
Qed.

End PreservationRules.

(** The state that the writes entered in a trace leave behind. *)
Definition state_of_trace (t : list Event) : ConnectionState :=
  fold_left (fun st e => match e with EvSetState s => s | _ => st end)
    t DISCONNECTED.

Definition is_write (e : Event) : bool :=
  match e with EvSetState _ => true | _ => false end.

(** The trace accounts for the state, and [RECONNECTING] was never
    written. *)
Definition never_reconnecting (c : PyQuotexClient) : Prop :=
  _state c = state_of_trace (trace c) /\
  Forall (fun e => e <> EvSetState RECONNECTING) (trace c).

Lemma never_reconnecting_emit e :
  is_write e = false -> preserves never_reconnecting (emit e).
Proof.
  intros He c [Hs Ht]. unfold never_reconnecting, emit, modify. cbn. split.
  - unfold state_of_trace in *. rewrite fold_left_app. cbn.
    destruct e; try discriminate; exact Hs.
  - apply Forall_app. split; [exact Ht|].
    constructor; [|constructor]. destruct e; discriminate.
Qed.

Lemma never_reconnecting_assign s :
  s <> RECONNECTING -> preserves never_reconnecting (assign_state s).
Proof.
  intros Hne c [Hs Ht]. unfold never_reconnecting, assign_state.
  step_monad. cbn. split.
  - unfold state_of_trace. rewrite fold_left_app. reflexivity.
  - apply Forall_app. split; [exact Ht|].
    constructor; [|constructor]. congruence.
Qed.

Ltac frame_modify :=
  apply preserves_modify; intros ? [? ?]; split; assumption.

(** One rule of the invariant at the head of the goal. *)
Ltac preservation_step :=
  match goal with
  | |- forall _, _ => intro
  | |- preserves _ (assign_state _) =>
      apply never_reconnecting_assign; discriminate
  | |- preserves _ (emit _) => apply never_reconnecting_emit; reflexivity
  | |- preserves _ (log _ _ _) => apply never_reconnecting_emit; reflexivity
  | |- preserves _ (sleep _) => apply never_reconnecting_emit; reflexivity
  | |- preserves _ (api_call _) =>
      unfold api_call
  | |- preserves _ (with_connection_lock _) =>
      unfold with_connection_lock
  | |- preserves _ (bind _ _) => apply preserves_bind
  | |- preserves _ (ret _) => apply preserves_ret
  | |- preserves _ (raise _) => apply preserves_raise
  | |- preserves _ get => apply preserves_get
  | |- preserves _ (gets _) => apply preserves_gets
  | |- preserves _ (modify _) => frame_modify
  | |- preserves _ (try_except _ _) => apply preserves_try_except
  | |- preserves _ (finally _ _) =>
      apply preserves_finally; [|intros ? [? ?]; split; assumption]
  | |- preserves _ (match ?x with _ => _ end) => destruct x
  end.

Section Unreachable.
Variable cfg : QuotexConfig.
Variable session : Session.

Lemma never_reconnecting_connect :
  preserves never_reconnecting (connect cfg session).
Proof. unfold connect. repeat preservation_step. Qed.

Lemma never_reconnecting_unsubscribe asset period :
  preserves never_reconnecting (unsubscribe_candles cfg session asset period).
Proof. unfold unsubscribe_candles. repeat preservation_step. Qed.

Lemma never_reconnecting_cleanup keys :
  preserves never_reconnecting (cleanup_keys cfg session keys).
Proof.
  induction keys as [|key keys IH]; cbn [cleanup_keys].
  - apply preserves_ret.
  - repeat preservation_step;
      [apply never_reconnecting_unsubscribe | exact IH].
Qed.

Lemma never_reconnecting_disconnect :
  preserves never_reconnecting (disconnect cfg session).
Proof.
  unfold disconnect, _cleanup_subscriptions.
  repeat (preservation_step || apply never_reconnecting_cleanup).
Qed.

Lemma never_reconnecting_ping :
  preserves never_reconnecting (ping cfg session).
Proof. unfold ping. repeat preservation_step. Qed.

Lemma never_reconnecting_run ops c :
  never_reconnecting c -> never_reconnecting (run_ops cfg session ops c).
Proof.
  revert c. induction ops as [|o ops IH]; intros c H; [exact H|].
  cbn. apply IH. destruct o; cbn.
  - apply never_reconnecting_connect, H.
  - apply never_reconnecting_disconnect, H.
  - apply never_reconnecting_ping, H.
Qed.

End Unreachable.

Lemma state_of_trace_written t :
  state_of_trace t = DISCONNECTED \/ In (EvSetState (state_of_trace t)) t.
Proof.
  induction t as [|e t IH] using rev_ind; [left; reflexivity|].
  unfold state_of_trace in *. rewrite fold_left_app. cbn.
  destruct e; try (destruct IH as [IH|IH];
    [left; exact IH | right; apply in_or_app; left; exact IH]).
  right. apply in_or_app. right. left. reflexivity.
Qed.

(** C10.  No run of [connect], [disconnect] and [ping] from a fresh client
    ever writes [RECONNECTING]: the trace of the run holds every write of the
    state, none of them is [RECONNECTING], and the state, which is the last
    value written, is one of the three other values.  (The runs of the
    prefixes of [ops] give the states between two operations.) *)
Theorem reconnecting_is_unreachable (cfg : QuotexConfig) (session : Session)
  (ops : list Op) :
  let c := run_ops cfg session ops __init__ in
  _state c = state_of_trace (trace c) /\
  (forall s, In (EvSetState s) (trace c) -> s <> RECONNECTING) /\
  (_state c = DISCONNECTED \/ _state c = CONNECTING \/ _state c = CONNECTED).
Proof.
  cbv zeta.
  destruct (never_reconnecting_run cfg session ops __init__) as [Hs Ht].
  { split; [reflexivity | constructor]. }
  split; [exact Hs|]. rewrite List.Forall_forall in Ht.
  split.
  - intros s Hin ->. apply (Ht _ Hin). reflexivity.
  - destruct (state_of_trace_written (trace (run_ops cfg session ops __init__)))
      as [H|H]; rewrite <- Hs in H; [left; exact H|].
    specialize (Ht _ H).
    destruct (_state (run_ops cfg session ops __init__)); auto.
    contradiction Ht; reflexivity.
Qed.

(** *** What a reconnection sequence shows of the client *)

Definition is_connecting (e : Event) : bool :=
  match e with EvSetState CONNECTING => true | _ => false end.

(** The sleeps and the attempts to connect (the write of [CONNECTING] and
    the construction of the API object); the rest of a trace is dropped. *)
Definition attempt_view (e : Event) : bool :=
  is_sleep e || is_connecting e || is_api ApiConstruct e.

Definition view (t : list Event) : list Event := List.filter attempt_view t.

Lemma view_app t l : view (t ++ l) = view t ++ view l.
Proof. apply List.filter_app. Qed.

Definition shows (v : list Event) (c : PyQuotexClient) : Prop :=
  view (trace c) = v.

Lemma shows_emit v e :
  attempt_view e = false -> preserves (shows v) (emit e).
Proof.
  intros He c H. unfold shows, emit, modify in *. cbn.
  rewrite view_app, H. cbn. rewrite He. apply app_nil_r.
Qed.

Ltac shows_leaf :=
  match goal with
  | |- preserves _ (emit _) => apply shows_emit; reflexivity
  | |- preserves _ (log _ _ _) => apply shows_emit; reflexivity
  | |- preserves _ (assign_state _) => unfold assign_state
  | |- preserves _ (api_call _) => unfold api_call
  | |- preserves _ (modify _) => apply preserves_modify; intros ? H; exact H
  end.

Ltac structure_step :=
  match goal with
  | |- forall _, _ => intro
  | |- preserves _ (bind _ _) => apply preserves_bind
  | |- preserves _ (ret _) => apply preserves_ret
  | |- preserves _ (raise _) => apply preserves_raise
  | |- preserves _ get => apply preserves_get
  | |- preserves _ (gets _) => apply preserves_gets
  | |- preserves _ (try_except _ _) => apply preserves_try_except
  | |- preserves _ (match ?x with _ => _ end) => destruct x
  end.

Section Disconnect.
Variable cfg : QuotexConfig.
Variable session : Session.

Lemma shows_unsubscribe v asset period :
  preserves (shows v) (unsubscribe_candles cfg session asset period).
Proof. unfold unsubscribe_candles. repeat (shows_leaf || structure_step). Qed.

Lemma shows_cleanup v keys :
  preserves (shows v) (cleanup_keys cfg session keys).
Proof.
  induction keys as [|key keys IH]; cbn [cleanup_keys].
  - apply preserves_ret.
  - repeat (shows_leaf || structure_step);
      [apply shows_unsubscribe | exact IH].
Qed.

Lemma shows_disconnect v :
  preserves (shows v) (disconnect cfg session).
Proof.
  unfold disconnect, _cleanup_subscriptions, with_connection_lock.
  repeat (shows_leaf || structure_step || apply shows_cleanup
          || (apply preserves_finally; [|intros ? H; exact H])).
Qed.

Lemma unsubscribe_returns asset period c :
  exists b, fst (unsubscribe_candles cfg session asset period c) = Ret b.
Proof.
  unfold unsubscribe_candles. step_monad. cbn.
  destruct (dict_get _ _); [|eauto]. cbn.
  destruct (negb (dry_run cfg) && _); cbn; [|eauto].
  destruct (stop_candles_stream_outcome session _); cbn; eauto.
Qed.

Lemma cleanup_raises_exceptions_only keys c e :
  fst (cleanup_keys cfg session keys c) = Raise e -> is_Exception e = true.
Proof.
  revert c. induction keys as [|key keys IH]; intros c; cbn [cleanup_keys].
  - discriminate.
  - unfold bind at 1, gets. cbn.
    destruct (dict_get key (_subscriptions c)) as [sub|]; cbn.
    + unfold bind.
      destruct (unsubscribe_returns (sub_asset sub) (sub_period sub) c)
        as [b Hb].
      destruct (unsubscribe_candles _ _ _ _ c) as [r c']. cbn in Hb.
      subst r. apply IH.
    + intros [= <-]. reflexivity.
Qed.

(** [disconnect] returns, never raises, leaves the client disconnected with
    the lock free, and shows neither a sleep nor an attempt to connect. *)
Lemma disconnect_post c :
  fst (disconnect cfg session c) = Ret tt /\
  _state (snd (disconnect cfg session c)) = DISCONNECTED /\
  _connection_lock (snd (disconnect cfg session c)) = false /\
  view (trace (snd (disconnect cfg session c))) = view (trace c).
Proof.
  split; [|split; [|split]].
  4: { apply (shows_disconnect (view (trace c)) c). reflexivity. }
  all: unfold disconnect, _cleanup_subscriptions; step_monad; cbn;
    destruct (bool_decide (_state c = DISCONNECTED)) eqn:Hd; cbn;
    [ try reflexivity; apply bool_decide_eq_true in Hd; exact Hd |];
    match goal with
    | |- context [cleanup_keys cfg session ?k ?s] =>
        pose proof (cleanup_raises_exceptions_only k s) as Hex;
        destruct (cleanup_keys cfg session k s) as [[[]|e] c1]
    end; cbn in *.
  all: try (rewrite (Hex e eq_refl); cbn; reflexivity).
  all: destruct (bool_decide (_api c1 <> None) && negb (dry_run cfg)); cbn;
    try reflexivity;
    destruct (close_outcome session _); cbn; reflexivity.
Qed.

(** An attempt to connect that the session turns down: the state goes to
    [CONNECTING] and back to [DISCONNECTED], and [False] is returned. *)
Lemma connect_refused c :
  _state c <> CONNECTED ->
  dry_run cfg = false ->
  session_accepts session (trace c) = false ->
  fst (connect cfg session c) = Ret false /\
  _state (snd (connect cfg session c)) = DISCONNECTED /\
  view (trace (snd (connect cfg session c))) =
    view (trace c) ++ [EvSetState CONNECTING; EvApi ApiConstruct true].
Proof.
  intros Hst Hdry Hno. unfold session_accepts in Hno.
  unfold connect. step_monad. cbn.
  rewrite bool_decide_false by assumption. cbn. rewrite Hdry. cbn.
  rewrite !count_events_app. cbn. rewrite !Nat.add_0_r.
  destruct (construct_outcome session _); cbn.
  - rewrite !count_events_app. cbn. rewrite !Nat.add_0_r.
    destruct (connect_outcome session _) as [check reason|msg]; cbn.
    + subst check. cbn. flatten_trace. rewrite view_app. auto.
    + flatten_trace. rewrite view_app. auto.
  - flatten_trace. rewrite view_app. auto.
Qed.

(** An attempt that succeeds. *)
Lemma connect_accepted c :
  _state c <> CONNECTED ->
  dry_run cfg || session_accepts session (trace c) = true ->
  fst (connect cfg session c) = Ret true /\
  _state (snd (connect cfg session c)) = CONNECTED.
Proof.
  intros Hst Hyes.
  destruct (proj2 (connect_outcomes cfg session c) Hst)
    as (events & _ & _ & _ & _ & Hr & Hcases).
  rewrite Hyes in Hr. split; [exact Hr|].
  destruct Hcases as [[_ H]|[H _]]; [exact H|congruence].
Qed.

End Disconnect.

End ClientFacts.

(** ** The watchdog *)

Module WatchdogFacts.
Import Config Watchdog.
Import ClientFacts.

Lemma on_client_eq {A} (m : M Client.PyQuotexClient A) w :
  on_client m w = (fst (m (client w)), set_client (snd (m (client w))) w).
Proof. unfold on_client, lift. destruct (m (client w)). reflexivity. Qed.

Lemma bind_eq {S A B} (m : M S A) (k : A -> M S B) s a s' :
  m s = (Ret a, s') -> bind m k s = k a s'.
Proof. intros H. unfold bind. rewrite H. reflexivity. Qed.

Lemma bind_raise {S A B} (m : M S A) (k : A -> M S B) s e s' :
  m s = (Raise e, s') -> bind m k s = (Raise e, s').
Proof. intros H. unfold bind. rewrite H. reflexivity. Qed.

Lemma emit_eq e c :
  Client.emit e c = (Ret tt, Client.set_trace (Client.trace c ++ [e]) c).
Proof. reflexivity. Qed.

Lemma trace_emit e c :
  Client.trace (snd (Client.emit e c)) = Client.trace c ++ [e].
Proof. reflexivity. Qed.

Lemma state_emit e c :
  Client._state (snd (Client.emit e c)) = Client._state c.
Proof. reflexivity. Qed.

#[local] Arguments Client.connect : simpl never.
#[local] Arguments Client.disconnect : simpl never.
#[local] Arguments Client.ping : simpl never.
#[local] Arguments Client.emit : simpl never.

Section Exhaustion.
Variable cfg : QuotexConfig.
Variable session : Session.
Variable on_reconnect : option (nat -> UnitOutcome).
Variable stop_during_sleep : nat -> bool.

Hypothesis not_dry_run : dry_run cfg = false.
Hypothesis connect_always_fails :
  forall n reason, connect_outcome session n <> ConnectReturns true reason.
Hypothesis never_stopped : forall n, stop_during_sleep n = false.

Lemma session_never_accepts t : session_accepts session t = false.
Proof.
  unfold session_accepts. destruct (construct_outcome session _); [|reflexivity].
  destruct (connect_outcome session _) as [[|] reason|msg] eqn:E;
    [|reflexivity|reflexivity].
  exfalso. eapply connect_always_fails, E.
Qed.

(** The client after one failed attempt number [retry_count]. *)
Definition after_failed_attempt (retry_count : Z) (c : Client.PyQuotexClient)
  : Client.PyQuotexClient :=
  let c1 := snd (Client.log INFO "Reconnection attempt {}/{} in {}s"
                   [ArgZ (retry_count + 1); ArgZ (reconnect_max_retries cfg);
                    ArgQ (_calculate_backoff_delay cfg retry_count)] c) in
  let c2 := snd (Client.sleep (_calculate_backoff_delay cfg retry_count) c1) in
  let c3 := snd (Client.disconnect cfg session c2) in
  let c4 := snd (Client.sleep 1 c3) in
  let c5 := snd (Client.connect cfg session c4) in
  snd (Client.log ERROR "Reconnection attempt {} failed"
         [ArgZ (retry_count + 1)] c5).

Lemma after_failed_attempt_view retry_count c :
  view (Client.trace (after_failed_attempt retry_count c)) =
  view (Client.trace c) ++
    [EvSleep (_calculate_backoff_delay cfg retry_count); EvSleep 1;
     EvSetState CONNECTING; EvApi ApiConstruct true].
Proof.
  unfold after_failed_attempt, Client.log, Client.sleep. cbv zeta.
  rewrite trace_emit, view_app.
  match goal with
  | |- context [Client.connect cfg session ?c4] =>
      destruct (connect_refused cfg session c4) as (_ & _ & ->);
        [ rewrite state_emit, (proj1 (proj2 (disconnect_post cfg session _)));
          discriminate
        | exact not_dry_run
        | apply session_never_accepts
        | ]
  end.
  rewrite !trace_emit, !view_app.
  rewrite (proj2 (proj2 (proj2 (disconnect_post cfg session _)))).
  rewrite !trace_emit, !view_app. cbn.
  rewrite <- !app_assoc. rewrite app_nil_r. reflexivity.
Qed.

Lemma log_eq level text args w :
  log level text args w =
  (Ret tt, set_client (snd (Client.emit (EvLog level text args) (client w))) w).
Proof. reflexivity. Qed.

Lemma monitor_sleep_eq seconds w :
  monitor_sleep stop_during_sleep seconds w =
  (Ret tt, set_client (snd (Client.emit (EvSleep seconds) (client w))) w).
Proof.
  unfold monitor_sleep, bind, get. cbn.
  rewrite never_stopped. reflexivity.
Qed.

Lemma disconnect_eq w :
  on_client (Client.disconnect cfg session) w =
  (Ret tt, set_client (snd (Client.disconnect cfg session (client w))) w).
Proof.
  rewrite on_client_eq.
  rewrite (proj1 (disconnect_post cfg session (client w))). reflexivity.
Qed.

Lemma connect_eq w :
  Client._state (client w) <> CONNECTED ->
  on_client (Client.connect cfg session) w =
  (Ret false, set_client (snd (Client.connect cfg session (client w))) w).
Proof.
  intros H. rewrite on_client_eq.
  rewrite (proj1 (connect_refused cfg session (client w) H not_dry_run
                    (session_never_accepts _))).
  reflexivity.
Qed.

Lemma reconnect_loop_failed_attempt fuel retry_count w :
  _running w = true ->
  retry_count < reconnect_max_retries cfg ->
  reconnect_loop cfg session on_reconnect stop_during_sleep
    (S fuel) retry_count w =
  reconnect_loop cfg session on_reconnect stop_during_sleep
    fuel (retry_count + 1)
    (set_client (after_failed_attempt retry_count (client w)) w).
Proof.
  intros Hrun Hlt. cbn [reconnect_loop].
  unfold bind at 1, gets. cbn [fst snd]. rewrite Hrun.
  apply Z.ltb_lt in Hlt. rewrite Hlt. cbn [andb].
  rewrite (bind_eq _ _ _ _ _ (log_eq _ _ _ _)).
  rewrite (bind_eq _ _ _ _ _ (monitor_sleep_eq _ _)).
  unfold bind at 1, gets. cbn [_running set_client negb]. rewrite Hrun.
  cbn [negb client].
  unfold bind at 1, try_except, try_catch.
  rewrite (bind_eq _ _ _ _ _ (disconnect_eq _)).
  rewrite (bind_eq _ _ _ _ _ (monitor_sleep_eq _ _)).
  cbn [client set_client].
  erewrite bind_eq; cycle 1.
  { apply connect_eq. cbn [client set_client].
    rewrite state_emit, (proj1 (proj2 (disconnect_post cfg session _))).
    discriminate. }
  cbv beta iota.
  rewrite (bind_eq _ _ _ _ _ (log_eq _ _ _ _)).
  cbn [ret client set_client].
  reflexivity.
Qed.

(** As long as attempts are left the loop goes on, and it leaves through its
    condition with the retry count at the maximum. *)
Fixpoint after_failed_attempts (n : nat) (retry_count : Z)
  (c : Client.PyQuotexClient) : Client.PyQuotexClient :=
  match n with
  | O => c
  | S n' =>
      after_failed_attempts n' (retry_count + 1)
        (after_failed_attempt retry_count c)
  end.

Lemma reconnect_loop_exhausted n retry_count w :
  _running w = true ->
  reconnect_max_retries cfg = retry_count + Z.of_nat n ->
  reconnect_loop cfg session on_reconnect stop_during_sleep n retry_count w =
  (Ret (Exited (reconnect_max_retries cfg)),
   set_client (after_failed_attempts n retry_count (client w)) w).
Proof.
  revert retry_count w. induction n as [|n IH]; intros retry_count w Hrun Hmax.
  - cbn [reconnect_loop]. unfold bind, gets. cbn [fst snd].
    rewrite Hrun. replace (retry_count <? _) with false
      by (symmetry; apply Z.ltb_ge; lia).
    cbn. replace (reconnect_max_retries cfg) with retry_count by lia.
    destruct w; reflexivity.
  - rewrite reconnect_loop_failed_attempt by (assumption || lia).
    rewrite IH by (exact Hrun || lia). reflexivity.
Qed.

(** What [n] failed attempts from [retry_count] on show. *)
Fixpoint failed_attempts_view (n : nat) (retry_count : Z) : list Event :=
  match n with
  | O => []
  | S n' =>
      [EvSleep (_calculate_backoff_delay cfg retry_count); EvSleep 1;
       EvSetState CONNECTING; EvApi ApiConstruct true] ++
      failed_attempts_view n' (retry_count + 1)
  end.

Lemma after_failed_attempts_view n retry_count c :
  view (Client.trace (after_failed_attempts n retry_count c)) =
  view (Client.trace c) ++ failed_attempts_view n retry_count.
Proof.
  revert retry_count c. induction n as [|n IH]; intros retry_count c.
  - cbn. now rewrite app_nil_r.
  - cbn [after_failed_attempts failed_attempts_view].
    rewrite IH, after_failed_attempt_view.
    now rewrite <- app_assoc.
Qed.

Lemma after_failed_attempt_state retry_count c :
  Client._state (after_failed_attempt retry_count c) = DISCONNECTED.
Proof.
  unfold after_failed_attempt, Client.log, Client.sleep. cbv zeta.
  rewrite state_emit.
  apply connect_refused;
    [ rewrite state_emit, (proj1 (proj2 (disconnect_post cfg session _)));
      discriminate
    | exact not_dry_run
    | apply session_never_accepts ].
Qed.

Lemma after_failed_attempts_state n retry_count c :
  Client._state (after_failed_attempts (S n) retry_count c) = DISCONNECTED.
Proof.
  revert retry_count c. induction n as [|n IH]; intros retry_count c.
  - apply after_failed_attempt_state.
  - change (after_failed_attempts (S (S n)) retry_count c)
      with (after_failed_attempts (S n) (retry_count + 1)
              (after_failed_attempt retry_count c)).
    apply IH.
Qed.

(** The whole of [_handle_disconnect] when every attempt fails. *)
Definition after_exhaustion (c : Client.PyQuotexClient)
  : Client.PyQuotexClient :=
  snd (Client.log ERROR "Failed to reconnect after {} attempts"
         [ArgZ (reconnect_max_retries cfg)]
         (after_failed_attempts (Z.to_nat (reconnect_max_retries cfg)) 0
            (snd (Client.log WARNING
                    "Disconnect detected, initiating reconnection..." []
                    c)))).

Lemma handle_disconnect_exhausted w :
  _running w = true ->
  0 <= reconnect_max_retries cfg ->
  _handle_disconnect cfg session on_reconnect stop_during_sleep w =
  (Ret tt, set_client (after_exhaustion (client w)) w).
Proof.
  intros Hrun Hmax. unfold _handle_disconnect.
  rewrite (bind_eq _ _ _ _ _ (log_eq _ _ _ _)).
  erewrite bind_eq; cycle 1.
  { apply reconnect_loop_exhausted; [exact Hrun | lia]. }
  cbv beta iota. rewrite Z.leb_refl. rewrite log_eq.
  reflexivity.
Qed.

End Exhaustion.

Lemma count_in_view p t :
  (forall e, p e = true -> attempt_view e = true) ->
  count_events p t = count_events p (view t).
Proof.
  intros Hp. unfold count_events, view. f_equal.
  induction t as [|e t IH]; [reflexivity|]. cbn.
  destruct (p e) eqn:E.
  - rewrite (Hp e E). cbn. rewrite E. f_equal. exact IH.
  - destruct (attempt_view e); cbn; [rewrite E|]; exact IH.
Qed.

(** C6.  With three retries allowed, a session that never accepts and no
    [stop()] meanwhile, [_handle_disconnect] returns normally with the
    watchdog still running: it has slept [delay 0], [delay 1] and [delay 2],
    each time followed by the settle delay of one second and one attempt to
    connect, three attempts in all; its last act is the log line of the
    exhaustion; [_total_reconnects] and [_consecutive_failures] are as
    before, and the client is disconnected. *)
Theorem three_failed_attempts_then_exhaustion
  (cfg : QuotexConfig) (session : Session)
  (on_reconnect : option (nat -> UnitOutcome))
  (stop_during_sleep : nat -> bool) (w : ConnectionWatchdog) :
  reconnect_max_retries cfg = 3 ->
  dry_run cfg = false ->
  (forall n reason, connect_outcome session n <> ConnectReturns true reason) ->
  (forall n, stop_during_sleep n = false) ->
  _running w = true ->
  let delay := _calculate_backoff_delay cfg in
  let r := _handle_disconnect cfg session on_reconnect stop_during_sleep w in
  fst r = Ret tt /\
  _running (snd r) = true /\
  _total_reconnects (snd r) = _total_reconnects w /\
  _consecutive_failures (snd r) = _consecutive_failures w /\
  view (Client.trace (client (snd r))) =
    view (Client.trace (client w)) ++
      [EvSleep (delay 0); EvSleep 1; EvSetState CONNECTING;
       EvApi ApiConstruct true;
       EvSleep (delay 1); EvSleep 1; EvSetState CONNECTING;
       EvApi ApiConstruct true;
       EvSleep (delay 2); EvSleep 1; EvSetState CONNECTING;
       EvApi ApiConstruct true] /\
  count_events is_connecting (Client.trace (client (snd r))) =
    (count_events is_connecting (Client.trace (client w)) + 3)%nat /\
  last (Client.trace (client (snd r))) =
    Some (EvLog ERROR "Failed to reconnect after {} attempts" [ArgZ 3]) /\
  Client._state (client (snd r)) = DISCONNECTED.
Proof.
  intros Hmax Hdry Hfail Hstop Hrun delay r. subst r.
  rewrite (handle_disconnect_exhausted cfg session on_reconnect
             stop_during_sleep Hdry Hfail Hstop w Hrun) by lia.
  cbn [fst snd client set_client _running _total_reconnects
       _consecutive_failures].
  assert (Hview :
    view (Client.trace (after_exhaustion cfg session (client w))) =
    view (Client.trace (client w)) ++
      [EvSleep (delay 0); EvSleep 1; EvSetState CONNECTING;
       EvApi ApiConstruct true;
       EvSleep (delay 1); EvSleep 1; EvSetState CONNECTING;
       EvApi ApiConstruct true;
       EvSleep (delay 2); EvSleep 1; EvSetState CONNECTING;
       EvApi ApiConstruct true]).
  { unfold after_exhaustion, Client.log. rewrite Hmax.
    rewrite trace_emit, view_app.
    rewrite (after_failed_attempts_view cfg session Hdry Hfail).
    rewrite trace_emit, view_app. cbn. rewrite !app_nil_r. reflexivity. }
  repeat split; try assumption.
  - rewrite (count_in_view is_connecting (Client.trace (after_exhaustion _ _ _))),
      (count_in_view is_connecting (Client.trace (client w))), Hview,
      count_events_app;
      try (intros [] E; try discriminate E; destruct s; try discriminate E;
           reflexivity).
    reflexivity.
  - unfold after_exhaustion, Client.log. rewrite trace_emit, Hmax.
    apply last_snoc.
  - unfold after_exhaustion, Client.log. rewrite state_emit, Hmax.
    apply (after_failed_attempts_state cfg session Hdry Hfail 2).
Qed.


(** *** The two counters *)

Section Counters.
Variable cfg : QuotexConfig.
Variable session : Session.
Variable on_reconnect : option (nat -> UnitOutcome).
Variable stop_during_sleep : nat -> bool.

(** [m] may end in any way, with any state satisfying [Q] of its result. *)
Definition hoare {S A} (P : S -> Prop) (m : M S A)
  (Q : result A -> S -> Prop) : Prop :=
  forall s, P s -> Q (fst (m s)) (snd (m s)).

Lemma hoare_bind {S A B} (P : S -> Prop) (m : M S A) (k : A -> M S B) R Q :
  hoare P m R ->
  (forall a, hoare (R (Ret a)) (k a) Q) ->
  (forall e s, R (Raise e) s -> Q (Raise e) s) ->
  hoare P (bind m k) Q.
Proof.
  intros Hm Hk He s Hs. specialize (Hm s Hs). unfold bind.
  destruct (m s) as [[a|e] s']; cbn in *; [apply Hk | apply He]; exact Hm.
Qed.

Lemma hoare_silent {S A} (I : S -> Prop) (m : M S A) :
  preserves I m -> hoare I m (fun _ => I).
Proof. intros H s Hs. apply H, Hs. Qed.

(** The usual case: the head of a sequence keeps [I], whatever it returns. *)
Lemma hoare_seq {S A B} (I : S -> Prop) (m : M S A) (k : A -> M S B) Q :
  preserves I m ->
  (forall a, hoare I (k a) Q) ->
  (forall e s, I s -> Q (Raise e) s) ->
  hoare I (bind m k) Q.
Proof.
  intros Hm Hk He. eapply hoare_bind; [apply hoare_silent, Hm | exact Hk |].
  exact He.
Qed.

Lemma hoare_ret {S A} (P : S -> Prop) (a : A) (Q : result A -> S -> Prop) :
  (forall s, P s -> Q (Ret a) s) -> hoare P (ret a) Q.
Proof. intros H s Hs. apply H, Hs. Qed.

Lemma hoare_try_except {S A} (P : S -> Prop) (body : M S A) handler R Q :
  hoare P body R ->
  (forall a s, R (Ret a) s -> Q (Ret a) s) ->
  (forall e, hoare (R (Raise e)) (handler e) Q) ->
  (forall e s, R (Raise e) s -> Q (Raise e) s) ->
  hoare P (try_except body handler) Q.
Proof.
  intros Hb Hr Hh He s Hs. specialize (Hb s Hs).
  unfold try_except, try_catch.
  destruct (body s) as [[a|e] s']; cbn in *; [apply Hr, Hb|].
  destruct (is_Exception e); [apply Hh, Hb | apply He, Hb].
Qed.

Lemma hoare_modify_then {S B} (P P' : S -> Prop) (f : S -> S)
  (k : unit -> M S B) Q :
  (forall s, P s -> P' (f s)) ->
  hoare P' (k tt) Q ->
  hoare P (bind (modify f) k) Q.
Proof. intros Hf Hk s Hs. apply (Hk (f s)), Hf, Hs. Qed.

Lemma hoare_returns_then {S A B} (I : S -> Prop) (m : M S A)
  (k : A -> M S B) Q :
  (forall s, exists a, fst (m s) = Ret a) ->
  preserves I m ->
  (forall a, hoare I (k a) Q) ->
  hoare I (bind m k) Q.
Proof.
  intros Hr Hm Hk s Hs. unfold bind.
  destruct (Hr s) as [a Ha]. specialize (Hm s Hs).
  destruct (m s) as [r s']. cbn in *. subst r. apply Hk, Hm.
Qed.

(** The state has [t] reconnects and [f] consecutive failures. *)
Definition counters_are (t f : Z) (w : ConnectionWatchdog) : Prop :=
  _total_reconnects w = t /\ _consecutive_failures w = f.

Lemma silent_on_client {A} t f (m : M Client.PyQuotexClient A) :
  preserves (counters_are t f) (on_client m).
Proof. intros w H. rewrite on_client_eq. exact H. Qed.

Lemma silent_monitor_sleep t f seconds :
  preserves (counters_are t f) (monitor_sleep stop_during_sleep seconds).
Proof.
  unfold monitor_sleep.
  apply preserves_bind; [apply preserves_get|]. intros w.
  apply preserves_bind; [apply silent_on_client|]. intros _.
  destruct (stop_during_sleep _); [|apply preserves_ret].
  apply preserves_bind; [|intros; apply preserves_raise].
  apply preserves_modify. intros s H. exact H.
Qed.

Lemma silent_call_on_reconnect t f :
  preserves (counters_are t f) (call_on_reconnect on_reconnect).
Proof.
  unfold call_on_reconnect. destruct on_reconnect as [hook|];
    [|apply preserves_ret].
  apply preserves_try_except; [|intros; apply silent_on_client].
  apply preserves_bind; [apply preserves_get|]. intros w.
  apply preserves_bind; [apply silent_on_client|]. intros _.
  destruct (hook _); [apply preserves_ret | apply preserves_raise].
Qed.

Lemma call_on_reconnect_returns w :
  fst (call_on_reconnect on_reconnect w) = Ret tt.
Proof.
  unfold call_on_reconnect. destruct on_reconnect as [hook|]; [|reflexivity].
  unfold try_except, try_catch, bind at 1, get. cbn [fst snd].
  unfold bind. change (on_client (Client.emit EvHook) w)
    with (Ret tt, set_client (snd (Client.emit EvHook (client w))) w).
  cbv beta iota.
  destruct (hook _); reflexivity.
Qed.

(** How the loop of [_handle_disconnect] leaves the counters: reset by the
    [return] after a successful attempt, untouched on every other way
    out. *)
Definition after_loop (t f : Z) (r : result LoopExit)
  (w : ConnectionWatchdog) : Prop :=
  match r with
  | Ret Returned => counters_are (t + 1) 0 w
  | _ => counters_are t f w
  end.

Lemma reconnect_loop_counters t f fuel retry_count :
  hoare (counters_are t f)
    (reconnect_loop cfg session on_reconnect stop_during_sleep
       fuel retry_count)
    (after_loop t f).
Proof.
  revert retry_count. induction fuel as [|fuel IH]; intros retry_count;
    cbn [reconnect_loop].
  - apply hoare_seq; [apply preserves_gets| |intros e s H; exact H].
    intros running. destruct (running && _); apply hoare_ret; auto.
  - apply hoare_seq; [apply preserves_gets| |intros e s H; exact H].
    intros running. destruct (running && _); [|apply hoare_ret; auto].
    apply hoare_seq; [apply silent_on_client| |intros e s H; exact H].
    intros _.
    apply hoare_seq; [apply silent_monitor_sleep| |intros e s H; exact H].
    intros _.
    apply hoare_seq; [apply preserves_gets| |intros e s H; exact H].
    intros running'. destruct (negb running'); [apply hoare_ret; auto|].
    eapply hoare_bind with
      (R := fun r w => match r with
                       | Ret None => counters_are (t + 1) 0 w
                       | _ => counters_are t f w
                       end).
    + eapply hoare_try_except with
        (R := fun r w => match r with
                         | Ret None => counters_are (t + 1) 0 w
                         | _ => counters_are t f w
                         end).
      * apply hoare_seq; [apply silent_on_client| |intros e s H; exact H].
        intros _.
        apply hoare_seq; [apply silent_monitor_sleep| |intros e s H; exact H].
        intros _.
        apply hoare_seq; [apply silent_on_client| |intros e s H; exact H].
        intros [|].
        -- apply hoare_seq; [apply silent_on_client| |intros e s H; exact H].
           intros _.
           apply hoare_modify_then with (P' := counters_are (t + 1) f).
           { intros s [Ht Hf]. split; cbn; congruence. }
           apply hoare_modify_then with (P' := counters_are (t + 1) 0).
           { intros s [Ht Hf]. split; cbn; congruence. }
           apply hoare_returns_then;
             [ intros s; exists tt; apply call_on_reconnect_returns
             | apply silent_call_on_reconnect |].
           intros _. apply hoare_ret. auto.
        -- apply hoare_seq; [apply silent_on_client| |intros e s H; exact H].
           intros _. apply hoare_ret. auto.
      * intros a s H. exact H.
      * intros e.
        apply hoare_seq; [apply silent_on_client| |intros e' s H; exact H].
        intros _. apply hoare_ret. auto.
      * intros e s H. exact H.
    + intros [retry_count'|]; [apply IH | apply hoare_ret; auto].
    + intros e s H. exact H.
Qed.

Lemma handle_disconnect_counters t f :
  hoare (counters_are t f)
    (_handle_disconnect cfg session on_reconnect stop_during_sleep)
    (fun _ w => counters_are (t + 1) 0 w \/ counters_are t f w).
Proof.
  unfold _handle_disconnect.
  apply hoare_seq; [apply silent_on_client| |intros e s H; right; exact H].
  intros _.
  eapply hoare_bind; [apply reconnect_loop_counters| |].
  - intros [|retry_count|]; cbn [after_loop].
    + apply hoare_ret. auto.
    + destruct (_ <=? _); [|apply hoare_ret; auto].
      intros s H. right. apply (silent_on_client t f _ s H).
    + apply hoare_ret. auto.
  - intros e s H. right. exact H.
Qed.

(** The fuel that [_handle_disconnect] gives to its loop is enough: the loop
    leaves by its [return], by its condition or by an exception, never for
    want of fuel. *)
Lemma preserves_anything {S A} (m : M S A) : preserves (fun _ => True) m.
Proof. intros s _. exact I. Qed.

Lemma reconnect_loop_fuel_suffices fuel retry_count :
  (Z.to_nat (reconnect_max_retries cfg - retry_count) <= fuel)%nat ->
  hoare (fun _ => True)
    (reconnect_loop cfg session on_reconnect stop_during_sleep
       fuel retry_count)
    (fun r _ => r <> Ret OutOfFuel).
Proof.
  revert retry_count. induction fuel as [|fuel IH]; intros retry_count Hfuel;
    cbn [reconnect_loop].
  - apply hoare_seq; [apply preserves_anything| |intros; discriminate].
    intros running. destruct (running && _) eqn:E;
      [|apply hoare_ret; intros; discriminate].
    apply andb_true_iff in E. destruct E as [_ E]. apply Z.ltb_lt in E. lia.
  - apply hoare_seq; [apply preserves_anything| |intros; discriminate].
    intros running. destruct (running && _) eqn:E;
      [|apply hoare_ret; intros; discriminate].
    apply andb_true_iff in E. destruct E as [_ E]. apply Z.ltb_lt in E.
    apply hoare_seq; [apply preserves_anything| |intros; discriminate].
    intros _.
    apply hoare_seq; [apply preserves_anything| |intros; discriminate].
    intros _.
    apply hoare_seq; [apply preserves_anything| |intros; discriminate].
    intros running'.
    destruct (negb running'); [apply hoare_ret; intros; discriminate|].
    eapply hoare_bind with
      (R := fun r _ => match r with
                       | Ret (Some retry_count') =>
                           retry_count' = retry_count + 1
                       | _ => True
                       end).
    + eapply hoare_try_except with
        (R := fun r _ => match r with
                         | Ret (Some retry_count') =>
                             retry_count' = retry_count + 1
                         | _ => True
                         end).
      * apply hoare_seq; [apply preserves_anything| |intros; exact I].
        intros _.
        apply hoare_seq; [apply preserves_anything| |intros; exact I].
        intros _.
        apply hoare_seq; [apply preserves_anything| |intros; exact I].
        intros [|].
        -- intros s _.
           match goal with
           | |- context [fst (?m s)] =>
               assert (H : fst (m s) = Ret None \/
                           exists e, fst (m s) = Raise e)
           end.
           { unfold bind.
             repeat match goal with
                    | |- context [match ?x with (_, _) => _ end] =>
                        destruct x as [[?|?] ?]; cbn [fst snd]
                    end; eauto. }
           destruct H as [-> | [e ->]]; exact I.
        -- apply hoare_seq; [apply preserves_anything| |intros; exact I].
           intros _. apply hoare_ret. reflexivity.
      * intros a s H. exact H.
      * intros e s _. unfold bind.
        destruct (log _ _ _ s) as [[?|?] ?]; cbn; [reflexivity | exact I].
      * intros e s H. exact H.
    + intros [retry_count'|]; [|apply hoare_ret; intros; discriminate].
      intros s Hs. cbn in Hs. subst retry_count'.
      apply (IH (retry_count + 1)); [lia | exact I].
    + intros; discriminate.
Qed.

Lemma handle_disconnect_has_fuel w :
  fst (reconnect_loop cfg session on_reconnect stop_during_sleep
         (Z.to_nat (reconnect_max_retries cfg)) 0 w) <> Ret OutOfFuel.
Proof.
  apply (reconnect_loop_fuel_suffices (Z.to_nat (reconnect_max_retries cfg)) 0);
    [lia | exact I].
Qed.

Lemma on_client_returns {A} (m : M Client.PyQuotexClient A) :
  (forall c, exists a, fst (m c) = Ret a) ->
  forall w, exists a, fst (on_client m w) = Ret a.
Proof. intros H w. rewrite on_client_eq. apply H. Qed.

Lemma connect_returns c : exists b, fst (Client.connect cfg session c) = Ret b.
Proof.
  destruct (decide (Client._state c = CONNECTED)) as [H|H].
  - rewrite (proj1 (connect_outcomes cfg session c) H). eauto.
  - destruct (proj2 (connect_outcomes cfg session c) H)
      as (_ & _ & _ & _ & _ & Hr & _). eauto.
Qed.

Lemma disconnect_returns c :
  exists u, fst (Client.disconnect cfg session c) = Ret u.
Proof. exists tt. apply disconnect_post. Qed.

(** [force_reconnect] returns [True] with the counters reset, or [False]
    with the counters untouched. *)
Lemma force_reconnect_counters t f :
  hoare (counters_are t f) (force_reconnect cfg session on_reconnect)
    (fun r w => (r = Ret true /\ counters_are (t + 1) 0 w) \/
                (r = Ret false /\ counters_are t f w)).
Proof.
  unfold force_reconnect.
  apply hoare_returns_then;
    [intros w; exists tt; reflexivity | apply silent_on_client |].
  intros _.
  eapply hoare_try_except with
    (R := fun r w => (r = Ret true /\ counters_are (t + 1) 0 w) \/
                     (r = Ret false /\ counters_are t f w)).
  - apply hoare_returns_then;
      [apply on_client_returns, disconnect_returns
      | apply silent_on_client |].
    intros _.
    apply hoare_returns_then;
      [intros w; exists tt; reflexivity | apply silent_on_client |].
    intros _.
    apply hoare_returns_then;
      [apply on_client_returns, connect_returns | apply silent_on_client |].
    intros [|].
    + eapply hoare_bind with
        (R := fun r w => r = Ret tt /\ counters_are (t + 1) 0 w).
      * apply hoare_modify_then with (P' := counters_are (t + 1) f).
        { intros s [Ht Hf]. split; cbn; congruence. }
        apply hoare_modify_then with (P' := counters_are (t + 1) 0).
        { intros s [Ht Hf]. split; cbn; congruence. }
        intros s Hs. split;
          [apply call_on_reconnect_returns
          | apply silent_call_on_reconnect, Hs].
      * intros []. apply hoare_ret. intros s [_ H]. auto.
      * intros e s [H _]. discriminate H.
    + apply hoare_returns_then;
        [intros s; exists tt; reflexivity | apply preserves_ret |].
      intros []. apply hoare_ret. auto.
  - auto.
  - intros e s [[H _]|[H _]]; discriminate H.
  - intros e s [[H _]|[H _]]; discriminate H.
Qed.

Lemma silent_check_connection t f :
  preserves (counters_are t f) (_check_connection cfg session).
Proof.
  unfold _check_connection.
  apply preserves_bind; [apply preserves_get|]. intros w.
  destruct (bool_decide _); [apply preserves_ret|].
  apply preserves_try_except; [apply silent_on_client|].
  intros e. apply preserves_bind; [apply silent_on_client|].
  intros _. apply preserves_ret.
Qed.

(** The watchdog once the monitor task has slept, not stopped meanwhile. *)
Definition slept (seconds : Q) (w : ConnectionWatchdog) : ConnectionWatchdog :=
  set_client (snd (Client.sleep seconds (client w))) w.

Lemma monitor_sleep_cases seconds w :
  monitor_sleep stop_during_sleep seconds w =
  if stop_during_sleep (count_events is_sleep (Client.trace (client w))) then
    (Raise CancelledError, set_running false (slept seconds w))
  else (Ret tt, slept seconds w).
Proof.
  unfold monitor_sleep, bind, get. cbn.
  destruct (stop_during_sleep _); reflexivity.
Qed.

(** What the probe of the next turn of the monitor loop says: nothing when
    the task is stopped during the interval. *)
Definition probe_of_tick (w : ConnectionWatchdog) : option bool :=
  if stop_during_sleep (count_events is_sleep (Client.trace (client w))) then
    None
  else if negb (_running w) then None
  else
    match fst (_check_connection cfg session (slept (ping_interval cfg) w)) with
    | Ret ok => Some ok
    | Raise _ => None
    end.

(** The last handler of the loop: a log line and a sleep of one second. *)
Ltac last_handler :=
  rewrite (bind_eq _ _ _ _ _ (log_eq _ _ _ _));
  match goal with
  | |- context [bind (monitor_sleep _ 1) _ ?s] =>
      let Hs := fresh "Hs" in
      pose proof (monitor_sleep_cases 1 s) as Hs;
      destruct (stop_during_sleep _);
      [rewrite (bind_raise _ _ _ _ _ Hs) | rewrite (bind_eq _ _ _ _ _ Hs)]
  end.

Lemma tick_counters t f w :
  counters_are t f w -> 0 <= f ->
  let w' :=
    snd (monitor_iteration cfg session on_reconnect stop_during_sleep w) in
  match probe_of_tick w with
  | Some true => counters_are t 0 w'
  | Some false => counters_are (t + 1) 0 w' \/ counters_are t (f + 1) w'
  | None => counters_are t f w'
  end.
Proof.
  intros Hw Hf. cbv zeta. unfold probe_of_tick, monitor_iteration, try_catch.
  pose proof (monitor_sleep_cases (ping_interval cfg) w) as Hsleep.
  destruct (stop_during_sleep _).
  { rewrite (bind_raise _ _ _ _ _ Hsleep). exact Hw. }
  rewrite (bind_eq _ _ _ _ _ Hsleep).
  rewrite (bind_eq _ _ _ _ _ (eq_refl : gets _running _ = (Ret _, _))).
  change (_running (slept (ping_interval cfg) w)) with (_running w).
  destruct (_running w); cbn [negb]; [|exact Hw].
  pose proof (silent_check_connection t f (slept (ping_interval cfg) w) Hw)
    as Hw2.
  destruct (_check_connection cfg session _) as [[[|]|e] w2] eqn:Hcheck;
    cbn [fst snd] in *.
  - (* the probe succeeded *)
    rewrite (bind_eq _ _ _ _ _ Hcheck).
    unfold bind, modify, gets. cbn [fst snd].
    destruct Hw2 as [Ht Hcf]. cbn [_consecutive_failures set_last_ping_time].
    destruct (0 <? _consecutive_failures w2) eqn:E; cbn; split;
      try assumption; try reflexivity.
    apply Z.ltb_ge in E.
    cbn [_consecutive_failures set_last_ping_time] in *. lia.
  - (* the probe failed *)
    rewrite (bind_eq _ _ _ _ _ Hcheck).
    match goal with
    | |- context [bind ?m ?k w2] =>
        assert (H : hoare (counters_are t f) (bind m k)
                      (fun _ w => counters_are (t + 1) 0 w \/
                                  counters_are t (f + 1) w))
    end.
    { apply hoare_modify_then with (P' := counters_are t (f + 1)).
      { intros s [Ht Hc]. split; cbn; congruence. }
      apply hoare_modify_then with (P' := counters_are t (f + 1)).
      { intros s H. exact H. }
      apply hoare_seq; [apply preserves_gets| |intros e s H; right; exact H].
      intros failures.
      apply hoare_seq; [apply silent_on_client| |intros e s H; right; exact H].
      intros _.
      eapply hoare_bind; [apply handle_disconnect_counters| |].
      - intros []. apply hoare_ret. intros s [H|H]; auto.
      - intros e s H. exact H. }
    specialize (H w2 Hw2).
    destruct (bind _ _ w2) as [[c|e] w3]; cbn [fst snd] in *; [exact H|].
    destruct e; cbn [snd]; try exact H.
    all: last_handler; exact H.
  - (* the probe raised *)
    rewrite (bind_raise _ _ _ _ _ Hcheck).
    destruct e; cbn [snd]; try exact Hw2.
    all: last_handler; exact Hw2.
Qed.

(** The state of the watchdog when [_monitor_loop] has made at most [n]
    turns, and the runs in which [n] turns take place, each with a failing
    probe. *)
Definition ticks (n : nat) (w : ConnectionWatchdog) : ConnectionWatchdog :=
  snd (_monitor_loop cfg session on_reconnect stop_during_sleep n w).

Fixpoint probes_fail (n : nat) (w : ConnectionWatchdog) : Prop :=
  match n with
  | O => True
  | S n' =>
      probe_of_tick w = Some false /\
      match monitor_iteration cfg session on_reconnect stop_during_sleep w with
      | (Ret Continue, w') => probes_fail n' w'
      | (_, _) => n' = O
      end
  end.

Lemma ticks_S n w :
  ticks (S n) w =
  if _running w then
    match monitor_iteration cfg session on_reconnect stop_during_sleep w with
    | (Ret Continue, w') => ticks n w'
    | (_, w') => w'
    end
  else w.
Proof.
  unfold ticks. cbn [_monitor_loop].
  rewrite (bind_eq _ _ _ _ _ (eq_refl : gets _running w = (Ret _, w))).
  destruct (_running w); cbn [negb]; [|reflexivity].
  destruct (monitor_iteration cfg session on_reconnect stop_during_sleep w)
    as [[[|]|e] w'] eqn:E.
  - rewrite (bind_eq _ _ _ _ _ E). reflexivity.
  - rewrite (bind_eq _ _ _ _ _ E). reflexivity.
  - rewrite (bind_raise _ _ _ _ _ E). reflexivity.
Qed.

Lemma ticks_O w : ticks 0 w = w.
Proof.
  unfold ticks. cbn [_monitor_loop].
  rewrite (bind_eq _ _ _ _ _ (eq_refl : gets _running w = (Ret _, w))).
  destruct (_running w); reflexivity.
Qed.

Lemma tick_bounds w :
  0 <= _consecutive_failures w ->
  let w' :=
    snd (monitor_iteration cfg session on_reconnect stop_during_sleep w) in
  0 <= _consecutive_failures w' /\
  _total_reconnects w <= _total_reconnects w'.
Proof.
  intros Hf.
  pose proof (tick_counters (_total_reconnects w) (_consecutive_failures w)
                w (conj eq_refl eq_refl) Hf) as H.
  cbv zeta in *. unfold counters_are in H.
  destruct (probe_of_tick w) as [[|]|]; lia.
Qed.

Lemma ticks_total_grows n w :
  0 <= _consecutive_failures w ->
  _total_reconnects w <= _total_reconnects (ticks n w).
Proof.
  revert w. induction n as [|n IH]; intros w Hf.
  { rewrite ticks_O. lia. }
  rewrite ticks_S. destruct (_running w); [|lia].
  destruct (tick_bounds w Hf) as [Hf' Ht]. cbv zeta in *.
  destruct (monitor_iteration cfg session on_reconnect stop_during_sleep w)
    as [[[|]|e] w']; cbn [snd] in *; try lia.
  specialize (IH _ Hf'). lia.
Qed.

Lemma failed_probes_count n w :
  0 <= _consecutive_failures w ->
  probes_fail n w ->
  _total_reconnects (ticks n w) = _total_reconnects w ->
  _consecutive_failures (ticks n w) = _consecutive_failures w + Z.of_nat n.
Proof.
  revert w. induction n as [|n IH]; intros w Hf Hp Ht.
  { rewrite ticks_O. cbn. lia. }
  destruct Hp as [Hprobe Hp].
  assert (Hrun : _running w = true).
  { unfold probe_of_tick in Hprobe.
    destruct (stop_during_sleep _); [discriminate|].
    destruct (_running w); [reflexivity|discriminate]. }
  rewrite ticks_S, Hrun in *.
  pose proof (tick_counters (_total_reconnects w) (_consecutive_failures w)
                w (conj eq_refl eq_refl) Hf) as H.
  cbv zeta in H. rewrite Hprobe in H. unfold counters_are in H.
  destruct (tick_bounds w Hf) as [Hf' _]. cbv zeta in Hf'.
  destruct (monitor_iteration cfg session on_reconnect stop_during_sleep w)
    as [[[|]|e] w'] eqn:E; cbn [snd] in *.
  - pose proof (ticks_total_grows n _ Hf') as Hgrow.
    destruct H as [[H1 H2]|[H1 H2]]; [lia|].
    rewrite IH; try assumption; lia.
  - subst n. destruct H as [[H1 H2]|[H1 H2]]; lia.
  - subst n. destruct H as [[H1 H2]|[H1 H2]]; lia.
Qed.

End Counters.

(** A session whose API object connects but whose balance call answers
    nothing, a configuration that is not a dry run and a watchdog that has
    just been started. *)
Definition silent_session : Session :=
  {| construct_outcome := fun _ => Constructed;
     connect_outcome := fun _ => ConnectReturns true "";
     close_outcome := fun _ => Done;
     get_balance_outcome := fun _ => BalanceReturns None;
     stop_candles_stream_outcome := fun _ => Done |}.

Definition live_config : QuotexConfig := default_config "user" "secret" false.

Definition fresh_watchdog : ConnectionWatchdog :=
  set_running true (__init__ Client.__init__).

Definition failure_reports (t : list Event) : list (list LogArg) :=
  flat_map (fun e =>
              match e with
              | EvLog WARNING
                  "Connection check failed (consecutive failures: {})" args =>
                  [args]
              | _ => []
              end) t.

(** C5, as stated, fails in its last part.  Here the API object connects but
    its balance call answers nothing: two probes in a row fail, each failure
    is followed by a reconnection that succeeds, and the counter is 1 in the
    log line of the second failure and 0 after it, not 2. *)
Lemma two_failed_probes_do_not_count_two :
  let run := ticks live_config silent_session None (fun _ => false) in
  _consecutive_failures fresh_watchdog = 0 /\
  probes_fail live_config silent_session None (fun _ => false)
    2 fresh_watchdog /\
  failure_reports (Client.trace (client (run 2%nat fresh_watchdog))) =
    [[ArgZ 1]; [ArgZ 1]] /\
  _consecutive_failures (run 2%nat fresh_watchdog) = 0 /\
  _consecutive_failures (run 2%nat fresh_watchdog) <> 2.
Proof.
  cbv zeta. split; [reflexivity|]. split.
  - vm_compute. repeat split.
  - split; [vm_compute; reflexivity|].
    assert (H : _consecutive_failures
                  (ticks live_config silent_session None (fun _ => false)
                     2 fresh_watchdog) = 0) by (vm_compute; reflexivity).
    split; [exact H|]. rewrite H. discriminate.
Qed.

(** C5, amended.  [_consecutive_failures] goes to 0 in a turn of the monitor
    whose probe succeeds, in a reconnection sequence that succeeds (which then
    also adds one to [_total_reconnects]) and in a forced reconnect that
    returns [True]; in every other case it is not reset: a turn whose probe
    fails without a successful reconnection adds one to it, and a cancelled
    turn, a failed sequence, a failed forced reconnect, [start] and [stop]
    leave it as it is.  After [n] turns of [_monitor_loop] in a row whose
    probes fail and none of whose reconnections succeeds, it is [n] above its
    value before.  (The loop of [_handle_disconnect] never runs out of the
    fuel it is given: [reconnect_loop_fuel_suffices].) *)
Theorem consecutive_failures_resets
  (cfg : QuotexConfig) (session : Session)
  (on_reconnect : option (nat -> UnitOutcome))
  (stop_during_sleep : nat -> bool) (w : ConnectionWatchdog) :
  0 <= _consecutive_failures w ->
  let failures := _consecutive_failures in
  let reconnects := _total_reconnects in
  (let w' :=
     snd (monitor_iteration cfg session on_reconnect stop_during_sleep w) in
   match probe_of_tick cfg session stop_during_sleep w with
   | Some true => failures w' = 0 /\ reconnects w' = reconnects w
   | Some false =>
       (reconnects w' = reconnects w + 1 /\ failures w' = 0) \/
       (reconnects w' = reconnects w /\ failures w' = failures w + 1)
   | None => failures w' = failures w /\ reconnects w' = reconnects w
   end) /\
  (let w' :=
     snd (_handle_disconnect cfg session on_reconnect stop_during_sleep w) in
   (reconnects w' = reconnects w + 1 /\ failures w' = 0) \/
   (reconnects w' = reconnects w /\ failures w' = failures w)) /\
  (let r := force_reconnect cfg session on_reconnect w in
   (fst r = Ret true /\
    reconnects (snd r) = reconnects w + 1 /\ failures (snd r) = 0) \/
   (fst r = Ret false /\
    reconnects (snd r) = reconnects w /\ failures (snd r) = failures w)) /\
  failures (snd (start w)) = failures w /\
  failures (snd (stop w)) = failures w /\
  (forall n,
     probes_fail cfg session on_reconnect stop_during_sleep n w ->
     reconnects (ticks cfg session on_reconnect stop_during_sleep n w) =
       reconnects w ->
     failures (ticks cfg session on_reconnect stop_during_sleep n w) =
       failures w + Z.of_nat n).
Proof.
  intros Hf. cbv zeta.
  assert (Hw : counters_are (_total_reconnects w) (_consecutive_failures w) w)
    by (split; reflexivity).
  split; [|split; [|split; [|split; [|split]]]].
  - pose proof (tick_counters cfg session on_reconnect stop_during_sleep
                  _ _ w Hw Hf) as H.
    cbv zeta in H. unfold counters_are in H.
    destruct (probe_of_tick _ _ _ w) as [[|]|]; tauto.
  - pose proof (handle_disconnect_counters cfg session on_reconnect
                  stop_during_sleep _ _ w Hw) as H.
    unfold counters_are in H. exact H.
  - pose proof (force_reconnect_counters cfg session on_reconnect
                  _ _ w Hw) as H.
    unfold counters_are in H. tauto.
  - unfold start, bind, gets. cbn. destruct (_running w); reflexivity.
  - unfold stop, bind, gets. cbn. destruct (_running w); reflexivity.
  - intros n. apply failed_probes_count, Hf.
Qed.

(** The session refuses every connection and the client was never
    connected: two probes fail, no reconnection succeeds, the counter is 2. *)
Definition refusing_session : Session :=
  {| construct_outcome := fun _ => Constructed;
     connect_outcome := fun _ => ConnectReturns false "refused";
     close_outcome := fun _ => Done;
     get_balance_outcome := fun _ => BalanceReturns None;
     stop_candles_stream_outcome := fun _ => Done |}.

Definition three_retries : QuotexConfig :=
  {| email := "user"; password := "secret"; ping_interval := 30;
     ping_timeout := 10; reconnect_max_retries := 3;
     reconnect_base_delay := 1; reconnect_max_delay := 300;
     reconnect_exponential_base := 2; min_payout := 80;
     preferred_assets := []; request_queue_maxsize := 100;
     callback_timeout := 30; dry_run := false; default_stake := 1;
     balance_update_interval := 5; log_level := "INFO" |}.

Lemma consecutive_failures_resets_witness :
  _consecutive_failures
    (ticks three_retries refusing_session None (fun _ => false)
       2 fresh_watchdog) = 0 + Z.of_nat 2.
Proof.
  apply (consecutive_failures_resets three_retries refusing_session None
           (fun _ => false) fresh_watchdog).
  - vm_compute. discriminate.
  - vm_compute. repeat split.
  - vm_compute. reflexivity.
Defined.

Lemma three_failed_attempts_then_exhaustion_witness :
  let r := _handle_disconnect three_retries refusing_session None
             (fun _ => false) fresh_watchdog in
  fst r = Ret tt /\
  count_events is_connecting (Client.trace (client (snd r))) = 3%nat /\
  _total_reconnects (snd r) = 0.
Proof.
  destruct (three_failed_attempts_then_exhaustion three_retries
              refusing_session None (fun _ => false) fresh_watchdog)
    as (H1 & _ & H3 & _ & _ & H6 & _).
  - reflexivity.
  - reflexivity.
  - intros n reason. discriminate.
  - reflexivity.
  - reflexivity.
  - cbv zeta. split; [exact H1|]. split; [exact H6 | exact H3].
Defined.

(** *** The probe *)

Lemma ping_frame cfg session c :
  exists b events,
    Client.ping cfg session c =
      (Ret b, Client.set_trace (Client.trace c ++ events) c) /\
    Forall (fun e => is_write e = false) events.
Proof.
  unfold Client.ping. step_monad. unfold Client.is_connected. cbn.
  destruct (bool_decide (Client._state c = CONNECTED)); cbn.
  2: { exists false, []. rewrite app_nil_r. destruct c; split; [reflexivity|].
       constructor. }
  destruct (dry_run cfg); cbn.
  { eexists _, [_]. split; [reflexivity|]. repeat constructor. }
  destruct (Client._api c); cbn.
  2: { eexists _, [_]. split; [reflexivity|]. repeat constructor. }
  destruct (get_balance_outcome session _); cbn.
  - eexists _, [_]. split; [reflexivity|]. repeat constructor.
  - eexists _, [_; _]. rewrite <- app_assoc. split; [reflexivity|].
    repeat constructor.
  - eexists _, [_; _]. rewrite <- app_assoc. split; [reflexivity|].
    repeat constructor.
Qed.

Lemma check_connection_frame cfg session w :
  exists b events,
    _check_connection cfg session w =
      (Ret b,
       set_client
         (Client.set_trace (Client.trace (client w) ++ events) (client w))
         w) /\
    Forall (fun e => is_write e = false) events.
Proof.
  unfold _check_connection, bind at 1, get. cbn [fst snd]. unfold Client.state.
  destruct (bool_decide (Client._state (client w) <> CONNECTED)).
  - exists false, []. rewrite app_nil_r. split; [|constructor].
    destruct w as [[] ? ? ? ? ? ?]. reflexivity.
  - destruct (ping_frame cfg session (client w)) as (b & events & Hp & Hev).
    exists b, events. split; [|exact Hev].
    unfold try_except, try_catch. rewrite on_client_eq, Hp. reflexivity.
Qed.

(** C8.  In every state other than [CONNECTED] the probe, be it
    [PyQuotexClient.ping] or the [_check_connection] of the watchdog, returns
    [False] and leaves everything as it was, the trace included, so the
    session is not called; and whatever its outcome the probe only adds
    events to the trace, none of them a write of the state: the connection
    state is the same after it as before. *)
Theorem probe_leaves_state_alone (cfg : QuotexConfig) (session : Session)
  (w : ConnectionWatchdog) :
  let c := client w in
  (Client._state c <> CONNECTED ->
   Client.ping cfg session c = (Ret false, c) /\
   _check_connection cfg session w = (Ret false, w)) /\
  (exists b events,
     Client.ping cfg session c =
       (Ret b, Client.set_trace (Client.trace c ++ events) c) /\
     Forall (fun e => is_write e = false) events) /\
  (exists b events,
     _check_connection cfg session w =
       (Ret b, set_client (Client.set_trace (Client.trace c ++ events) c) w) /\
     Forall (fun e => is_write e = false) events) /\
  Client._state (snd (Client.ping cfg session c)) = Client._state c /\
  Client._state (client (snd (_check_connection cfg session w))) =
    Client._state c.
Proof.
  cbv zeta. split; [|split; [|split; [|split]]].
  - intros Hst. split.
    + unfold Client.ping. step_monad. unfold Client.is_connected.
      rewrite bool_decide_false by assumption. reflexivity.
    + unfold _check_connection, bind, get. cbn [fst snd]. unfold Client.state.
      rewrite bool_decide_true by assumption. reflexivity.
  - apply ping_frame.
  - apply check_connection_frame.
  - destruct (ping_frame cfg session (client w)) as (b & events & -> & _).
    reflexivity.
  - destruct (check_connection_frame cfg session w)
      as (b & events & -> & _).
    reflexivity.
Qed.

Lemma probe_leaves_state_alone_witness :
  Client.ping three_retries refusing_session (client fresh_watchdog) =
    (Ret false, client fresh_watchdog) /\
  _check_connection three_retries refusing_session fresh_watchdog =
    (Ret false, fresh_watchdog).
Proof.
  apply (probe_leaves_state_alone three_retries refusing_session
           fresh_watchdog).
  discriminate.
Defined.

End WatchdogFacts.


(** ** The request queue *)

Module QueueFacts.
Import Config Queue.

Section Steps.
Variable cfg : QuotexConfig.
Variable client_outcome : Request.t -> ClientCall -> CallOutcome.
Variable callback_outcome : Callback -> Response.t -> UnitOutcome.

(** The request that worker [i] is working on. *)
Definition flight_of (w : Worker) : list Request.t :=
  match w with
  | Processing request _ => [request]
  | _ => []
  end.

(** The [Response] that the next step of worker [i] builds, if any: the
    failure of a request whose parameters are missing, or the outcome of the
    client call that the worker is waiting for. *)
Definition built (i : nat) (q : AsyncRequestQueue)
  : list (Request.t * Response.t) :=
  match _workers q !! i with
  | Some Waiting =>
      match _queue q with
      | request :: _ =>
          match client_call_of request with
          | Raise e =>
              [(request,
                failure_response (Request.request_id request)
                  (Request.request_type request) (str e) (clock q))]
          | Ret _ => []
          end
      | [] => []
      end
  | Some (Processing request call) =>
      [(request,
        match client_outcome request call with
        | Returned data => success_response request data (clock q)
        | Raised msg =>
            failure_response (Request.request_id request)
              (Request.request_type request) msg (clock q)
        end)]
  | _ => []
  end.

(** The request that the next step of worker [i] takes from the queue. *)
Definition taken (i : nat) (q : AsyncRequestQueue) : list Request.t :=
  match _workers q !! i, _queue q with
  | Some Waiting, request :: _ => [request]
  | _, _ => []
  end.

(** The calls of user callbacks for a list of answers. *)
Definition calls_for (answers : list (Request.t * Response.t))
  : list (Callback * Response.t) :=
  flat_map (fun a => match Request.callback (fst a) with
                     | Some cb => [(cb, snd a)]
                     | None => []
                     end) answers.

Definition successes (answers : list (Request.t * Response.t)) : Z :=
  Z.of_nat (length (List.filter (fun a => Response.success (snd a)) answers)).

Definition failures (answers : list (Request.t * Response.t)) : Z :=
  Z.of_nat
    (length (List.filter (fun a => negb (Response.success (snd a))) answers)).

Ltac unfold_queue :=
  cbv beta iota zeta delta
    [worker_step worker_handlers handle_response resolve_and_finish
     callback_returns task_done again set_worker datetime_now log
     bind ret raise get gets modify try_except try_catch is_Exception
     fst snd].

Ltac unfold_queue_in H :=
  cbv beta iota zeta delta
    [worker_step worker_handlers handle_response resolve_and_finish
     callback_returns task_done again set_worker datetime_now log
     bind ret raise get gets modify try_except try_catch is_Exception
     fst snd] in H.

(** Case analysis on whatever the computation in [H] still waits for. *)
Ltac crunch H :=
  repeat (match type of H with
          | context [match ?x with _ => _ end] =>
              lazymatch x with
              | context [match _ with _ => _ end] => fail
              | _ => let E := fresh "E" in destruct x eqn:E
              end
          end; cbn in H).

Ltac conclude_effect :=
  subst; unfold successes, failures, calls_for; cbn;
  repeat match goal with
    | E : ?l = _ |- context [?l] => rewrite E
    end;
  cbn; rewrite ?app_nil_r, ?Z.add_0_r; repeat split; reflexivity.

Lemma worker_step_effect i q :
  let q' := snd (worker_step client_outcome callback_outcome i q) in
  answered q' = answered q ++ built i q /\
  _processed_count q' = _processed_count q + successes (built i q) /\
  _failed_count q' = _failed_count q + failures (built i q) /\
  callback_calls q' = callback_calls q ++ calls_for (built i q) /\
  accepted q' = accepted q /\
  abandoned q' = abandoned q /\
  cut_short q' = cut_short q /\
  uuids_drawn q' = uuids_drawn q /\
  _running q' = _running q /\
  _queue q = taken i q ++ _queue q'.
Proof.
  cbv zeta. unfold built, taken.
  remember (worker_step client_outcome callback_outcome i q) as res eqn:Hres.
  unfold worker_step in Hres. unfold bind at 1 in Hres.
  unfold get at 1 in Hres. cbv beta iota in Hres.
  destruct (_workers q !! i) as [[| request call | request response | |]|] eqn:Hw.
  - destruct (_queue q) as [|request rest] eqn:Hq.
    + unfold_queue_in Hres. crunch Hres; conclude_effect.
    + destruct (client_call_of request) as [call|e] eqn:Hc;
        unfold_queue_in Hres; cbn in Hres; crunch Hres; conclude_effect.
  - unfold_queue_in Hres; cbn in Hres; crunch Hres; conclude_effect.
  - unfold_queue_in Hres; cbn in Hres; crunch Hres; conclude_effect.
  - unfold_queue_in Hres; cbn in Hres; crunch Hres; conclude_effect.
  - unfold_queue_in Hres; cbn in Hres; crunch Hres; conclude_effect.
  - unfold_queue_in Hres; cbn in Hres; crunch Hres; conclude_effect.
Qed.

(** The answer that a worker is passing to a coroutine callback. *)
Definition callback_of (w : Worker) : list (Request.t * Response.t) :=
  match w with
  | InCallback request response => [(request, response)]
  | _ => []
  end.

(** [if request.future and not request.future.done():
       request.future.set_result(response)]. *)
Definition resolve (a : Request.t * Response.t) (m : gmap nat FutureState)
  : gmap nat FutureState :=
  match Request.future (fst a) with
  | Some f =>
      match m !! f with
      | Some Pending => <[f := HasResult (snd a)]> m
      | _ => m
      end
  | None => m
  end.

(** The answers whose turn ends in a step that takes the worker from [wo] to
    [w'] and builds [new]. *)
Definition ended (wo : Worker) (new : list (Request.t * Response.t))
  (w' : Worker) : list (Request.t * Response.t) :=
  match w' with
  | InCallback _ _ => []
  | _ => callback_of wo ++ new
  end.

Ltac conclude_moves Hw :=
  subst; cbn;
  first
    [ left; reflexivity
    | right; eexists _, _; split; [first [exact Hw | reflexivity]|];
      repeat split;
      (unfold resolve, ended; cbn;
       repeat match goal with
         | E : ?l = _ |- context [?l] => rewrite E
         end;
       cbn; rewrite ?app_nil_r;
       first [ reflexivity | discriminate | left; reflexivity
             | right; reflexivity | intros; discriminate ]) ].

Lemma worker_step_moves i q :
  let q' := snd (worker_step client_outcome callback_outcome i q) in
  q' = q \/
  exists wo w',
    _workers q !! i = Some wo /\
    _workers q' = <[i := w']> (_workers q) /\
    flight_of wo ++ taken i q = flight_of w' ++ map fst (built i q) /\
    (callback_of w' = [] \/ callback_of w' = built i q) /\
    futures q' = foldr resolve (futures q) (ended wo (built i q) w') /\
    (_running q = true -> w' <> Finished).
Proof.
  cbv zeta. unfold built, taken.
  remember (worker_step client_outcome callback_outcome i q) as res eqn:Hres.
  unfold worker_step in Hres. unfold bind at 1 in Hres.
  unfold get at 1 in Hres. cbv beta iota in Hres.
  destruct (_workers q !! i) as [[| request call | request response | |]|] eqn:Hw.
  - destruct (_queue q) as [|request rest] eqn:Hq.
    + unfold_queue_in Hres. crunch Hres; conclude_moves Hw.
    + destruct (client_call_of request) as [call|e] eqn:Hc;
        unfold_queue_in Hres; cbn in Hres; crunch Hres; conclude_moves Hw.
  - unfold_queue_in Hres; cbn in Hres; crunch Hres; conclude_moves Hw.
  - unfold_queue_in Hres; cbn in Hres; crunch Hres; conclude_moves Hw.
  - unfold_queue_in Hres; cbn in Hres; crunch Hres; conclude_moves Hw.
  - unfold_queue_in Hres; cbn in Hres; crunch Hres; conclude_moves Hw.
  - unfold_queue_in Hres; cbn in Hres; crunch Hres; conclude_moves Hw.
Qed.

(** *** The other steps *)

(** The request that [submit_request] builds in the state [q]. *)
Definition request_of (rt : RequestType) (params : option (gmap string PyVal))
  (cb : option Callback) (wait_for_response : bool) (q : AsyncRequestQueue)
  : Request.t :=
  {| Request.request_id := uuids_drawn q;
     Request.request_type := rt;
     Request.params := default ∅ params;
     Request.callback := cb;
     Request.future :=
       if wait_for_response then Some (uuids_drawn q) else None;
     Request.timestamp := clock q |}.

Lemma submit_start_effect rt params cb wait_for_response q :
  let r := submit_request_start cfg rt params cb wait_for_response q in
  let q' := snd r in
  let request := request_of rt params cb wait_for_response q in
  uuids_drawn q' = S (uuids_drawn q) /\
  _workers q' = _workers q /\
  answered q' = answered q /\
  abandoned q' = abandoned q /\
  cut_short q' = cut_short q /\
  _processed_count q' = _processed_count q /\
  _failed_count q' = _failed_count q /\
  callback_calls q' = callback_calls q /\
  _running q' = _running q /\
  futures q' =
    (if wait_for_response then <[uuids_drawn q := Pending]> (futures q)
     else futures q) /\
  if full cfg q then
    accepted q' = accepted q /\ _queue q' = _queue q /\
    fst r =
      if wait_for_response then
        Ret (inl (Reply (failure_response (uuids_drawn q) rt "Queue full"
                           (S (clock q)))))
      else Raise TimeoutError
  else
    accepted q' = accepted q ++ [request] /\
    _queue q' = _queue q ++ [request] /\
    fst r =
      Ret (if wait_for_response then inr request
           else inl (RequestId (uuids_drawn q))).
Proof.
  cbv zeta. unfold request_of.
  remember (submit_request_start cfg rt params cb wait_for_response q)
    as res eqn:Hres.
  unfold submit_request_start, submit_handlers, put, new_future, uuid4,
    datetime_now, Queue.log in Hres.
  cbv beta iota zeta delta
    [bind ret raise get gets modify try_catch fst snd] in Hres.
  unfold full in *.
  destruct wait_for_response; cbn in Hres;
    destruct ((0 <? request_queue_maxsize cfg) && _); cbn in Hres;
    subst res; cbn; repeat split; reflexivity.
Qed.

Lemma submit_resume_effect request q :
  let r := submit_request_resume request q in
  let q' := snd r in
  uuids_drawn q' = uuids_drawn q /\
  _workers q' = _workers q /\
  _queue q' = _queue q /\
  accepted q' = accepted q /\
  answered q' = answered q /\
  abandoned q' = abandoned q /\
  cut_short q' = cut_short q /\
  _processed_count q' = _processed_count q /\
  _failed_count q' = _failed_count q /\
  callback_calls q' = callback_calls q /\
  _running q' = _running q /\
  match Request.future request with
  | Some f =>
      match futures q !! f with
      | Some Pending =>
          futures q' = <[f := Cancelled]> (futures q) /\
          fst r =
            Ret (Reply (failure_response (Request.request_id request)
                          (Request.request_type request) "Queue full"
                          (clock q)))
      | Some (HasResult response) =>
          futures q' = futures q /\ fst r = Ret (Reply response)
      | _ => futures q' = futures q /\ fst r = Raise CancelledError
      end
  | None => futures q' = futures q
  end.
Proof.
  cbv zeta.
  remember (submit_request_resume request q) as res eqn:Hres.
  unfold submit_request_resume, submit_handlers, datetime_now, Queue.log
    in Hres.
  cbv beta iota zeta delta
    [bind ret raise get gets modify try_catch fst snd] in Hres.
  destruct (Request.future request) as [f|]; cbn in Hres.
  - destruct (futures q !! f) as [[| |]|]; cbn in Hres; subst res; cbn;
      repeat split; reflexivity.
  - subst res; cbn; repeat split; reflexivity.
Qed.

Lemma start_effect q :
  let q' := snd (start q) in
  _running q' = true /\
  _workers q' =
    (if _running q then _workers q
     else _workers q ++ replicate _num_workers Waiting) /\
  uuids_drawn q' = uuids_drawn q /\
  _queue q' = _queue q /\
  accepted q' = accepted q /\
  answered q' = answered q /\
  abandoned q' = abandoned q /\
  cut_short q' = cut_short q /\
  _processed_count q' = _processed_count q /\
  _failed_count q' = _failed_count q /\
  callback_calls q' = callback_calls q /\
  futures q' = futures q.
Proof.
  cbv zeta. unfold start, Queue.log, bind, gets, modify. cbn.
  destruct (_running q) eqn:E; cbn; rewrite ?E; repeat split; reflexivity.
Qed.

Lemma stop_effect q :
  let q' := snd (stop q) in
  _running q' = false /\
  (if _running q then
     _workers q' = [] /\
     abandoned q' = abandoned q ++ requests_in_flight (_workers q) /\
     cut_short q' = cut_short q ++ callbacks_in_flight (_workers q)
   else
     _workers q' = _workers q /\
     abandoned q' = abandoned q /\
     cut_short q' = cut_short q) /\
  uuids_drawn q' = uuids_drawn q /\
  _queue q' = _queue q /\
  accepted q' = accepted q /\
  answered q' = answered q /\
  _processed_count q' = _processed_count q /\
  _failed_count q' = _failed_count q /\
  callback_calls q' = callback_calls q /\
  futures q' = futures q.
Proof.
  cbv zeta. unfold stop, Queue.log, bind, gets, modify. cbn.
  destruct (_running q) eqn:E; cbn; rewrite ?E; repeat split; reflexivity.
Qed.

End Steps.
End QueueFacts.


(** ** Invariants of the runs of the queue *)

Module QueueInvariants.
Import Config Queue QueueFacts.

(** Equality of requests and responses is decidable. *)
#[local] Instance Q_eq_dec : EqDecision Q.
Proof. solve_decision. Defined.
#[local] Instance RequestType_eq_dec : EqDecision RequestType.
Proof. solve_decision. Defined.
#[local] Instance PyVal_eq_dec : EqDecision PyVal.
Proof. solve_decision. Defined.
#[local] Instance Callback_eq_dec : EqDecision Callback.
Proof. solve_decision. Defined.
#[local] Instance Request_eq_dec : EqDecision Request.t.
Proof. solve_decision. Defined.
#[local] Instance Response_eq_dec : EqDecision Response.t.
Proof. solve_decision. Defined.

Lemma flat_map_insert {A B} (f : A -> list B) (l : list A) i x :
  l !! i = Some x ->
  exists X Y,
    flat_map f l = X ++ f x ++ Y /\
    forall y, flat_map f (<[i := y]> l) = X ++ f y ++ Y.
Proof.
  revert i. induction l as [|a l IH]; intros [|i] H; cbn in H;
    try discriminate.
  - injection H as ->. exists [], (flat_map f l). split; reflexivity.
  - destruct (IH i H) as (X & Y & H1 & H2).
    exists (f a ++ X), Y. cbn. split.
    + rewrite H1, <- app_assoc. reflexivity.
    + intros y. rewrite H2, <- app_assoc. reflexivity.
Qed.

Lemma flat_map_replicate_nil {A B} (f : A -> list B) (x : A) n :
  f x = [] -> flat_map f (replicate n x) = [].
Proof. intros H. induction n as [|n IH]; cbn; [|rewrite H, IH]; reflexivity. Qed.

Lemma successes_app l k : successes (l ++ k) = successes l + successes k.
Proof. unfold successes. rewrite List.filter_app, List.length_app. lia. Qed.

Lemma failures_app l k : failures (l ++ k) = failures l + failures k.
Proof. unfold failures. rewrite List.filter_app, List.length_app. lia. Qed.

Lemma calls_for_app l k : calls_for (l ++ k) = calls_for l ++ calls_for k.
Proof. apply flat_map_app. Qed.

Lemma successes_failures l :
  successes l + failures l = Z.of_nat (length l).
Proof.
  unfold successes, failures. induction l as [|a l IH]; [reflexivity|].
  cbn. destruct (Response.success (snd a)); cbn [negb length]; lia.
Qed.

(** What [set_result] on pending futures does to the heap. *)
Lemma resolve_keeps_resolved l m f :
  m !! f <> Some Pending -> foldr resolve m l !! f <> Some Pending.
Proof.
  intros H. induction l as [|a l IH]; [exact H|]. cbn [foldr].
  unfold resolve at 1. destruct (Request.future (fst a)) as [g|]; [|exact IH].
  destruct (foldr resolve m l !! g) as [[| |]|] eqn:E; try exact IH.
  destruct (decide (g = f)) as [->|Hne].
  - rewrite lookup_insert_eq. discriminate.
  - rewrite lookup_insert_ne by exact Hne. exact IH.
Qed.

Lemma resolve_in l m a f :
  In a l -> Request.future (fst a) = Some f ->
  foldr resolve m l !! f <> Some Pending.
Proof.
  induction l as [|b l IH]; intros Hin Hf; [destruct Hin|].
  destruct Hin as [->|Hin].
  - cbn [foldr]. unfold resolve at 1. rewrite Hf.
    destruct (foldr resolve m l !! f) as [[| |]|] eqn:E;
      rewrite ?lookup_insert_eq, ?E; discriminate.
  - change (foldr resolve m (b :: l)) with (foldr resolve m ([b] ++ l)).
    rewrite foldr_app. cbn [foldr].
    specialize (IH Hin Hf).
    unfold resolve at 1. destruct (Request.future (fst b)) as [g|]; [|exact IH].
    destruct (foldr resolve m l !! g) as [[| |]|] eqn:E; try exact IH.
    destruct (decide (g = f)) as [->|Hne].
    + rewrite lookup_insert_eq. discriminate.
    + rewrite lookup_insert_ne by exact Hne. exact IH.
Qed.

Lemma resolve_results l m f response :
  foldr resolve m l !! f = Some (HasResult response) ->
  m !! f = Some (HasResult response) \/
  exists request, In (request, response) l /\ Request.future request = Some f.
Proof.
  induction l as [|a l IH]; intros H; [left; exact H|]. cbn [foldr] in H.
  unfold resolve at 1 in H.
  destruct (Request.future (fst a)) as [g|] eqn:Hg.
  - destruct (foldr resolve m l !! g) as [[| |]|] eqn:E.
    + destruct (decide (g = f)) as [->|Hne].
      * rewrite lookup_insert_eq in H. injection H as <-.
        right. exists (fst a). split; [left; destruct a; reflexivity|exact Hg].
      * rewrite lookup_insert_ne in H by exact Hne.
        destruct (IH H) as [?|(r & ? & ?)]; [left|right; exists r]; auto.
        split; [right|]; assumption.
    + destruct (IH H) as [?|(r & ? & ?)]; [left|right; exists r]; auto.
      split; [right|]; assumption.
    + destruct (IH H) as [?|(r & ? & ?)]; [left|right; exists r]; auto.
      split; [right|]; assumption.
    + destruct (IH H) as [?|(r & ? & ?)]; [left|right; exists r]; auto.
      split; [right|]; assumption.
  - destruct (IH H) as [?|(r & ? & ?)]; [left|right; exists r]; auto.
    split; [right|]; assumption.
Qed.

Section Invariants.
Variable cfg : QuotexConfig.
Variable client_outcome : Request.t -> ClientCall -> CallOutcome.
Variable callback_outcome : Callback -> Response.t -> UnitOutcome.

Record invariant (q : AsyncRequestQueue) : Prop := {
  (* identifiers are drawn in order and never twice *)
  inv_fresh :
    Forall (fun r => (Request.request_id r < uuids_drawn q)%nat) (accepted q);
  inv_distinct : NoDup (map Request.request_id (accepted q));
  (* every accepted request is in exactly one place *)
  inv_where :
    accepted q ≡ₚ
      _queue q ++ requests_in_flight (_workers q) ++
      map fst (answered q) ++ abandoned q;
  (* the counters count the answers *)
  inv_processed : _processed_count q = successes (answered q);
  inv_failed : _failed_count q = failures (answered q);
  (* every answer went to the callback of its request, once *)
  inv_calls : callback_calls q = calls_for (answered q);
  (* the futures *)
  inv_handle :
    Forall (fun r => forall f, Request.future r = Some f ->
                               f = Request.request_id r) (accepted q);
  inv_in_callback :
    forall a, In a (callbacks_in_flight (_workers q)) -> In a (answered q);
  inv_resolved :
    forall a f,
      In a (answered q) -> Request.future (fst a) = Some f ->
      ~ In a (callbacks_in_flight (_workers q)) -> ~ In a (cut_short q) ->
      futures q !! f <> Some Pending;
  inv_results :
    forall f response,
      futures q !! f = Some (HasResult response) ->
      exists request,
        In (request, response) (answered q) /\
        Request.future request = Some f
}.

Lemma invariant_init : invariant __init__.
Proof.
  split; cbn; try (constructor; fail); try reflexivity.
  - intros a [].
  - intros a f [].
  - intros f response H. rewrite lookup_empty in H. discriminate.
Qed.

Lemma answered_accepted q a :
  invariant q -> In a (answered q) -> In (fst a) (accepted q).
Proof.
  intros Hinv Ha. apply (Permutation_in _ (Permutation_sym (inv_where q Hinv))).
  apply in_or_app. right. apply in_or_app. right. apply in_or_app. left.
  apply in_map, Ha.
Qed.

Lemma answered_future_fresh q a f :
  invariant q -> In a (answered q) -> Request.future (fst a) = Some f ->
  (f < uuids_drawn q)%nat.
Proof.
  intros Hinv Ha Hf. pose proof (answered_accepted q a Hinv Ha) as Hacc.
  pose proof (inv_fresh q Hinv) as Hfresh. pose proof (inv_handle q Hinv) as Hh.
  rewrite List.Forall_forall in Hfresh, Hh.
  rewrite (Hh _ Hacc f Hf). apply Hfresh, Hacc.
Qed.

Lemma invariant_start q : invariant q -> invariant (snd (start q)).
Proof.
  intros Hinv.
  destruct (start_effect q)
    as (_ & Hws & Hu & Hq & Hacc & Hans & Hab & Hcut & Hp & Hf & Hc & Hfut).
  assert (Hfl : requests_in_flight (_workers (snd (start q))) =
                requests_in_flight (_workers q)).
  { rewrite Hws. destruct (_running q); [reflexivity|].
    unfold requests_in_flight. rewrite flat_map_app.
    rewrite flat_map_replicate_nil by reflexivity. apply app_nil_r. }
  assert (Hcb : callbacks_in_flight (_workers (snd (start q))) =
                callbacks_in_flight (_workers q)).
  { rewrite Hws. destruct (_running q); [reflexivity|].
    unfold callbacks_in_flight. rewrite flat_map_app.
    rewrite flat_map_replicate_nil by reflexivity. apply app_nil_r. }
  destruct Hinv. split;
    rewrite ?Hu, ?Hq, ?Hacc, ?Hans, ?Hab, ?Hcut, ?Hp, ?Hf, ?Hc, ?Hfut,
      ?Hfl, ?Hcb; assumption.
Qed.

Lemma invariant_stop q : invariant q -> invariant (snd (stop q)).
Proof.
  intros Hinv.
  destruct (stop_effect q)
    as (_ & Hws & Hu & Hq & Hacc & Hans & Hp & Hf & Hc & Hfut).
  destruct (_running q).
  - destruct Hws as (Hws & Hab & Hcut). destruct Hinv.
    split; rewrite ?Hu, ?Hq, ?Hacc, ?Hans, ?Hab, ?Hcut, ?Hp, ?Hf, ?Hc, ?Hfut,
      ?Hws; try assumption.
    + cbn. rewrite inv_where0. solve_Permutation.
    + cbn. intros a [].
    + cbn. intros a f Ha Hfa _ Hncut. apply (inv_resolved0 a f Ha Hfa).
      * intros Hin. apply Hncut, in_or_app. right. exact Hin.
      * intros Hin. apply Hncut, in_or_app. left. exact Hin.
  - destruct Hws as (Hws & Hab & Hcut). destruct Hinv.
    split; rewrite ?Hu, ?Hq, ?Hacc, ?Hans, ?Hab, ?Hcut, ?Hp, ?Hf, ?Hc, ?Hfut,
      ?Hws; assumption.
Qed.

Lemma invariant_new_future q (m : gmap nat FutureState) flag :
  invariant q ->
  m = (if flag : bool then <[uuids_drawn q := Pending]> (futures q)
       else futures q) ->
  (forall a f,
     In a (answered q) -> Request.future (fst a) = Some f ->
     ~ In a (callbacks_in_flight (_workers q)) -> ~ In a (cut_short q) ->
     m !! f <> Some Pending) /\
  (forall f response,
     m !! f = Some (HasResult response) ->
     exists request,
       In (request, response) (answered q) /\
       Request.future request = Some f).
Proof.
  intros Hinv ->. split.
  - intros a f Ha Hf Hcb Hcut.
    pose proof (inv_resolved q Hinv a f Ha Hf Hcb Hcut) as H.
    destruct flag; [|exact H].
    pose proof (answered_future_fresh q a f Hinv Ha Hf).
    rewrite lookup_insert_ne by lia. exact H.
  - intros f response H. apply (inv_results q Hinv).
    destruct flag; [|exact H].
    destruct (decide (uuids_drawn q = f)) as [<-|Hne].
    + rewrite lookup_insert_eq in H. discriminate.
    + rewrite lookup_insert_ne in H by exact Hne. exact H.
Qed.

Lemma invariant_submit rt params cb wait_for_response q :
  invariant q ->
  invariant (snd (submit_request_start cfg rt params cb wait_for_response q)).
Proof.
  intros Hinv.
  destruct (submit_start_effect cfg rt params cb wait_for_response q)
    as (Hu & Hws & Hans & Hab & Hcut & Hp & Hf & Hc & _ & Hfut & Hfull).
  destruct (invariant_new_future q _ _ Hinv Hfut) as [Hres Hresults].
  pose proof (inv_fresh q Hinv) as Hfresh.
  assert (Hfresh' :
    Forall (fun r => (Request.request_id r < S (uuids_drawn q))%nat)
      (accepted q)).
  { eapply List.Forall_impl; [|exact Hfresh]. cbn. intros. lia. }
  destruct (full cfg q).
  - destruct Hfull as (Hacc & Hq & _). destruct Hinv.
    split; rewrite ?Hu, ?Hq, ?Hacc, ?Hans, ?Hab, ?Hcut, ?Hp, ?Hf, ?Hc, ?Hws;
      assumption.
  - destruct Hfull as (Hacc & Hq & _). destruct Hinv.
    split; rewrite ?Hu, ?Hq, ?Hacc, ?Hans, ?Hab, ?Hcut, ?Hp, ?Hf, ?Hc, ?Hws;
      try assumption.
    + apply Forall_app. split; [exact Hfresh'|].
      constructor; [cbn; lia | constructor].
    + rewrite map_app. cbn. apply NoDup_app. split; [exact inv_distinct0|].
      split; [|apply NoDup_singleton].
      intros x Hx Hx'. apply list_elem_of_In in Hx.
      apply list_elem_of_In in Hx'. destruct Hx' as [<-|[]].
      apply in_map_iff in Hx as (r & Hr & Hin).
      rewrite List.Forall_forall in Hfresh. specialize (Hfresh r Hin). lia.
    + rewrite inv_where0. solve_Permutation.
    + apply Forall_app. split; [exact inv_handle0|].
      constructor; [|constructor]. cbn. intros f.
      destruct wait_for_response; [intros [= <-]; reflexivity | discriminate].
Qed.

Lemma invariant_resume request q :
  invariant q -> invariant (snd (submit_request_resume request q)).
Proof.
  intros Hinv.
  destruct (submit_resume_effect request q)
    as (Hu & Hws & Hq & Hacc & Hans & Hab & Hcut & Hp & Hf & Hc & _ & Hfut).
  assert (Hm : futures (snd (submit_request_resume request q)) = futures q \/
               exists f, futures (snd (submit_request_resume request q)) =
                           <[f := Cancelled]> (futures q)).
  { destruct (Request.future request) as [f|]; [|left; exact Hfut].
    destruct (futures q !! f) as [[| |]|]; destruct Hfut as [Hfut _];
      [right; exists f|left|left|left]; exact Hfut. }
  destruct Hinv.
  split; rewrite ?Hu, ?Hq, ?Hacc, ?Hans, ?Hab, ?Hcut, ?Hp, ?Hf, ?Hc, ?Hws;
    try assumption.
  - intros a f Ha Hfa Hcb Hncut.
    pose proof (inv_resolved0 a f Ha Hfa Hcb Hncut) as H.
    destruct Hm as [->|[g ->]]; [exact H|].
    destruct (decide (g = f)) as [->|Hne].
    + rewrite lookup_insert_eq. discriminate.
    + rewrite lookup_insert_ne by exact Hne. exact H.
  - intros f response H. apply inv_results0.
    destruct Hm as [Hm|[g Hm]]; rewrite Hm in H; [exact H|].
    destruct (decide (g = f)) as [->|Hne].
    + rewrite lookup_insert_eq in H. discriminate.
    + rewrite lookup_insert_ne in H by exact Hne. exact H.
Qed.

Lemma built_without_callback i q wo x :
  _workers q !! i = Some wo -> In x (callback_of wo) ->
  built client_outcome i q = [].
Proof.
  intros Hw Hx. unfold built. rewrite Hw.
  destruct wo; cbn in Hx; try contradiction; reflexivity.
Qed.

Lemma invariant_worker i q :
  invariant q ->
  invariant (snd (worker_step client_outcome callback_outcome i q)).
Proof.
  intros Hinv.
  destruct (worker_step_effect client_outcome callback_outcome i q)
    as (Hans & Hp & Hf & Hc & Hacc & Hab & Hcut & Hu & _ & Hq).
  destruct (worker_step_moves client_outcome callback_outcome i q)
    as [Hsame|(wo & w' & Hw & Hws & Hmove & Hcb & Hfut & _)].
  { rewrite Hsame. exact Hinv. }
  set (q' := snd (worker_step client_outcome callback_outcome i q)) in *.
  set (new := built client_outcome i q) in *.
  destruct (flat_map_insert flight_of (_workers q) i wo Hw)
    as (X & Y & Hfl & Hfl').
  destruct (flat_map_insert callback_of (_workers q) i wo Hw)
    as (CX & CY & Hcl & Hcl').
  change (flat_map flight_of) with requests_in_flight in Hfl, Hfl'.
  change (flat_map callback_of) with callbacks_in_flight in Hcl, Hcl'.
  specialize (Hfl' w'). specialize (Hcl' w'). rewrite <- Hws in Hfl', Hcl'.
  assert (Hold : forall a, In a (callbacks_in_flight (_workers q')) ->
                           In a (callback_of w') \/
                           In a (callbacks_in_flight (_workers q))).
  { intros a. rewrite Hcl', Hcl, !in_app_iff. tauto. }
  destruct Hinv. split; rewrite ?Hacc, ?Hab, ?Hcut, ?Hu; try assumption.
  - (* every request in one place *)
    rewrite inv_where0, Hq, Hfl, Hfl', Hans, map_app.
    transitivity ((flight_of wo ++ taken i q) ++
                  _queue q' ++ X ++ Y ++ map fst (answered q) ++ abandoned q).
    { solve_Permutation. }
    rewrite Hmove. solve_Permutation.
  - rewrite Hp, Hans, successes_app, inv_processed0. reflexivity.
  - rewrite Hf, Hans, failures_app, inv_failed0. reflexivity.
  - rewrite Hc, Hans, calls_for_app, inv_calls0. reflexivity.
  - (* answers in a callback are answers *)
    intros a Ha. rewrite Hans. apply in_or_app.
    destruct (Hold a Ha) as [H|H]; [|left; apply inv_in_callback0, H].
    destruct Hcb as [Hcb|Hcb]; rewrite Hcb in H; [destruct H|right; exact H].
  - (* no answer whose turn has ended has a pending future *)
    intros a f Ha Hfa Hncb Hncut. rewrite Hfut.
    destruct (in_dec (fun x y => decide (x = y)) a (ended wo new w'))
      as [Hend|Hnend].
    { eapply resolve_in; eassumption. }
    apply resolve_keeps_resolved.
    assert (Hnw' : ~ In a (callback_of w')).
    { intros H. apply Hncb. rewrite Hcl'. apply in_or_app. right.
      apply in_or_app. left. exact H. }
    assert (Hparts : ~ In a CX /\ ~ In a CY).
    { split; intros H; apply Hncb; rewrite Hcl', !in_app_iff; tauto. }
    assert (Hnew_wo : ~ In a new /\ ~ In a (callback_of wo)).
    { unfold ended in Hnend. destruct w' as [| | r0 p0 | |];
        try (split; intros H; apply Hnend, in_or_app; tauto).
      destruct Hcb as [Hcb|Hcb]; [discriminate Hcb|].
      rewrite <- Hcb. split; [exact Hnw'|].
      intros H.
      pose proof (built_without_callback i q wo a Hw H) as Hnil.
      fold new in Hnil. rewrite Hnil in Hcb. discriminate Hcb. }
    rewrite Hans in Ha. apply in_app_or in Ha.
    destruct Ha as [Ha|Ha]; [|tauto].
    apply (inv_resolved0 a f Ha Hfa); [|exact Hncut].
    rewrite Hcl, !in_app_iff. tauto.
  - (* a future holds the answer of its request *)
    intros f response H. rewrite Hfut in H.
    destruct (resolve_results _ _ _ _ H) as [H'|(r & Hin & Hr)].
    + destruct (inv_results0 f response H') as (r & Hin & Hr).
      exists r. split; [|exact Hr]. rewrite Hans. apply in_or_app. tauto.
    + exists r. split; [|exact Hr]. rewrite Hans. apply in_or_app.
      unfold ended in Hin. destruct w'; try destruct Hin;
        apply in_app_or in Hin; (destruct Hin as [Hin|Hin]; [left|tauto]);
        apply inv_in_callback0; rewrite Hcl, !in_app_iff; tauto.
Qed.

Lemma invariant_step s q :
  invariant q ->
  invariant (step cfg client_outcome callback_outcome s q).
Proof.
  intros Hinv. destruct s; cbn [step].
  - apply invariant_start, Hinv.
  - apply invariant_stop, Hinv.
  - apply invariant_submit, Hinv.
  - apply invariant_resume, Hinv.
  - apply invariant_worker, Hinv.
Qed.

Lemma invariant_run steps q :
  invariant q ->
  invariant (run cfg client_outcome callback_outcome steps q).
Proof.
  revert q. induction steps as [|s steps IH]; intros q Hinv; [exact Hinv|].
  cbn. apply IH, invariant_step, Hinv.
Qed.

(** The answers carry the identifier and the type of their request. *)
Definition matches (a : Request.t * Response.t) : Prop :=
  Response.request_id (snd a) = Request.request_id (fst a) /\
  Response.request_type (snd a) = Request.request_type (fst a).

Lemma built_matches i q : Forall matches (built client_outcome i q).
Proof.
  unfold built.
  destruct (_workers q !! i) as [[| request call | | |]|]; try constructor.
  - destruct (_queue q) as [|request rest]; [constructor|].
    destruct (client_call_of request); repeat constructor.
  - destruct (client_outcome request call); split; reflexivity.
  - constructor.
Qed.

Lemma answered_step s q :
  exists new,
    answered (step cfg client_outcome callback_outcome s q) =
      answered q ++ new /\
    Forall matches new.
Proof.
  destruct s; cbn [step].
  - exists []. rewrite app_nil_r. split; [apply start_effect | constructor].
  - exists []. rewrite app_nil_r. split; [apply stop_effect | constructor].
  - exists []. rewrite app_nil_r.
    split; [apply submit_start_effect | constructor].
  - exists []. rewrite app_nil_r.
    split; [apply submit_resume_effect | constructor].
  - exists (built client_outcome i q).
    split; [apply worker_step_effect | apply built_matches].
Qed.

Lemma answers_match_run steps q :
  Forall matches (answered q) ->
  Forall matches
    (answered (run cfg client_outcome callback_outcome steps q)).
Proof.
  revert q. induction steps as [|s steps IH]; intros q H; [exact H|].
  cbn. apply IH. destruct (answered_step s q) as (new & -> & Hnew).
  apply Forall_app. split; assumption.
Qed.





End Invariants.


(** *** The claims on the queue *)

Section Scenarios.



Definition demo_config : QuotexConfig := default_config "" "" true.





End Scenarios.






(** C2: the code at the input on which it departs from the claim.  A caller
    that waits for the response of a request that the queue has accepted, and
    whose future is still pending when [callback_timeout] is over, is handed
    a failed [Response] whose error reads "Queue full"; the same [Response]
    comes back when the queue was full, while a caller that does not wait
    gets the [TimeoutError] of the full queue raised. *)
Theorem result_timeout_is_reported_as_queue_full
  (cfg : QuotexConfig) (rt : RequestType)
  (params : option (gmap string PyVal)) (cb : option Callback)
  (meanwhile : AsyncRequestQueue -> AsyncRequestQueue)
  (q : AsyncRequestQueue) :
  let request := request_of rt params cb true q in
  let waiting := snd (submit_request_start cfg rt params cb true q) in
  (full cfg q = false ->
   futures (meanwhile waiting) !! uuids_drawn q = Some Pending ->
   In request (accepted waiting) /\
   fst (submit_request cfg rt params cb true meanwhile q) =
     Ret (Reply (failure_response (uuids_drawn q) rt "Queue full"
                   (clock (meanwhile waiting))))) /\
  (full cfg q = true ->
   fst (submit_request cfg rt params cb true meanwhile q) =
     Ret (Reply (failure_response (uuids_drawn q) rt "Queue full"
                   (S (clock q)))) /\
   fst (submit_request cfg rt params cb false meanwhile q) =
     Raise TimeoutError /\
   accepted (snd (submit_request cfg rt params cb false meanwhile q)) =
     accepted q).
Proof.
  cbv zeta. split.
  - intros Hfull Hpending.
    destruct (submit_start_effect cfg rt params cb true q)
      as (_ & _ & _ & _ & _ & _ & _ & _ & _ & _ & Heff).
    rewrite Hfull in Heff. destruct Heff as (Hacc & _ & Hr).
    split; [rewrite Hacc; apply in_or_app; right; left; reflexivity|].
    unfold submit_request, bind.
    destruct (submit_request_start cfg rt params cb true q) as [r q1].
    cbn [fst snd] in *. subst r. cbn [fst snd modify].
    pose proof (submit_resume_effect (request_of rt params cb true q)
                  (meanwhile q1)) as Heff.
    cbv zeta in Heff. cbn [Request.future request_of] in Heff.
    rewrite Hpending in Heff.
    destruct Heff as (_ & _ & _ & _ & _ & _ & _ & _ & _ & _ & _ & _ & Hr).
    destruct (submit_request_resume _ _) as [r2 q2]. cbn [fst] in *.
    exact Hr.
  - intros Hfull.
    destruct (submit_start_effect cfg rt params cb true q)
      as (_ & _ & _ & _ & _ & _ & _ & _ & _ & _ & Heff).
    destruct (submit_start_effect cfg rt params cb false q)
      as (_ & _ & _ & _ & _ & _ & _ & _ & _ & _ & Heff').
    rewrite Hfull in Heff, Heff'.
    destruct Heff as (_ & _ & Hr). destruct Heff' as (Hacc & _ & Hr').
    unfold submit_request, bind.
    destruct (submit_request_start cfg rt params cb true q) as [r q1].
    destruct (submit_request_start cfg rt params cb false q) as [r' q1'].
    cbn [fst snd] in *. subst r r'. cbn. auto.
Qed.

Lemma result_timeout_is_reported_as_queue_full_witness :
  fst (submit_request demo_config GET_BALANCE None None true (fun q => q)
         __init__) =
  Ret (Reply (failure_response 0 GET_BALANCE "Queue full" 1)).
Proof.
  destruct (result_timeout_is_reported_as_queue_full demo_config GET_BALANCE
              None None (fun q => q) __init__) as [H _].
  destruct H as [_ H]; [vm_compute; reflexivity | vm_compute; reflexivity |].
  exact H.
Defined.

End QueueInvariants.

(** * Further properties *)

(** ** Bounds of the back-off delay *)

Module BackoffBounds.
Import Config Backoff.





End BackoffBounds.

(** ** What [validate] accepts *)

Module ConfigValidity.
Import Config.




End ConfigValidity.

(** ** More on the client *)

Module ClientDataFacts.
Import Config Client ClientData.
Import ClientFacts.

(** *** Categories *)

Lemma prefix_app (s t : string) : String.prefix s (s ++ t)%string = true.
Proof.
  induction s as [|a s IH].
  - destruct t; reflexivity.
  - change (String.prefix (String a s) (String a (s ++ t)%string) = true).
    cbn [String.prefix].
    destruct (Ascii.ascii_dec a a); [exact IH|contradiction].
Qed.

Lemma contains_prefix (needle haystack : string) :
  String.prefix needle haystack = true -> contains needle haystack = true.
Proof. intros H. destruct haystack; cbn [contains]; rewrite H; reflexivity. Qed.

Lemma contains_app (needle before after : string) :
  contains needle (before ++ needle ++ after)%string = true.
Proof.
  induction before as [|a before IH].
  - change (contains needle (needle ++ after)%string = true).
    apply contains_prefix, prefix_app.
  - change (contains needle (String a (before ++ needle ++ after)%string)
            = true).
    cbn [contains]. rewrite IH. apply orb_true_r.
Qed.

(** X3: A name that holds one of the six currency codes anywhere is "forex",
    also when it holds the symbol of a crypto currency (so "BTCUSD" is
    "forex"); whatever the name, the category is one of "forex", "crypto"
    and "other", and it is "crypto" only for a name without any of the six
    codes. *)
Theorem a_currency_code_makes_forex :
  (forall code before after,
     In code ["USD"; "EUR"; "GBP"; "JPY"; "AUD"; "CAD"] ->
     _categorize_asset (before ++ code ++ after)%string = "forex") /\
  (forall name,
     _categorize_asset name = "forex" \/ _categorize_asset name = "crypto" \/
     _categorize_asset name = "other") /\
  (forall name code,
     _categorize_asset name = "crypto" ->
     In code ["USD"; "EUR"; "GBP"; "JPY"; "AUD"; "CAD"] ->
     contains code name = false) /\
  _categorize_asset "BTCUSD" = "forex".
Proof.
  split; [|split; [|split]].
  - intros code before after Hin. unfold _categorize_asset.
    replace (existsb _ _) with true; [reflexivity|]. symmetry.
    apply existsb_exists. exists code. split; [exact Hin|].
    apply contains_app.
  - intros name. unfold _categorize_asset.
    destruct (existsb _ _); [auto|]. destruct (existsb _ _); auto.
  - intros name code Hc Hin. unfold _categorize_asset in Hc.
    destruct (existsb (fun curr => contains curr name) _) eqn:E;
      [discriminate|].
    destruct (contains code name) eqn:Hcode; [|reflexivity].
    assert (existsb (fun curr => contains curr name)
              ["USD"; "EUR"; "GBP"; "JPY"; "AUD"; "CAD"] = true)
      by (apply existsb_exists; eauto).
    congruence.
  - reflexivity.
Qed.

Lemma a_currency_code_makes_forex_witness :
  _categorize_asset ("ETH" ++ "EUR" ++ "-OTC")%string = "forex".
Proof.
  apply (proj1 a_currency_code_makes_forex "EUR" "ETH" "-OTC").
  cbn. auto.
Defined.

(** *** The balance *)

(** A connected client holds an API object. *)
Definition has_api (c : PyQuotexClient) : Prop :=
  _state c = CONNECTED -> _api c <> None.

Section Balance.
Variable cfg : QuotexConfig.
Variable session : Session.
Variable dry_run_balance : Q.

Lemma has_api_connect c : has_api c -> has_api (snd (connect cfg session c)).
Proof.
  intros H. destruct (decide (_state c = CONNECTED)) as [Hst|Hst].
  - rewrite (proj1 (connect_outcomes cfg session c) Hst). exact H.
  - unfold has_api, connect. step_monad. cbn.
    rewrite bool_decide_false by assumption. cbn.
    destruct (dry_run cfg); cbn; [discriminate|].
    destruct (construct_outcome session _); cbn; [|discriminate].
    destruct (connect_outcome session _) as [[|] reason|msg]; cbn;
      discriminate.
Qed.

Lemma has_api_run ops c :
  has_api c -> has_api (run_ops cfg session ops c).
Proof.
  revert c. induction ops as [|o ops IH]; intros c H; [exact H|].
  change (has_api (run_ops cfg session ops (run_op cfg session o c))).
  apply IH. destruct o; cbn [run_op].
  - apply has_api_connect, H.
  - intros Hst.
    rewrite (proj1 (proj2 (disconnect_post cfg session c))) in Hst.
    discriminate.
  - destruct (WatchdogFacts.ping_frame cfg session c)
      as (b & events & -> & _).
    exact H.
Qed.

(** X4: [get_balance] never raises and leaves the state of the connection
    alone.  On a client that is not connected it returns [None] without a
    call of the API.  After any run of [connect], [disconnect] and [ping],
    whenever a probe would succeed [get_balance] returns a balance; but when
    the API answers [None] for the balance the probe fails while
    [get_balance] reports a real balance of zero. *)
Theorem a_successful_probe_means_a_balance (ops : list Op) :
  let c := run_ops cfg session ops __init__ in
  let probe := ping cfg session c in
  let answer := get_balance cfg session dry_run_balance c in
  (exists r, fst answer = Ret r) /\
  _state (snd answer) = _state c /\
  (fst probe = Ret true -> exists balance, fst answer = Ret (Some balance)) /\
  (is_connected c = false ->
   fst answer = Ret None /\
   count_events (is_api ApiGetBalance) (trace (snd answer)) =
     count_events (is_api ApiGetBalance) (trace c)) /\
  (is_connected c = true -> dry_run cfg = false ->
   get_balance_outcome session
     (count_events (is_api ApiGetBalance) (trace c)) = BalanceReturns None ->
   fst probe = Ret false /\
   fst answer = Ret (Some {| real := 0; demo := 0 |})).
Proof.
  cbv zeta.
  pose proof (has_api_run ops __init__ (fun H => ltac:(discriminate H)))
    as Hapi.
  set (c := run_ops cfg session ops __init__) in *.
  unfold has_api in Hapi. unfold get_balance, ping. step_monad.
  unfold is_connected in *. cbn.
  destruct (bool_decide (_state c = CONNECTED)) eqn:Hc; cbn.
  2: { split; [eauto|]. split; [reflexivity|]. split; [discriminate|].
       split; [|discriminate]. intros _. split; [reflexivity|].
       rewrite count_events_app. unfold count_events at 2. cbn. lia. }
  apply bool_decide_eq_true in Hc. specialize (Hapi Hc).
  destruct (_api c) as [api|]; [|contradiction]. clear Hapi.
  destruct (dry_run cfg); cbn.
  { split; [eauto|]. split; [reflexivity|]. split; [eauto|].
    split; discriminate. }
  destruct (get_balance_outcome session _) as [[b|]| |msg] eqn:E; cbn;
    (split; [eauto|]); (split; [reflexivity|]);
    (split; [first [discriminate | eauto]|]);
    (split; [discriminate|]); intros _ _; try discriminate.
  intros _. split; reflexivity.
Qed.

End Balance.

(** *** Subscriptions at disconnection *)

(** Every subscription is filed under the key made of its asset and its
    period, as [subscribe_candles] files it. *)
Definition filed_by_key (kv : string * Subscription) : Prop :=
  fst kv = sub_key (sub_asset (snd kv)) (sub_period (snd kv)).

Lemma dict_get_del {V} (k k' : string) (d : list (string * V)) :
  dict_get k (dict_del k' d) = if String.eqb k' k then None else dict_get k d.
Proof.
  unfold dict_del. induction d as [|[k0 v] d IH].
  - cbn. destruct (String.eqb k' k); reflexivity.
  - cbn [List.filter fst]. destruct (String.eqb k' k0) eqn:E0; cbn [negb].
    + rewrite IH. apply String.eqb_eq in E0. subst k0. cbn [dict_get].
      destruct (String.eqb k' k) eqn:E; [reflexivity|].
      rewrite String.eqb_sym, E. reflexivity.
    + cbn [dict_get]. rewrite IH.
      destruct (String.eqb k k0) eqn:E1; [|reflexivity].
      apply String.eqb_eq in E1. subst k0. rewrite E0. reflexivity.
Qed.

Lemma dict_del_set {V} (k : string) (v : V) (d : list (string * V)) :
  dict_get k d <> None -> dict_del k (dict_set k v d) = dict_del k d.
Proof.
  intros H. unfold dict_set. destruct (dict_get k d); [|contradiction].
  unfold dict_del. clear H. induction d as [|[k0 v1] d IH]; [reflexivity|].
  cbn [map List.filter fst].
  destruct (String.eqb k k0) eqn:E; cbn [fst negb];
    rewrite ?String.eqb_refl, ?E; cbn [negb]; rewrite IH; reflexivity.
Qed.

Lemma dict_del_absent {V} (k : string) (d : list (string * V)) :
  ~ In k (map fst d) -> dict_del k d = d.
Proof.
  unfold dict_del. intros H. induction d as [|[k0 v0] d IH]; [reflexivity|].
  cbn [List.filter fst map] in *. destruct (String.eqb k k0) eqn:E.
  - apply String.eqb_eq in E. subst. exfalso. apply H. left. reflexivity.
  - cbn [negb]. rewrite IH; [reflexivity|].
    intros Hin. apply H. right. exact Hin.
Qed.

(** The trace of the client holds [n] events of the kind [p]. *)
Definition counts (p : Event -> bool) (n : nat) (c : PyQuotexClient) : Prop :=
  count_events p (trace c) = n.

Lemma counts_emit p n e : p e = false -> preserves (counts p n) (emit e).
Proof.
  intros He c H. unfold counts, emit, modify in *. cbn.
  rewrite count_events_app, H. unfold count_events. cbn. rewrite He. cbn. lia.
Qed.

Ltac counts_step :=
  match goal with
  | |- forall _, _ => intro
  | |- preserves _ (emit _) => apply counts_emit; reflexivity
  | |- preserves _ (log _ _ _) => apply counts_emit; reflexivity
  | |- preserves _ (api_call _) => unfold api_call
  | |- preserves _ (bind _ _) => apply preserves_bind
  | |- preserves _ (ret _) => apply preserves_ret
  | |- preserves _ (raise _) => apply preserves_raise
  | |- preserves _ get => apply preserves_get
  | |- preserves _ (gets _) => apply preserves_gets
  | |- preserves _ (modify _) => apply preserves_modify; intros ? H; exact H
  | |- preserves _ (try_except _ _) => apply preserves_try_except
  | |- preserves _ (match ?x with _ => _ end) => destruct x
  end.

Section Cleanup.
Variable cfg : QuotexConfig.
Variable session : Session.

Lemma unsubscribe_effect asset period c sub :
  dict_get (sub_key asset period) (_subscriptions c) = Some sub ->
  let r := unsubscribe_candles cfg session asset period c in
  fst r = Ret true /\
  _subscriptions (snd r) = dict_del (sub_key asset period) (_subscriptions c) /\
  _candle_callbacks (snd r) =
    dict_del (sub_key asset period) (_candle_callbacks c) /\
  _state (snd r) = _state c /\ _api (snd r) = _api c /\
  _connection_lock (snd r) = _connection_lock c.
Proof.
  intros Hget. cbv zeta. unfold unsubscribe_candles. step_monad.
  cbn -[dict_del dict_set dict_get sub_key].
  rewrite Hget. cbn -[dict_del dict_set dict_get sub_key].
  assert (Hdel : dict_del (sub_key asset period)
                   (dict_set (sub_key asset period)
                      {| sub_asset := sub_asset sub;
                         sub_period := sub_period sub;
                         sub_active := false |} (_subscriptions c)) =
                 dict_del (sub_key asset period) (_subscriptions c))
    by (apply dict_del_set; rewrite Hget; discriminate).
  destruct (negb (dry_run cfg) && _);
    cbn -[dict_del dict_set dict_get sub_key];
    [destruct (stop_candles_stream_outcome session _);
     cbn -[dict_del dict_set dict_get sub_key]|];
    rewrite Hdel; repeat split; reflexivity.
Qed.

Lemma cleanup_all subs c :
  _subscriptions c = subs ->
  Forall filed_by_key subs ->
  NoDup (map fst subs) ->
  exists c',
    cleanup_keys cfg session (map fst subs) c = (Ret tt, c') /\
    _subscriptions c' = [] /\
    _candle_callbacks c' =
      fold_left (fun d k => dict_del k d) (map fst subs)
        (_candle_callbacks c) /\
    _state c' = _state c /\ _api c' = _api c /\
    _connection_lock c' = _connection_lock c.
Proof.
  revert c. induction subs as [|[k sub] subs IH]; intros c Hsubs Hfiled Hnd.
  - exists c. cbn. rewrite Hsubs. repeat split; reflexivity.
  - cbn [map fst cleanup_keys]. unfold bind at 1, gets. cbn [fst snd].
    rewrite Hsubs. cbn [dict_get]. rewrite String.eqb_refl.
    apply List.Forall_cons_iff in Hfiled. destruct Hfiled as [Hk Hfiled].
    unfold filed_by_key in Hk. cbn [fst snd] in Hk.
    cbn [map fst] in Hnd. apply NoDup_cons in Hnd.
    destruct Hnd as [Hout Hnd].
    assert (Hget : dict_get (sub_key (sub_asset sub) (sub_period sub))
                     (_subscriptions c) = Some sub).
    { rewrite Hsubs, <- Hk. cbn. rewrite String.eqb_refl. reflexivity. }
    destruct (unsubscribe_effect _ _ c sub Hget)
      as (Hr & Hs & Hcb & Hst & Hapi & Hlock).
    cbv zeta in *. rewrite <- Hk in Hs, Hcb.
    unfold bind.
    destruct (unsubscribe_candles cfg session _ _ c) as [r c1].
    cbn [fst snd] in *. subst r.
    assert (Hrest : _subscriptions c1 = subs).
    { rewrite Hs, Hsubs. cbn. rewrite String.eqb_refl. cbn.
      apply dict_del_absent. intros Hin. apply Hout.
      apply list_elem_of_In, Hin. }
    destruct (IH c1 Hrest Hfiled Hnd)
      as (c' & Hrun & Hs' & Hcb' & Hst' & Hapi' & Hlock').
    exists c'. rewrite Hrun. cbn [fold_left].
    rewrite Hcb', Hcb, Hst', Hst, Hapi', Hapi, Hlock', Hlock.
    repeat split; assumption || reflexivity.
Qed.

Lemma counts_close_unsubscribe n asset period :
  preserves (counts (is_api ApiClose) n)
    (unsubscribe_candles cfg session asset period).
Proof. unfold unsubscribe_candles. repeat counts_step. Qed.

Lemma counts_close_cleanup n keys :
  preserves (counts (is_api ApiClose) n) (cleanup_keys cfg session keys).
Proof.
  induction keys as [|key keys IH]; cbn [cleanup_keys].
  - apply preserves_ret.
  - repeat counts_step; [apply counts_close_unsubscribe | exact IH].
Qed.

Lemma dict_get_del_all {V} (keys : list string) (d : list (string * V)) k :
  dict_get k (fold_left (fun d k => dict_del k d) keys d) =
  if existsb (String.eqb k) keys then None else dict_get k d.
Proof.
  revert d. induction keys as [|k0 keys IH]; intros d; [reflexivity|].
  cbn [fold_left existsb]. rewrite IH, dict_get_del.
  rewrite (String.eqb_sym k0 k).
  destruct (String.eqb k k0), (existsb (String.eqb k) keys); reflexivity.
Qed.

(** X5: [disconnect] on a client that is not disconnected drops every
    subscription, with the callbacks registered for its key, whatever the
    API does when asked to stop the streams or to close; the callbacks
    under other keys stay.  [_api] is cleared unless closing raised. *)
Theorem disconnect_drops_every_subscription (c : PyQuotexClient) :
  Forall filed_by_key (_subscriptions c) ->
  NoDup (map fst (_subscriptions c)) ->
  _state c <> DISCONNECTED ->
  let c' := snd (disconnect cfg session c) in
  _subscriptions c' = [] /\
  (forall k, In k (map fst (_subscriptions c)) ->
             dict_get k (_candle_callbacks c') = None) /\
  (forall k, ~ In k (map fst (_subscriptions c)) ->
             dict_get k (_candle_callbacks c') =
             dict_get k (_candle_callbacks c)) /\
  _state c' = DISCONNECTED /\
  (_api c' = None \/
   exists msg,
     close_outcome session (count_events (is_api ApiClose) (trace c)) =
       Raises msg).
Proof.
  intros Hfiled Hnd Hst. cbv zeta.
  assert (Hcb : forall c1,
            _candle_callbacks c1 =
              fold_left (fun d k => dict_del k d)
                (map fst (_subscriptions c)) (_candle_callbacks c) ->
            (forall k, In k (map fst (_subscriptions c)) ->
                       dict_get k (_candle_callbacks c1) = None) /\
            (forall k, ~ In k (map fst (_subscriptions c)) ->
                       dict_get k (_candle_callbacks c1) =
                       dict_get k (_candle_callbacks c))).
  { intros c1 ->. split; intros k Hk; rewrite dict_get_del_all.
    - replace (existsb _ _) with true; [reflexivity|]. symmetry.
      apply existsb_exists. exists k. split; [exact Hk|].
      apply String.eqb_refl.
    - destruct (existsb _ _) eqn:E; [|reflexivity].
      apply existsb_exists in E. destruct E as (k' & Hin & E).
      apply String.eqb_eq in E. subst k'. contradiction. }
  unfold disconnect, _cleanup_subscriptions. step_monad. cbn.
  rewrite bool_decide_false by assumption. cbn.
  match goal with
  | |- context [cleanup_keys cfg session _ ?s] =>
      destruct (cleanup_all (_subscriptions c) s eq_refl Hfiled Hnd)
        as (c1 & Hrun & Hs & Hcbs & Hst1 & Hapi1 & Hlock1)
  end.
  match type of Hrun with
  | cleanup_keys _ _ ?keys ?s = _ =>
      pose proof (counts_close_cleanup
                    (count_events (is_api ApiClose) (trace c)) keys s) as Hn
  end.
  unfold counts in Hn. rewrite Hrun in Hn. cbn [snd] in Hn.
  assert (Htrace : count_events (is_api ApiClose) (trace c1) =
                   count_events (is_api ApiClose) (trace c)).
  { apply Hn. cbn. rewrite count_events_app. unfold count_events at 2.
    cbn. lia. }
  rewrite Hrun. cbn in Hcbs, Hst1, Hapi1. cbn.
  destruct (Hcb c1 Hcbs) as [Hgone Hkept].
  destruct (bool_decide (_api c1 <> None) && negb (dry_run cfg)) eqn:Hclose;
    cbn.
  - rewrite Htrace.
    destruct (close_outcome session _) eqn:E; cbn.
    + repeat split; auto.
    + repeat split; eauto.
  - repeat split; auto.
Qed.

End Cleanup.

(** A connected client with one subscription and a callback for it. *)
Definition subscribed : PyQuotexClient :=
  set_candle_callbacks [(sub_key "EURUSD" 60, [1%nat])]
    (set_subscriptions
       [(sub_key "EURUSD" 60,
         {| sub_asset := "EURUSD"; sub_period := 60; sub_active := true |})]
       (set_api (Some Quotex) (set_state_field CONNECTED __init__))).

Definition failing_streams : Session :=
  {| construct_outcome := fun _ => Constructed;
     connect_outcome := fun _ => ConnectReturns true "";
     close_outcome := fun _ => Done;
     get_balance_outcome := fun _ => BalanceReturns None;
     stop_candles_stream_outcome := fun _ => Raises "stream is gone" |}.

Lemma disconnect_drops_every_subscription_witness :
  let c' := snd (disconnect (default_config "user" "secret" false)
                   failing_streams subscribed) in
  _subscriptions c' = [] /\
  dict_get (sub_key "EURUSD" 60) (_candle_callbacks c') = None /\
  _state c' = DISCONNECTED.
Proof.
  cbv zeta.
  destruct (disconnect_drops_every_subscription
              (default_config "user" "secret" false) failing_streams
              subscribed) as (H1 & H2 & _ & H4 & _).
  - repeat constructor.
  - cbn. apply NoDup_singleton.
  - discriminate.
  - split; [exact H1|]. split; [|exact H4]. apply H2. left. reflexivity.
Defined.

End ClientDataFacts.

(** ** More on the watchdog *)

Module WatchdogSequences.
Import Config Client Watchdog.
Import ClientFacts WatchdogFacts.

#[local] Arguments Client.connect : simpl never.
#[local] Arguments Client.disconnect : simpl never.
#[local] Arguments Client.ping : simpl never.
#[local] Arguments Client.emit : simpl never.









(** *** Forced reconnection *)





(** *** The reconnection hook *)

(** The client has seen [h] calls of the hook. *)
Definition hooks_seen (h : nat) (c : PyQuotexClient) : Prop :=
  count_events is_hook (Client.trace c) = h.

Lemma hooks_seen_emit h e :
  is_hook e = false -> preserves (hooks_seen h) (Client.emit e).
Proof.
  intros He c H. unfold hooks_seen in *. rewrite trace_emit, count_events_app.
  rewrite H. unfold count_events. cbn. rewrite He. cbn. lia.
Qed.

Ltac hooks_step :=
  match goal with
  | |- forall _, _ => intro
  | |- preserves _ (Client.assign_state _) => unfold Client.assign_state
  | |- preserves _ (Client.emit _) => apply hooks_seen_emit; reflexivity
  | |- preserves _ (Client.log _ _ _) => apply hooks_seen_emit; reflexivity
  | |- preserves _ (Client.sleep _) => apply hooks_seen_emit; reflexivity
  | |- preserves _ (Client.api_call _) => unfold Client.api_call
  | |- preserves _ (Client.with_connection_lock _) =>
      unfold Client.with_connection_lock
  | |- preserves _ (bind _ _) => apply preserves_bind
  | |- preserves _ (ret _) => apply preserves_ret
  | |- preserves _ (raise _) => apply preserves_raise
  | |- preserves _ get => apply preserves_get
  | |- preserves _ (gets _) => apply preserves_gets
  | |- preserves _ (modify _) => apply preserves_modify; intros ? H; exact H
  | |- preserves _ (try_except _ _) => apply preserves_try_except
  | |- preserves _ (finally _ _) =>
      apply preserves_finally; [|intros ? H; exact H]
  | |- preserves _ (match ?x with _ => _ end) => destruct x
  end.

Section Hook.
Variable cfg : QuotexConfig.
Variable session : Session.
Variable on_reconnect : option (nat -> UnitOutcome).
Variable stop_during_sleep : nat -> bool.

#[local] Arguments Client.connect : simpl nomatch.
#[local] Arguments Client.disconnect : simpl nomatch.
#[local] Arguments Client.ping : simpl nomatch.

Lemma hooks_seen_connect h :
  preserves (hooks_seen h) (Client.connect cfg session).
Proof. unfold Client.connect. repeat hooks_step. Qed.

Lemma hooks_seen_unsubscribe h asset period :
  preserves (hooks_seen h) (Client.unsubscribe_candles cfg session asset period).
Proof. unfold Client.unsubscribe_candles. repeat hooks_step. Qed.

Lemma hooks_seen_cleanup h keys :
  preserves (hooks_seen h) (Client.cleanup_keys cfg session keys).
Proof.
  induction keys as [|key keys IH]; cbn [Client.cleanup_keys].
  - apply preserves_ret.
  - repeat hooks_step; [apply hooks_seen_unsubscribe | exact IH].
Qed.

Lemma hooks_seen_disconnect h :
  preserves (hooks_seen h) (Client.disconnect cfg session).
Proof.
  unfold Client.disconnect, Client._cleanup_subscriptions.
  repeat (hooks_step || apply hooks_seen_cleanup).
Qed.

Lemma hooks_seen_ping h :
  preserves (hooks_seen h) (Client.ping cfg session).
Proof. unfold Client.ping. repeat hooks_step. Qed.

(** The watchdog has called the hook [h] times and counted [t]
    reconnections. *)
Definition tally (h : nat) (t : Z) (w : ConnectionWatchdog) : Prop :=
  hooks_seen h (client w) /\ _total_reconnects w = t.

(** The calls of the hook that a reconnection makes. *)
Definition hook_calls : nat :=
  match on_reconnect with Some _ => 1 | None => 0 end.

Lemma tally_on_client {A} h t (m : M PyQuotexClient A) :
  preserves (hooks_seen h) m -> preserves (tally h t) (on_client m).
Proof.
  intros Hm w [Hh Ht]. rewrite on_client_eq. split; [|exact Ht].
  cbn [client set_client]. apply Hm, Hh.
Qed.

Lemma tally_log h t level text args :
  preserves (tally h t) (log level text args).
Proof. apply tally_on_client, hooks_seen_emit. reflexivity. Qed.

Lemma tally_monitor_sleep h t seconds :
  preserves (tally h t) (monitor_sleep stop_during_sleep seconds).
Proof.
  unfold monitor_sleep.
  apply preserves_bind; [apply preserves_get|]. intros w.
  apply preserves_bind;
    [apply tally_on_client, hooks_seen_emit; reflexivity|]. intros _.
  destruct (stop_during_sleep _); [|apply preserves_ret].
  apply preserves_bind; [|intros; apply preserves_raise].
  apply preserves_modify. intros s H. exact H.
Qed.

Lemma count_hook_snoc t e :
  count_events is_hook (t ++ [e]) =
  (count_events is_hook t + if is_hook e then 1 else 0)%nat.
Proof.
  rewrite count_events_app. unfold count_events. cbn.
  destruct (is_hook e); reflexivity.
Qed.

Lemma tally_call_on_reconnect h t :
  hoare (tally h t) (call_on_reconnect on_reconnect)
    (fun r w => r = Ret tt /\ tally (h + hook_calls) t w).
Proof.
  intros w [Hh Ht]. split; [apply call_on_reconnect_returns|].
  unfold call_on_reconnect, hook_calls, hooks_seen in *.
  destruct on_reconnect as [hook|];
    [|rewrite Nat.add_0_r; split; assumption].
  unfold try_except, try_catch, bind, get. cbn [fst snd].
  rewrite on_client_eq, emit_eq. cbn [fst snd].
  destruct (hook _); cbn [is_Exception ret raise fst snd].
  - split; [|exact Ht]. unfold hooks_seen. cbn [client set_client Client.trace Client.set_trace].
    rewrite count_hook_snoc, Hh. reflexivity.
  - unfold log, Client.log. rewrite on_client_eq, emit_eq. cbn [fst snd].
    split; [|exact Ht]. unfold hooks_seen.
    cbn [client set_client Client.trace Client.set_trace].
    rewrite !count_hook_snoc, Hh. cbn. lia.
Qed.

(** How the loop of [_handle_disconnect] leaves the tally. *)
Definition tally_after_loop (h : nat) (t : Z) (r : result LoopExit)
  (w : ConnectionWatchdog) : Prop :=
  match r with
  | Ret Returned => tally (h + hook_calls) (t + 1) w
  | _ => tally h t w
  end.

Lemma reconnect_loop_tally h t fuel retry_count :
  hoare (tally h t)
    (reconnect_loop cfg session on_reconnect stop_during_sleep
       fuel retry_count)
    (tally_after_loop h t).
Proof.
  revert retry_count. induction fuel as [|fuel IH]; intros retry_count;
    cbn [reconnect_loop].
  - apply hoare_seq; [apply preserves_gets| |intros e s H; exact H].
    intros running. destruct (running && _); apply hoare_ret; auto.
  - apply hoare_seq; [apply preserves_gets| |intros e s H; exact H].
    intros running. destruct (running && _); [|apply hoare_ret; auto].
    apply hoare_seq; [apply tally_log| |intros e s H; exact H].
    intros _.
    apply hoare_seq; [apply tally_monitor_sleep| |intros e s H; exact H].
    intros _.
    apply hoare_seq; [apply preserves_gets| |intros e s H; exact H].
    intros running'. destruct (negb running'); [apply hoare_ret; auto|].
    eapply hoare_bind with
      (R := fun r w => match r with
                       | Ret None => tally (h + hook_calls) (t + 1) w
                       | _ => tally h t w
                       end).
    + eapply hoare_try_except with
        (R := fun r w => match r with
                         | Ret None => tally (h + hook_calls) (t + 1) w
                         | _ => tally h t w
                         end).
      * apply hoare_seq;
          [apply tally_on_client, hooks_seen_disconnect|
          |intros e s H; exact H].
        intros _.
        apply hoare_seq; [apply tally_monitor_sleep| |intros e s H; exact H].
        intros _.
        apply hoare_seq;
          [apply tally_on_client, hooks_seen_connect| |intros e s H; exact H].
        intros [|].
        -- apply hoare_seq; [apply tally_log| |intros e s H; exact H].
           intros _.
           apply hoare_modify_then with (P' := tally h (t + 1)).
           { intros s [Hh Ht]. split; [exact Hh|]. cbn. congruence. }
           apply hoare_modify_then with (P' := tally h (t + 1)).
           { intros s H. exact H. }
           eapply hoare_bind; [apply tally_call_on_reconnect| |].
           ++ intros []. apply hoare_ret. intros s [_ H]. exact H.
           ++ intros e s [H _]. discriminate H.
        -- apply hoare_seq; [apply tally_log| |intros e s H; exact H].
           intros _. apply hoare_ret. auto.
      * intros a s H. exact H.
      * intros e.
        apply hoare_seq; [apply tally_log| |intros e' s H; exact H].
        intros _. apply hoare_ret. auto.
      * intros e s H. exact H.
    + intros [retry_count'|]; [apply IH | apply hoare_ret; auto].
    + intros e s H. exact H.
Qed.

(** The tally moved by a reconnection, or not at all. *)
Definition tally_moved (h : nat) (t : Z) (w : ConnectionWatchdog) : Prop :=
  tally (h + hook_calls) (t + 1) w \/ tally h t w.

Lemma tally_moved_log h t level text args :
  preserves (tally_moved h t) (log level text args).
Proof. intros s [H|H]; [left|right]; apply (tally_log _ _ _ _ _ s H). Qed.

Lemma tally_moved_monitor_sleep h t seconds :
  preserves (tally_moved h t) (monitor_sleep stop_during_sleep seconds).
Proof.
  intros s [H|H]; [left|right]; apply (tally_monitor_sleep _ _ _ s H).
Qed.

Lemma handle_disconnect_tally h t :
  hoare (tally h t)
    (_handle_disconnect cfg session on_reconnect stop_during_sleep)
    (fun _ => tally_moved h t).
Proof.
  unfold _handle_disconnect.
  apply hoare_seq; [apply tally_log| |intros e s H; right; exact H].
  intros _.
  eapply hoare_bind; [apply reconnect_loop_tally| |].
  - intros [|retry_count|]; cbn [tally_after_loop].
    + apply hoare_ret. intros s H. left. exact H.
    + destruct (_ <=? _); [|apply hoare_ret; intros s H; right; exact H].
      intros s H. right. apply (tally_log h t _ _ _ s H).
    + apply hoare_ret. intros s H. right. exact H.
  - intros e s H. right. exact H.
Qed.

Lemma force_reconnect_tally h t :
  hoare (tally h t) (force_reconnect cfg session on_reconnect)
    (fun _ => tally_moved h t).
Proof.
  unfold force_reconnect.
  apply hoare_seq; [apply tally_log| |intros e s H; right; exact H].
  intros _.
  eapply hoare_try_except with (R := fun _ => tally_moved h t).
  - apply hoare_seq;
      [apply tally_on_client, hooks_seen_disconnect|
      |intros e s H; right; exact H].
    intros _.
    apply hoare_seq;
      [apply tally_on_client, hooks_seen_emit; reflexivity|
      |intros e s H; right; exact H].
    intros _.
    apply hoare_seq;
      [apply tally_on_client, hooks_seen_connect|
      |intros e s H; right; exact H].
    intros [|].
    + eapply hoare_bind with (R := fun _ => tally (h + hook_calls) (t + 1)).
      * apply hoare_modify_then with (P' := tally h (t + 1)).
        { intros s [Hh Ht]. split; [exact Hh|]. cbn. congruence. }
        apply hoare_modify_then with (P' := tally h (t + 1)).
        { intros s H. exact H. }
        intros s Hs. apply (tally_call_on_reconnect h (t + 1) s Hs).
      * intros _. apply hoare_ret. intros s H. left. exact H.
      * intros e s H. left. exact H.
    + apply hoare_seq; [apply preserves_ret| |intros e s H; right; exact H].
      intros _. apply hoare_ret. intros s H. right. exact H.
  - intros a s H. exact H.
  - intros e. apply hoare_silent with (I := tally_moved h t).
    apply preserves_bind; [apply tally_moved_log|]. intros _.
    apply preserves_ret.
  - intros e s H. exact H.
Qed.

Lemma tally_check_connection h t :
  preserves (tally h t) (_check_connection cfg session).
Proof.
  unfold _check_connection.
  apply preserves_bind; [apply preserves_get|]. intros w.
  destruct (bool_decide _); [apply preserves_ret|].
  apply preserves_try_except; [apply tally_on_client, hooks_seen_ping|].
  intros e. apply preserves_bind; [apply tally_log|].
  intros _. apply preserves_ret.
Qed.

Lemma hoare_try_catch {S A} (P : S -> Prop) (body : M S A) handler R Q :
  hoare P body R ->
  (forall a s, R (Ret a) s -> Q (Ret a) s) ->
  (forall e h, handler e = Some h -> hoare (R (Raise e)) h Q) ->
  (forall e s, handler e = None -> R (Raise e) s -> Q (Raise e) s) ->
  hoare P (try_catch body handler) Q.
Proof.
  intros Hb Hr Hh Hn s Hs. specialize (Hb s Hs). unfold try_catch.
  destruct (body s) as [[a|e] s']; cbn [fst snd] in *; [apply Hr, Hb|].
  destruct (handler e) as [h|] eqn:E; [apply (Hh e h E), Hb | apply Hn; auto].
Qed.

Lemma monitor_iteration_tally h t :
  hoare (tally h t)
    (monitor_iteration cfg session on_reconnect stop_during_sleep)
    (fun _ => tally_moved h t).
Proof.
  unfold monitor_iteration.
  eapply hoare_try_catch with (R := fun _ => tally_moved h t).
  - apply hoare_seq;
      [apply tally_monitor_sleep| |intros e s H; right; exact H].
    intros _.
    apply hoare_seq; [apply preserves_gets| |intros e s H; right; exact H].
    intros running. destruct (negb running);
      [apply hoare_ret; intros s H; right; exact H|].
    apply hoare_seq;
      [apply tally_check_connection| |intros e s H; right; exact H].
    intros [|].
    + apply hoare_seq;
        [apply preserves_modify; intros s H; exact H|
        |intros e s H; right; exact H].
      intros _.
      apply hoare_seq; [apply preserves_gets| |intros e s H; right; exact H].
      intros failures.
      apply hoare_seq; [| |intros e s H; right; exact H].
      * destruct (0 <? failures); [|apply preserves_ret].
        apply preserves_bind; [apply tally_log|]. intros _.
        apply preserves_modify. intros s H. exact H.
      * intros _. apply hoare_ret. intros s H. right. exact H.
    + apply hoare_seq;
        [apply preserves_modify; intros s H; exact H|
        |intros e s H; right; exact H].
      intros _.
      apply hoare_seq;
        [apply preserves_modify; intros s H; exact H|
        |intros e s H; right; exact H].
      intros _.
      apply hoare_seq; [apply preserves_gets| |intros e s H; right; exact H].
      intros failures.
      apply hoare_seq; [apply tally_log| |intros e s H; right; exact H].
      intros _.
      eapply hoare_bind; [apply handle_disconnect_tally| |].
      * intros []. apply hoare_ret. intros s H. exact H.
      * intros e s H. exact H.
  - intros a s H. exact H.
  - intros e handler He. destruct e; injection He as <-.
    all: try (apply hoare_ret; intros s H; exact H).
    all: apply hoare_silent with (I := tally_moved h t);
      apply preserves_bind; [apply tally_moved_log|]; intros _;
      apply preserves_bind; [apply tally_moved_monitor_sleep|]; intros _;
      apply preserves_ret.
  - intros e s He. destruct e; discriminate He.
Qed.

(** The hook has been called as often as reconnections were counted, up to
    a difference [d] that never changes. *)
Definition in_step (d : Z) (w : ConnectionWatchdog) : Prop :=
  Z.of_nat (count_events is_hook (Client.trace (client w))) =
  Z.of_nat hook_calls * _total_reconnects w + d.

Lemma in_step_of_tally d h t w :
  Z.of_nat h = Z.of_nat hook_calls * t + d ->
  tally_moved h t w -> in_step d w.
Proof.
  unfold in_step, tally_moved, tally, hooks_seen.
  intros Hd [[-> ->]|[-> ->]]; lia.
Qed.

Lemma in_step_monitor_loop d turns :
  preserves (in_step d)
    (_monitor_loop cfg session on_reconnect stop_during_sleep turns).
Proof.
  induction turns as [|turns IH]; cbn [_monitor_loop].
  - apply preserves_bind; [apply preserves_gets|]. intros running.
    destruct (negb running); apply preserves_ret.
  - apply preserves_bind; [apply preserves_gets|]. intros running.
    destruct (negb running); [apply preserves_ret|].
    apply preserves_bind.
    + intros s Hs.
      eapply in_step_of_tally;
        [|apply (monitor_iteration_tally _ _ s (conj eq_refl eq_refl))].
      exact Hs.
    + intros [|]; [exact IH | apply preserves_ret].
Qed.

End Hook.

(** X8: The hook given to the watchdog is called once for every reconnection
    that [_total_reconnects] counts, and at no other time: over any number
    of turns of the monitor loop and over a forced reconnect the calls of
    the hook grow exactly as the counter does (and not at all when no hook
    was given). *)
Theorem hook_called_once_per_reconnect
  (cfg : QuotexConfig) (session : Session)
  (on_reconnect : option (nat -> UnitOutcome))
  (stop_during_sleep : nat -> bool) (turns : nat) (w : ConnectionWatchdog) :
  let calls w := Z.of_nat (count_events is_hook (Client.trace (client w))) in
  let per_reconnect := match on_reconnect with Some _ => 1 | None => 0 end in
  let looped :=
    snd (_monitor_loop cfg session on_reconnect stop_during_sleep turns w) in
  let forced := snd (force_reconnect cfg session on_reconnect w) in
  calls looped - calls w =
    per_reconnect * (_total_reconnects looped - _total_reconnects w) /\
  calls forced - calls w =
    per_reconnect * (_total_reconnects forced - _total_reconnects w).
Proof.
  cbv zeta.
  set (d := Z.of_nat (count_events is_hook (Client.trace (client w))) -
            Z.of_nat (hook_calls on_reconnect) * _total_reconnects w).
  assert (Hw : in_step on_reconnect d w) by (unfold in_step, d; lia).
  assert (Hk : Z.of_nat (hook_calls on_reconnect) =
               match on_reconnect with Some _ => 1 | None => 0 end)
    by (unfold hook_calls; destruct on_reconnect; reflexivity).
  split.
  - pose proof (in_step_monitor_loop cfg session on_reconnect
                  stop_during_sleep d turns w Hw) as H.
    unfold in_step in *. rewrite <- Hk. lia.
  - pose proof (force_reconnect_tally cfg session on_reconnect _ _ w
                  (conj eq_refl eq_refl)) as H.
    apply (in_step_of_tally on_reconnect d) in H; [|exact Hw].
    unfold in_step in *. rewrite <- Hk. lia.
Qed.

End WatchdogSequences.

(** ** The shape of the queue in every run *)

Module QueueShape.
Import Config Queue QueueFacts.

Ltac run_worker_in H :=
  cbv beta iota zeta delta
    [worker_step worker_handlers handle_response resolve_and_finish
     callback_returns task_done again set_worker datetime_now log
     bind ret raise get gets modify try_except try_catch is_Exception
     fst snd] in H.

(** Case analysis on whatever the computation in [H] still waits for. *)
Ltac branch H :=
  repeat (match type of H with
          | context [match ?x with _ => _ end] =>
              lazymatch x with
              | context [match _ with _ => _ end] => fail
              | _ => let E := fresh "E" in destruct x eqn:E
              end
          end; cbn in H).

Section Shape.
Variable cfg : QuotexConfig.
Variable client_outcome : Request.t -> ClientCall -> CallOutcome.
Variable callback_outcome : Callback -> Response.t -> UnitOutcome.

(** The requests that a worker holds: the one it is processing, or the one
    whose callback it is awaiting. *)
Definition in_hand (w : Worker) : nat :=
  length (flight_of w) + length (callback_of w).

Ltac arith_facts :=
  repeat match goal with
    | E : (_ <=? _) = true |- _ => apply Z.leb_le in E
    | E : (_ <=? _) = false |- _ => apply Z.leb_gt in E
    end.

Ltac conclude_tasks Hw H :=
  subst; cbn;
  first
    [ left; reflexivity
    | exfalso; first [specialize (H _ Hw) | specialize (H _ eq_refl)];
      cbn in H;
      repeat match goal with
        | E : ?l = _ |- _ => rewrite E in H
        end;
      cbn in H; arith_facts; lia
    | right; eexists _, _; split; [first [exact Hw | reflexivity]|];
      split; [reflexivity|];
      split; [discriminate|];
      split; [intros; congruence|];
      cbn;
      repeat match goal with
        | E : ?l = _ |- context [?l] => rewrite E
        end;
      cbn; lia ].

(** A step of a worker never ends in the last handler of the loop, and it
    calls [task_done] once for the request whose turn it ends. *)
Lemma worker_step_tasks i q :
  let q' := snd (worker_step client_outcome callback_outcome i q) in
  (forall wo, _workers q !! i = Some wo ->
     Z.of_nat (in_hand wo + length (taken i q)) <= _unfinished_tasks q) ->
  q' = q \/
  exists wo w',
    _workers q !! i = Some wo /\
    _workers q' = <[i := w']> (_workers q) /\
    w' <> Sleeping /\
    (_running q = true -> w' <> Finished) /\
    _unfinished_tasks q' - Z.of_nat (length (_queue q') + in_hand w') =
    _unfinished_tasks q - Z.of_nat (length (_queue q) + in_hand wo).
Proof.
  cbv zeta. unfold taken, in_hand. intros H.
  remember (worker_step client_outcome callback_outcome i q) as res eqn:Hres.
  unfold worker_step in Hres. unfold bind at 1 in Hres.
  unfold get at 1 in Hres. cbv beta iota in Hres.
  destruct (_workers q !! i) as [[| request call | request response | |]|] eqn:Hw.
  - destruct (_queue q) as [|request rest] eqn:Hq.
    + run_worker_in Hres. branch Hres; conclude_tasks Hw H.
    + destruct (client_call_of request) as [call|e] eqn:Hc;
        run_worker_in Hres; cbn in Hres; branch Hres; conclude_tasks Hw H.
  - run_worker_in Hres; cbn in Hres; branch Hres; conclude_tasks Hw H.
  - run_worker_in Hres; cbn in Hres; branch Hres; conclude_tasks Hw H.
  - run_worker_in Hres; cbn in Hres; branch Hres; conclude_tasks Hw H.
  - run_worker_in Hres; cbn in Hres; branch Hres; conclude_tasks Hw H.
  - run_worker_in Hres; cbn in Hres; branch Hres; conclude_tasks Hw H.
Qed.


(** [task_done] is not called outside the workers. *)
Lemma submit_start_tasks rt params cb wait_for_response q :
  _unfinished_tasks (snd (submit_request_start cfg rt params cb
                            wait_for_response q)) =
  if full cfg q then _unfinished_tasks q else _unfinished_tasks q + 1.
Proof.
  unfold submit_request_start, submit_handlers, put, new_future, uuid4,
    datetime_now, Queue.log.
  cbv beta iota zeta delta [bind ret raise get gets modify try_catch fst snd].
  unfold full.
  destruct wait_for_response; cbn;
    destruct ((0 <? request_queue_maxsize cfg) && _); reflexivity.
Qed.

Lemma submit_resume_tasks request q :
  _unfinished_tasks (snd (submit_request_resume request q)) =
  _unfinished_tasks q.
Proof.
  unfold submit_request_resume, submit_handlers, datetime_now, Queue.log.
  cbv beta iota zeta delta [bind ret raise get gets modify try_catch fst snd].
  destruct (Request.future request) as [f|]; cbn; [|reflexivity].
  destruct (futures q !! f) as [[| |]|]; reflexivity.
Qed.

Lemma start_tasks q : _unfinished_tasks (snd (start q)) = _unfinished_tasks q.
Proof.
  unfold start, Queue.log, bind, gets, modify. cbn.
  destruct (_running q); reflexivity.
Qed.

Lemma stop_tasks q : _unfinished_tasks (snd (stop q)) = _unfinished_tasks q.
Proof.
  unfold stop, Queue.log, bind, gets, modify. cbn.
  destruct (_running q); reflexivity.
Qed.

(** The requests that the queue still owes a [task_done]. *)
Definition owed (q : AsyncRequestQueue) : nat :=
  length (_queue q) + length (requests_in_flight (_workers q)) +
  length (callbacks_in_flight (_workers q)) +
  length (abandoned q) + length (cut_short q).

Record shape (q : AsyncRequestQueue) : Prop := {
  shape_bound :
    0 < request_queue_maxsize cfg ->
    Z.of_nat (length (_queue q)) <= request_queue_maxsize cfg;
  shape_order : exists gone, accepted q = gone ++ _queue q;
  shape_pool :
    if _running q then
      length (_workers q) = _num_workers /\
      Forall (fun w => w <> Finished) (_workers q)
    else _workers q = [];
  shape_awake : Forall (fun w => w <> Sleeping) (_workers q);
  shape_tasks : _unfinished_tasks q = Z.of_nat (owed q)
}.

Lemma shape_init : shape __init__.
Proof.
  split; cbn; try constructor; try reflexivity.
  - intros. lia.
  - exists []. reflexivity.
Qed.

Lemma shape_start q : shape q -> shape (snd (start q)).
Proof.
  intros [Hb Ho Hp Ha Ht].
  destruct (start_effect q)
    as (Hr & Hw & _ & Hq & Hacc & _ & Hab & Hcut & _).
  cbv zeta in *. pose proof (start_tasks q) as Hu.
  destruct (_running q) eqn:E.
  - split; rewrite ?Hr, ?Hq, ?Hacc, ?Hw, ?Hu; try assumption.
    unfold owed. rewrite Hq, Hw, Hab, Hcut. exact Ht.
  - rewrite Hp in Hw. cbn [app] in Hw.
    split; rewrite ?Hr, ?Hq, ?Hacc, ?Hw, ?Hu; try assumption.
    + split; [reflexivity|]. repeat constructor; discriminate.
    + repeat constructor; discriminate.
    + unfold owed in *. rewrite Hq, Hw, Hab, Hcut, Ht, Hp. reflexivity.
Qed.

Lemma shape_stop q : shape q -> shape (snd (stop q)).
Proof.
  intros [Hb Ho Hp Ha Ht].
  destruct (stop_effect q) as (Hr & Hw & _ & Hq & Hacc & _).
  cbv zeta in *. pose proof (stop_tasks q) as Hu.
  destruct (_running q) eqn:E.
  - destruct Hw as (Hw & Hab & Hcut).
    split; rewrite ?Hr, ?Hq, ?Hacc, ?Hw, ?Hu; try assumption;
      try constructor.
    unfold owed in *. rewrite Hq, Hw, Hab, Hcut, Ht, !length_app. cbn. lia.
  - destruct Hw as (Hw & Hab & Hcut).
    split; rewrite ?Hr, ?Hq, ?Hacc, ?Hw, ?Hu; try assumption.
    unfold owed. rewrite Hq, Hw, Hab, Hcut. exact Ht.
Qed.

Lemma shape_submit rt params cb wait_for_response q :
  shape q ->
  shape (snd (submit_request_start cfg rt params cb wait_for_response q)).
Proof.
  intros [Hb Ho Hp Ha Ht].
  destruct (submit_start_effect cfg rt params cb wait_for_response q)
    as (_ & Hw & _ & Hab & Hcut & _ & _ & _ & Hr & _ & Heff).
  cbv zeta in *.
  pose proof (submit_start_tasks rt params cb wait_for_response q) as Hu.
  destruct (full cfg q) eqn:Hfull.
  - destruct Heff as (Hacc & Hq & _).
    split; rewrite ?Hr, ?Hq, ?Hacc, ?Hw, ?Hu; try assumption.
    unfold owed. rewrite Hq, Hw, Hab, Hcut. exact Ht.
  - destruct Heff as (Hacc & Hq & _).
    split; rewrite ?Hr, ?Hq, ?Hacc, ?Hw, ?Hu; try assumption.
    + intros Hpos. specialize (Hb Hpos). unfold full in Hfull.
      apply andb_false_iff in Hfull.
      destruct Hfull as [Hf|Hf]; [apply Z.ltb_ge in Hf; lia|].
      apply Z.leb_gt in Hf. rewrite length_app. cbn. lia.
    + destruct Ho as [gone Ho]. exists gone.
      rewrite Ho, <- app_assoc. reflexivity.
    + unfold owed in *. rewrite Hq, Hw, Hab, Hcut, Ht, length_app. cbn. lia.
Qed.

Lemma shape_resume request q :
  shape q -> shape (snd (submit_request_resume request q)).
Proof.
  intros [Hb Ho Hp Ha Ht].
  destruct (submit_resume_effect request q)
    as (_ & Hw & Hq & Hacc & _ & Hab & Hcut & _ & _ & _ & Hr & _).
  cbv zeta in *. pose proof (submit_resume_tasks request q) as Hu.
  split; rewrite ?Hr, ?Hq, ?Hacc, ?Hw, ?Hu; try assumption.
  unfold owed. rewrite Hq, Hw, Hab, Hcut. exact Ht.
Qed.

Lemma in_flight_lookup ws i wo :
  ws !! i = Some wo ->
  (in_hand wo <=
   length (requests_in_flight ws) + length (callbacks_in_flight ws))%nat /\
  forall w',
    (length (requests_in_flight (<[i := w']> ws)) +
     length (callbacks_in_flight (<[i := w']> ws)) + in_hand wo =
     length (requests_in_flight ws) + length (callbacks_in_flight ws) +
     in_hand w')%nat.
Proof.
  intros Hw.
  change requests_in_flight with (flat_map flight_of).
  change callbacks_in_flight with (flat_map callback_of).
  destruct (QueueInvariants.flat_map_insert flight_of ws i wo Hw)
    as (X & Y & H1 & H2).
  destruct (QueueInvariants.flat_map_insert callback_of ws i wo Hw)
    as (X' & Y' & H1' & H2').
  unfold in_hand. split.
  - rewrite H1, H1', !length_app. lia.
  - intros w'. rewrite H1, H1', H2, H2', !length_app. lia.
Qed.

Lemma shape_worker i q :
  shape q -> shape (snd (worker_step client_outcome callback_outcome i q)).
Proof.
  intros [Hb Ho Hp Ha Ht].
  destruct (worker_step_effect client_outcome callback_outcome i q)
    as (_ & _ & _ & _ & Hacc & Hab & Hcut & _ & Hr & Hq).
  cbv zeta in *.
  assert (Hroom : forall wo, _workers q !! i = Some wo ->
            Z.of_nat (in_hand wo + length (taken i q)) <= _unfinished_tasks q).
  { intros wo Hw. rewrite Ht. unfold owed.
    destruct (in_flight_lookup _ _ _ Hw) as [Hin _].
    rewrite Hq at 1. rewrite length_app. lia. }
  destruct (worker_step_tasks i q Hroom)
    as [Hsame|(wo & w' & Hw & Hws & Hawake & Hfin & Hu)].
  { cbv zeta in Hsame. rewrite Hsame. split; assumption. }
  cbv zeta in Hfin, Hu.
  split; rewrite ?Hr, ?Hacc, ?Hws.
  - intros Hpos. specialize (Hb Hpos). rewrite Hq, length_app in Hb. lia.
  - destruct Ho as [gone Ho]. exists (gone ++ taken i q).
    rewrite Ho, Hq at 1. rewrite <- app_assoc. reflexivity.
  - destruct (_running q) eqn:E.
    + destruct Hp as [Hlen Hall]. rewrite length_insert.
      split; [exact Hlen|]. apply Forall_insert; auto.
    + rewrite Hp in Hw. rewrite lookup_nil in Hw. discriminate.
  - apply Forall_insert; assumption.
  - destruct (in_flight_lookup _ _ _ Hw) as [Hin Hins].
    specialize (Hins w'). unfold owed in *. rewrite Hws, Hab, Hcut.
    rewrite Hq, length_app in Ht. rewrite Hq, length_app in Hu. lia.
Qed.

Lemma shape_run steps q :
  shape q -> shape (run cfg client_outcome callback_outcome steps q).
Proof.
  revert q. induction steps as [|s steps IH]; intros q H; [exact H|].
  cbn. apply IH. destruct s; cbn [step].
  - apply shape_start, H.
  - apply shape_stop, H.
  - apply shape_submit, H.
  - apply shape_resume, H.
  - apply shape_worker, H.
Qed.


Lemma resolve_keeps_value l m f st :
  m !! f = Some st -> st <> Pending -> foldr resolve m l !! f = Some st.
Proof.
  intros H Hst. induction l as [|a l IH]; [exact H|]. cbn [foldr].
  unfold resolve at 1. destruct (Request.future (fst a)) as [g|]; [|exact IH].
  destruct (foldr resolve m l !! g) as [[| |]|] eqn:E; try exact IH.
  destruct (decide (g = f)) as [->|Hne].
  - rewrite IH in E. congruence.
  - rewrite lookup_insert_ne by exact Hne. exact IH.
Qed.

Lemma resolve_domain l m f :
  is_Some (foldr resolve m l !! f) -> is_Some (m !! f).
Proof.
  induction l as [|a l IH]; [auto|]. cbn [foldr]. unfold resolve at 1.
  destruct (Request.future (fst a)) as [g|]; [|exact IH].
  destruct (foldr resolve m l !! g) as [[| |]|] eqn:E; try exact IH.
  destruct (decide (g = f)) as [->|Hne].
  - intros _. apply IH. rewrite E. eauto.
  - rewrite lookup_insert_ne by exact Hne. exact IH.
Qed.

(** Every future in the heap was made for an identifier already drawn. *)
Definition heap_fresh (q : AsyncRequestQueue) : Prop :=
  forall f, is_Some (futures q !! f) -> (f < uuids_drawn q)%nat.

Lemma settled_step s q f st :
  heap_fresh q ->
  futures q !! f = Some st -> st <> Pending ->
  let q' := step cfg client_outcome callback_outcome s q in
  heap_fresh q' /\ futures q' !! f = Some st.
Proof.
  intros Hfresh Hf Hst. cbv zeta. destruct s; cbn [step].
  - destruct (start_effect q) as (_ & _ & Hu & _ & _ & _ & _ & _ & _ & _ & _ & Hfut).
    cbv zeta in *. unfold heap_fresh. rewrite Hfut, Hu. auto.
  - destruct (stop_effect q) as (_ & _ & Hu & _ & _ & _ & _ & _ & _ & Hfut).
    cbv zeta in *. unfold heap_fresh. rewrite Hfut, Hu. auto.
  - destruct (submit_start_effect cfg rt params cb wait_for_response q)
      as (Hu & _ & _ & _ & _ & _ & _ & _ & _ & Hfut & _).
    cbv zeta in *. unfold heap_fresh. rewrite Hfut, Hu.
    assert (Hlt : (f < uuids_drawn q)%nat) by (apply Hfresh; eauto).
    destruct wait_for_response.
    + split.
      * intros g Hg. destruct (decide (uuids_drawn q = g)) as [<-|Hne]; [lia|].
        rewrite lookup_insert_ne in Hg by exact Hne.
        specialize (Hfresh g Hg). lia.
      * rewrite lookup_insert_ne by lia. exact Hf.
    + split; [|exact Hf]. intros g Hg. specialize (Hfresh g Hg). lia.
  - pose proof (submit_resume_effect request q) as Heff. cbv zeta in Heff.
    destruct Heff as (Hu & _ & _ & _ & _ & _ & _ & _ & _ & _ & _ & Heff).
    unfold heap_fresh. rewrite Hu.
    destruct (Request.future request) as [g|]; [|rewrite Heff; auto].
    destruct (futures q !! g) as [[| |]|] eqn:E;
      destruct Heff as [Hfut _]; rewrite Hfut; auto.
    split.
    + intros h Hh. destruct (decide (g = h)) as [<-|Hne].
      * apply Hfresh. rewrite E. eauto.
      * rewrite lookup_insert_ne in Hh by exact Hne. auto.
    + destruct (decide (g = f)) as [->|Hne]; [congruence|].
      rewrite lookup_insert_ne by exact Hne. exact Hf.
  - destruct (worker_step_effect client_outcome callback_outcome i q)
      as (_ & _ & _ & _ & _ & _ & _ & Hu & _).
    destruct (worker_step_moves client_outcome callback_outcome i q)
      as [Hsame|(wo & w' & _ & _ & _ & _ & Hfut & _)]; cbv zeta in *.
    + rewrite Hsame. auto.
    + unfold heap_fresh. rewrite Hfut, Hu. split.
      * intros g Hg. apply Hfresh. eapply resolve_domain, Hg.
      * apply resolve_keeps_value; assumption.
Qed.

Lemma heap_fresh_step s q :
  heap_fresh q -> heap_fresh (step cfg client_outcome callback_outcome s q).
Proof.
  intros Hfresh. destruct s; cbn [step].
  - destruct (start_effect q) as (_ & _ & Hu & _ & _ & _ & _ & _ & _ & _ & _ & Hfut).
    cbv zeta in *. unfold heap_fresh. rewrite Hfut, Hu. auto.
  - destruct (stop_effect q) as (_ & _ & Hu & _ & _ & _ & _ & _ & _ & Hfut).
    cbv zeta in *. unfold heap_fresh. rewrite Hfut, Hu. auto.
  - destruct (submit_start_effect cfg rt params cb wait_for_response q)
      as (Hu & _ & _ & _ & _ & _ & _ & _ & _ & Hfut & _).
    cbv zeta in *. unfold heap_fresh. rewrite Hfut, Hu.
    intros g Hg. destruct wait_for_response.
    + destruct (decide (uuids_drawn q = g)) as [<-|Hne]; [lia|].
      rewrite lookup_insert_ne in Hg by exact Hne.
      specialize (Hfresh g Hg). lia.
    + specialize (Hfresh g Hg). lia.
  - pose proof (submit_resume_effect request q) as Heff. cbv zeta in Heff.
    destruct Heff as (Hu & _ & _ & _ & _ & _ & _ & _ & _ & _ & _ & Heff).
    unfold heap_fresh. rewrite Hu.
    destruct (Request.future request) as [g|]; [|rewrite Heff; auto].
    destruct (futures q !! g) as [[| |]|] eqn:E;
      destruct Heff as [Hfut _]; rewrite Hfut; auto.
    intros h Hh. destruct (decide (g = h)) as [<-|Hne].
    + apply Hfresh. rewrite E. eauto.
    + rewrite lookup_insert_ne in Hh by exact Hne. auto.
  - destruct (worker_step_effect client_outcome callback_outcome i q)
      as (_ & _ & _ & _ & _ & _ & _ & Hu & _).
    destruct (worker_step_moves client_outcome callback_outcome i q)
      as [Hsame|(wo & w' & _ & _ & _ & _ & Hfut & _)]; cbv zeta in *.
    + rewrite Hsame. auto.
    + unfold heap_fresh. rewrite Hfut, Hu.
      intros g Hg. apply Hfresh. eapply resolve_domain, Hg.
Qed.

Lemma heap_fresh_run steps q :
  heap_fresh q ->
  heap_fresh (run cfg client_outcome callback_outcome steps q).
Proof.
  revert q. induction steps as [|s steps IH]; intros q H; [exact H|].
  cbn. apply IH, heap_fresh_step, H.
Qed.

Lemma settled_run steps q f st :
  heap_fresh q ->
  futures q !! f = Some st -> st <> Pending ->
  futures (run cfg client_outcome callback_outcome steps q) !! f = Some st.
Proof.
  revert q. induction steps as [|s steps IH]; intros q Hfresh Hf Hst;
    [exact Hf|].
  cbn. destruct (settled_step s q f st Hfresh Hf Hst) as [H1 H2].
  apply IH; assumption.
Qed.

Lemma same_identifier_same_request (l : list Request.t) x y :
  NoDup (map Request.request_id l) -> In x l -> In y l ->
  Request.request_id x = Request.request_id y -> x = y.
Proof.
  induction l as [|a l IH]; intros Hnd Hx Hy Hid; [destruct Hx|].
  cbn in Hnd. apply NoDup_cons in Hnd. destruct Hnd as [Hout Hnd].
  destruct Hx as [->|Hx], Hy as [->|Hy]; auto.
  - exfalso. apply Hout. rewrite Hid. apply list_elem_of_In, in_map, Hy.
  - exfalso. apply Hout. rewrite <- Hid. apply list_elem_of_In, in_map, Hx.
Qed.

End Shape.

Lemma heap_fresh_init : heap_fresh __init__.
Proof. intros f [st H]. cbn in H. rewrite lookup_empty in H. discriminate. Qed.

(** X9: In every run the queue holds at most [request_queue_maxsize] requests
    (when that is positive), the requests still queued are the last ones
    accepted, in the order of their acceptance, and a worker takes nothing
    but the head of the queue: requests leave in the order they came. *)
Theorem requests_leave_in_the_order_accepted
  (cfg : QuotexConfig)
  (client_outcome : Request.t -> ClientCall -> CallOutcome)
  (callback_outcome : Callback -> Response.t -> UnitOutcome)
  (steps : list Step) :
  let q := run cfg client_outcome callback_outcome steps __init__ in
  (0 < request_queue_maxsize cfg ->
   Z.of_nat (length (_queue q)) <= request_queue_maxsize cfg) /\
  (exists gone, accepted q = gone ++ _queue q) /\
  (forall i,
     let q' := step cfg client_outcome callback_outcome (StWorker i) q in
     exists took,
       _queue q = took ++ _queue q' /\ (length took <= 1)%nat /\
       accepted q' = accepted q).
Proof.
  cbv zeta.
  pose proof (shape_run cfg client_outcome callback_outcome steps __init__
                (shape_init cfg)) as H.
  split; [apply (shape_bound _ _ H)|].
  split; [apply (shape_order _ _ H)|].
  intros i. cbn [step].
  destruct (worker_step_effect client_outcome callback_outcome i
              (run cfg client_outcome callback_outcome steps __init__))
    as (_ & _ & _ & _ & Hacc & _ & _ & _ & _ & Hq).
  eexists. split; [exact Hq|]. split; [|exact Hacc].
  unfold taken. destruct (_workers _ !! i) as [[| | | |]|]; cbn; try lia.
  destruct (_queue _); cbn; lia.
Qed.

(** A queue of two places, and a client whose calls all return. *)
Definition small_queue : QuotexConfig :=
  {| email := ""; password := ""; ping_interval := 30; ping_timeout := 10;
     reconnect_max_retries := 10; reconnect_base_delay := 1;
     reconnect_max_delay := 300; reconnect_exponential_base := 2;
     min_payout := 80; preferred_assets := [];
     request_queue_maxsize := 2; callback_timeout := 30; dry_run := true;
     default_stake := 1; balance_update_interval := 5; log_level := "INFO" |}.

Definition always_returns (_ : Request.t) (_ : ClientCall) : CallOutcome :=
  Returned (VData 1).

Definition silent (_ : Callback) (_ : Response.t) : UnitOutcome := Done.

Lemma requests_leave_in_the_order_accepted_witness :
  let q := run small_queue always_returns silent
             (repeat (StSubmit GET_ASSETS None None false) 5) __init__ in
  Z.of_nat (length (_queue q)) <= 2 /\ length (accepted q) = 2%nat.
Proof.
  cbv zeta. split; [|vm_compute; reflexivity].
  apply (requests_leave_in_the_order_accepted small_queue always_returns
           silent (repeat (StSubmit GET_ASSETS None None false) 5)).
  reflexivity.
Defined.


(** X11: In every run [task_done] has been called once for each request whose
    turn a worker has ended, and never too often: the count of unfinished
    tasks of the queue is the number of requests still queued, held by a
    worker, or dropped by a [stop] that cancelled the worker holding them.
    So no worker ever comes into the last [except] clause of its loop. *)
Theorem unfinished_tasks_are_the_requests_not_done
  (cfg : QuotexConfig)
  (client_outcome : Request.t -> ClientCall -> CallOutcome)
  (callback_outcome : Callback -> Response.t -> UnitOutcome)
  (steps : list Step) :
  let q := run cfg client_outcome callback_outcome steps __init__ in
  _unfinished_tasks q =
    Z.of_nat (length (_queue q) +
              length (requests_in_flight (_workers q)) +
              length (callbacks_in_flight (_workers q)) +
              length (abandoned q) + length (cut_short q)) /\
  Forall (fun w => w <> Sleeping) (_workers q).
Proof.
  cbv zeta.
  pose proof (shape_run cfg client_outcome callback_outcome steps __init__
                (shape_init cfg)) as H.
  split; [apply (shape_tasks _ _ H) | apply (shape_awake _ _ H)].
Qed.

(** X12: The caller that waits for the response of its request gets a response
    to that request and to no other: the one that a worker built for it, or
    the failure made up when the wait ran out of time. *)
Theorem a_waiting_caller_gets_its_own_response
  (cfg : QuotexConfig)
  (client_outcome : Request.t -> ClientCall -> CallOutcome)
  (callback_outcome : Callback -> Response.t -> UnitOutcome)
  (steps : list Step) (request : Request.t) (response : Response.t) :
  let q := run cfg client_outcome callback_outcome steps __init__ in
  In request (accepted q) ->
  fst (submit_request_resume request q) = Ret (Reply response) ->
  Response.request_id response = Request.request_id request /\
  Response.request_type response = Request.request_type request /\
  (In (request, response) (answered q) \/
   (Response.success response = false /\
    futures q !! Request.request_id request = Some Pending)).
Proof.
  cbv zeta. intros Hin Hret.
  set (q := run cfg client_outcome callback_outcome steps __init__) in *.
  pose proof (QueueInvariants.invariant_run cfg client_outcome
                callback_outcome steps __init__
                QueueInvariants.invariant_init) as Hinv.
  fold q in Hinv.
  pose proof (QueueInvariants.inv_handle q Hinv) as Hhandle.
  rewrite List.Forall_forall in Hhandle.
  unfold submit_request_resume, submit_handlers, datetime_now, Queue.log
    in Hret.
  cbv beta iota zeta delta
    [bind ret raise get gets modify try_catch fst snd] in Hret.
  destruct (Request.future request) as [f|] eqn:Hf; cbn in Hret;
    [|discriminate].
  pose proof (Hhandle request Hin f Hf) as ->.
  destruct (futures q !! Request.request_id request) as [[|answer|]|] eqn:E;
    cbn in Hret; try discriminate.
  - injection Hret as <-. cbn. auto.
  - injection Hret as ->.
    destruct (QueueInvariants.inv_results q Hinv _ _ E)
      as (request' & Hans & Hf').
    pose proof (QueueInvariants.answered_accepted q (request', response)
                  Hinv Hans) as Hin'.
    cbn [fst] in Hin'.
    pose proof (Hhandle request' Hin' _ Hf') as Hid.
    assert (request' = request) as ->.
    { apply (same_identifier_same_request (accepted q));
        [apply (QueueInvariants.inv_distinct q Hinv) | | | ]; auto. }
    pose proof (QueueInvariants.answers_match_run cfg client_outcome
                  callback_outcome steps __init__ (List.Forall_nil _)) as Hm.
    fold q in Hm. rewrite List.Forall_forall in Hm.
    destruct (Hm _ Hans) as [H1 H2]. cbn [fst snd] in *. auto.
Qed.

Definition one_waiting : list Step :=
  [StStart; StSubmit GET_BALANCE None None true; StWorker 0; StWorker 0].

Lemma a_waiting_caller_gets_its_own_response_witness :
  let q := run small_queue always_returns silent one_waiting __init__ in
  let request := request_of GET_BALANCE None None true __init__ in
  let response := success_response request (VData 1) 1 in
  Response.request_id response = Request.request_id request /\
  Response.request_type response = Request.request_type request /\
  (In (request, response) (answered q) \/
   (Response.success response = false /\
    futures q !! Request.request_id request = Some Pending)).
Proof.
  cbv zeta.
  apply (a_waiting_caller_gets_its_own_response small_queue always_returns
           silent one_waiting).
  - vm_compute. left. reflexivity.
  - vm_compute. reflexivity.
Defined.

(** X13: A future is settled once: in every run, a future that holds a result or
    was cancelled by the wait of its caller stays as it is, whatever the
    steps that follow.  The request of a caller that gave up is carried out
    all the same: the worker that holds it builds its response, counts it
    and passes it to the callback, only the future is left alone. *)
Theorem a_settled_future_never_changes
  (cfg : QuotexConfig)
  (client_outcome : Request.t -> ClientCall -> CallOutcome)
  (callback_outcome : Callback -> Response.t -> UnitOutcome)
  (steps more : list Step) (f : nat) (st : FutureState) :
  let q := run cfg client_outcome callback_outcome steps __init__ in
  futures q !! f = Some st -> st <> Pending ->
  futures (run cfg client_outcome callback_outcome more q) !! f = Some st /\
  (forall i request call,
     _workers q !! i = Some (Processing request call) ->
     Request.future request = Some f ->
     let q' := step cfg client_outcome callback_outcome (StWorker i) q in
     exists response,
       answered q' = answered q ++ [(request, response)] /\
       callback_calls q' =
         callback_calls q ++ calls_for [(request, response)] /\
       _processed_count q' + _failed_count q' =
         _processed_count q + _failed_count q + 1 /\
       futures q' !! f = Some st).
Proof.
  cbv zeta. intros Hf Hst.
  pose proof (heap_fresh_run cfg client_outcome callback_outcome steps
                __init__ heap_fresh_init) as Hfresh.
  split; [apply settled_run; assumption|].
  intros i request call Hw Hfut. cbn [step].
  destruct (worker_step_effect client_outcome callback_outcome i
              (run cfg client_outcome callback_outcome steps __init__))
    as (Hans & Hp & Hfl & Hc & _).
  unfold built in Hans, Hp, Hfl, Hc. rewrite Hw in Hans, Hp, Hfl, Hc.
  eexists. split; [exact Hans|]. split; [exact Hc|]. split.
  - rewrite Hp, Hfl.
    pose proof (QueueInvariants.successes_failures) as Hsf.
    match goal with
    | |- _ + successes ?l + (_ + failures ?l) = _ =>
        specialize (Hsf l); cbn [length] in Hsf
    end.
    lia.
  - apply (settled_step cfg client_outcome callback_outcome (StWorker i));
      assumption.
Qed.

Definition gave_up : list Step :=
  [StStart; StSubmit GET_BALANCE None None true;
   StResume (request_of GET_BALANCE None None true __init__)].

Lemma a_settled_future_never_changes_witness :
  futures (run small_queue always_returns silent [StWorker 0; StWorker 0]
             (run small_queue always_returns silent gave_up __init__)) !! 0%nat
  = Some Cancelled.
Proof.
  apply (a_settled_future_never_changes small_queue always_returns silent
           gave_up [StWorker 0; StWorker 0] 0%nat Cancelled).
  - vm_compute. reflexivity.
  - discriminate.
Defined.

End QueueShape.

(** ** The entry points of the queue and the calls they lead to *)

Module QueueApiFacts.
Import Config Queue QueueFacts QueueApi.

(** The request that an entry point leaves in a queue that has room, and
    what it returns when the caller does not wait. *)
Lemma submitted_request cfg meanwhile rt params cb q :
  full cfg q = false ->
  let r := submit_request cfg rt params cb false meanwhile q in
  fst r = Ret (RequestId (uuids_drawn q)) /\
  accepted (snd r) = accepted q ++ [request_of rt params cb false q] /\
  _queue (snd r) = _queue q ++ [request_of rt params cb false q].
Proof.
  intros Hfull. cbv zeta.
  destruct (submit_start_effect cfg rt params cb false q)
    as (_ & _ & _ & _ & _ & _ & _ & _ & _ & _ & Heff).
  rewrite Hfull in Heff. destruct Heff as (Hacc & Hq & Hr).
  unfold submit_request, bind.
  destruct (submit_request_start cfg rt params cb false q) as [r q1].
  cbn [fst snd] in *. subst r. cbn. auto.
Qed.

(** X14: Every request made by [get_candles], [subscribe_candles] or
    [place_trade] carries all the parameters that [_process_request] looks
    up: the worker that takes it goes on to the call of the client with the
    arguments of the caller, [buy_and_check_win] when the caller of
    [place_trade] asked to wait for the result and [buy] otherwise.  A
    request of one of these types submitted without its parameters never
    reaches the client: the worker answers it with a failure whose error is
    the name of the missing key. *)
Theorem entry_points_supply_every_parameter
  (cfg : QuotexConfig) (meanwhile : AsyncRequestQueue -> AsyncRequestQueue)
  (client_outcome : Request.t -> ClientCall -> CallOutcome)
  (callback_outcome : Callback -> Response.t -> UnitOutcome)
  (q : AsyncRequestQueue) :
  (forall asset period count cb,
     client_call_of
       (request_of GET_CANDLES (Some (candles_params asset period count))
          cb false q) =
     Ret (CallGetCandles (VStr asset) (VInt period) (VInt count))) /\
  (forall asset period callback,
     client_call_of
       (request_of SUBSCRIBE_CANDLES
          (Some (subscription_params asset period callback)) None false q) =
     Ret (CallSubscribeCandles (VStr asset) (VInt period)
            (VCallable callback))) /\
  (forall asset amount direction duration wait_for_result cb,
     client_call_of
       (request_of
          (if wait_for_result : bool then PLACE_TRADE_AND_WAIT
           else PLACE_TRADE)
          (Some (trade_params asset amount direction duration)) cb false q) =
     Ret ((if wait_for_result then CallBuyAndCheckWin else CallBuy)
            (VStr asset) (VFloat amount) (VStr direction) (VInt duration))) /\
  (full cfg q = false ->
   forall asset amount direction duration wait_for_result cb,
     let r := place_trade cfg meanwhile asset amount direction duration
                wait_for_result cb q in
     fst r = Ret (RequestId (uuids_drawn q)) /\
     _queue (snd r) =
       _queue q ++
       [request_of
          (if wait_for_result then PLACE_TRADE_AND_WAIT else PLACE_TRADE)
          (Some (trade_params asset amount direction duration)) cb false q]) /\
  (forall i request rest,
     _workers q !! i = Some Waiting ->
     _queue q = request :: rest ->
     Request.request_type request <> GET_BALANCE ->
     Request.request_type request <> GET_ASSETS ->
     Request.params request !! "asset" = None ->
     let q' := snd (worker_step client_outcome callback_outcome i q) in
     answered q' =
       answered q ++
       [(request,
         failure_response (Request.request_id request)
           (Request.request_type request) "'asset'" (clock q))] /\
     _failed_count q' = _failed_count q + 1).
Proof.
  split; [|split; [|split; [|split]]].
  - intros. reflexivity.
  - intros. reflexivity.
  - intros asset amount direction duration [|] cb; reflexivity.
  - intros Hfull asset amount direction duration wait_for_result cb. cbv zeta.
    unfold place_trade.
    destruct (submitted_request cfg meanwhile
                (if wait_for_result then PLACE_TRADE_AND_WAIT
                 else PLACE_TRADE)
                (Some (trade_params asset amount direction duration)) cb q
                Hfull) as (Hr & _ & Hq).
    split; assumption.
  - intros i request rest Hw Hq Hb Ha Hmissing. cbv zeta.
    destruct (worker_step_effect client_outcome callback_outcome i q)
      as (Hans & _ & Hf & _).
    assert (Hcall : client_call_of request = Raise (KeyError "asset")).
    { unfold client_call_of, subscript.
      destruct (Request.request_type request); try congruence;
        rewrite Hmissing; reflexivity. }
    unfold built in Hans, Hf. rewrite Hw, Hq, Hcall in Hans, Hf.
    split; [exact Hans|]. rewrite Hf. reflexivity.
Qed.

Definition roomy : QuotexConfig := default_config "" "" true.

Lemma entry_points_supply_every_parameter_witness :
  let r := place_trade roomy (fun q => q) "EURUSD" 5 "call" 60 true None
             __init__ in
  fst r = Ret (RequestId 0) /\
  _queue (snd r) =
    [request_of PLACE_TRADE_AND_WAIT
       (Some (trade_params "EURUSD" 5 "call" 60)) None false __init__].
Proof.
  cbv zeta.
  destruct (entry_points_supply_every_parameter roomy (fun q => q)
              (fun _ _ => Returned VNone) (fun _ _ => Done) __init__)
    as (_ & _ & _ & H & _).
  apply (H eq_refl "EURUSD" 5%Q "call" 60 true None).
Defined.

End QueueApiFacts.

(** ** The selection of assets *)

Module AssetSelectorFacts.
Import Config AssetSelector.

(** Every asset scores at least as much as all the assets after it. *)
Fixpoint ranked (l : list AssetInfo) : Prop :=
  match l with
  | [] => True
  | a :: rest => Forall (fun b => (score b <= score a)%Q) rest /\ ranked rest
  end.

Lemma insert_by_score_perm a l : insert_by_score a l ≡ₚ a :: l.
Proof.
  induction l as [|b l IH]; cbn; [reflexivity|].
  destruct (Qltb (score a) (score b)); [|reflexivity].
  rewrite IH. apply perm_swap.
Qed.

Lemma sorted_by_score_perm l : sorted_by_score l ≡ₚ l.
Proof.
  induction l as [|a l IH]; cbn; [reflexivity|].
  rewrite insert_by_score_perm, IH. reflexivity.
Qed.

Lemma Qltb_false_le x y : Qltb x y = false -> (y <= x)%Q.
Proof.
  intros H. apply Qnot_lt_le. intros Hlt. apply Qltb_lt in Hlt. congruence.
Qed.

Lemma insert_by_score_ranked a l : ranked l -> ranked (insert_by_score a l).
Proof.
  induction l as [|b l IH]; intros Hl; cbn.
  - split; [constructor | exact I].
  - destruct Hl as [Hb Hl].
    destruct (Qltb (score a) (score b)) eqn:E.
    + split; [|apply IH, Hl].
      rewrite insert_by_score_perm. constructor; [|exact Hb].
      apply Qlt_le_weak, Qltb_lt, E.
    + apply Qltb_false_le in E. split; [|split; assumption].
      constructor; [exact E|].
      eapply List.Forall_impl; [|exact Hb].
      intros c Hc. cbn in Hc. eapply Qle_trans; eassumption.
Qed.

Lemma sorted_by_score_ranked l : ranked (sorted_by_score l).
Proof.
  induction l as [|a l IH]; cbn; [exact I|].
  apply insert_by_score_ranked, IH.
Qed.

Lemma ranked_filter p l : ranked l -> ranked (List.filter p l).
Proof.
  induction l as [|a l IH]; intros Hl; [exact I|].
  destruct Hl as [Ha Hl]. cbn. destruct (p a).
  - split; [|apply IH, Hl].
    apply List.Forall_forall. intros b Hb. apply List.filter_In in Hb.
    rewrite List.Forall_forall in Ha. apply Ha, Hb.
  - apply IH, Hl.
Qed.

Lemma ranked_app l k :
  ranked (l ++ k) ->
  forall a b, In a l -> In b k -> (score b <= score a)%Q.
Proof.
  induction l as [|c l IH]; intros H a b Ha Hb; [destruct Ha|].
  destruct H as [Hc H]. destruct Ha as [->|Ha].
  - rewrite List.Forall_forall in Hc. apply Hc, in_or_app. right. exact Hb.
  - apply IH; assumption.
Qed.

Lemma among_In x l : among x l = true <-> In x l.
Proof.
  unfold among. rewrite existsb_exists. split.
  - intros (y & Hy & E). apply String.eqb_eq in E. subst. exact Hy.
  - intros H. exists x. split; [exact H | apply String.eqb_refl].
Qed.

(** X15: What [filter_assets] returns: the assets of the selector that pass the
    four tests, every one of them and no other, ranked by score from the
    highest down.  Every asset returned is open when only open ones were
    asked for, pays at least the minimal payout in force, is of one of the
    categories when categories were given, and is a preferred one when
    preferred ones were asked for. *)
Theorem filter_assets_keeps_and_ranks
  (cfg : QuotexConfig) (s : AssetSelector) (min_payout : option Q)
  (categories : option (list string)) (only_open preferred : bool) :
  let found :=
    filter_assets cfg s min_payout categories only_open preferred in
  let least := effective_min_payout cfg min_payout in
  found ≡ₚ
    List.filter (kept cfg least (given categories) only_open preferred)
      (values s) /\
  ranked found /\
  (forall a,
     In a found ->
     In a (values s) /\
     (only_open = true -> is_open a = true) /\
     (least <= payout a)%Q /\
     (given categories <> [] -> In (category a) (given categories)) /\
     (preferred = true -> In (name a) (preferred_assets cfg))) /\
  (forall a,
     In a (values s) ->
     (only_open = true -> is_open a = true) ->
     (least <= payout a)%Q ->
     (given categories <> [] -> In (category a) (given categories)) ->
     (preferred = true -> In (name a) (preferred_assets cfg)) ->
     In a found).
Proof.
  cbv zeta. unfold filter_assets.
  set (least := effective_min_payout cfg min_payout).
  set (wanted := kept cfg least (given categories) only_open preferred).
  pose proof (sorted_by_score_perm (List.filter wanted (values s))) as Hperm.
  split; [exact Hperm|]. split; [apply sorted_by_score_ranked|]. split.
  - intros a Ha. apply (Permutation_in _ Hperm) in Ha.
    apply List.filter_In in Ha. destruct Ha as [Hin Hw].
    split; [exact Hin|]. unfold wanted, kept in Hw.
    apply andb_true_iff in Hw. destruct Hw as [Hw H4].
    apply andb_true_iff in Hw. destruct Hw as [Hw H3].
    apply andb_true_iff in Hw. destruct Hw as [H1 H2].
    apply negb_true_iff in H1, H2, H3, H4.
    split; [|split; [|split]].
    + intros ->. cbn in H1. apply negb_false_iff in H1. exact H1.
    + apply Qltb_false_le, H2.
    + intros Hne. destruct (given categories) as [|c cs] eqn:E;
        [contradiction|].
      apply negb_false_iff in H3. apply among_In, H3.
    + intros ->. cbn in H4. apply negb_false_iff in H4.
      apply among_In, H4.
  - intros a Hin H1 H2 H3 H4.
    apply (Permutation_in _ (Permutation_sym Hperm)).
    apply List.filter_In. split; [exact Hin|]. unfold wanted, kept.
    repeat (apply andb_true_iff; split); apply negb_true_iff.
    + destruct only_open; [|reflexivity]. rewrite (H1 eq_refl). reflexivity.
    + destruct (Qltb (payout a) least) eqn:E; [|reflexivity].
      apply Qltb_lt in E. exfalso. apply (Qlt_not_le _ _ E H2).
    + destruct (given categories) as [|c cs] eqn:E; [reflexivity|].
      apply negb_false_iff, among_In, H3. discriminate.
    + destruct preferred; [|reflexivity]. cbn. apply negb_false_iff.
      apply among_In, H4. reflexivity.
Qed.

(** X16: A minimal payout of zero is taken as no minimal payout at all: the
    configured minimum applies, so that no asset below it is ever returned,
    and an empty list of categories or of exclusions is taken as none. *)
Theorem a_zero_min_payout_is_replaced
  (cfg : QuotexConfig) (s : AssetSelector)
  (categories exclude : option (list string)) (only_open preferred : bool) :
  filter_assets cfg s (Some 0%Q) categories only_open preferred =
    filter_assets cfg s None categories only_open preferred /\
  (forall a,
     In a (filter_assets cfg s (Some 0%Q) categories only_open preferred) ->
     (Config.min_payout cfg <= payout a)%Q) /\
  get_best_asset cfg s (Some 0%Q) categories exclude =
    get_best_asset cfg s None categories exclude /\
  filter_assets cfg s None (Some []) only_open preferred =
    filter_assets cfg s None None only_open preferred /\
  get_best_asset cfg s None categories (Some []) =
    get_best_asset cfg s None categories None.
Proof.
  split; [reflexivity|]. split; [|repeat split; reflexivity].
  intros a Ha.
  destruct (filter_assets_keeps_and_ranks cfg s (Some 0%Q) categories
              only_open preferred) as (_ & _ & H & _).
  destruct (H a Ha) as (_ & _ & Hpay & _). exact Hpay.
Qed.

(** The test that [get_best_asset] applies to an asset. *)
Definition eligible (cfg : QuotexConfig) (min_payout : option Q)
  (categories exclude : option (list string)) (a : AssetInfo) : bool :=
  kept cfg (effective_min_payout cfg min_payout) (given categories)
    true false a &&
  negb (among (name a) (given exclude)).

Lemma head_of_ranked l :
  ranked l ->
  match head l with
  | Some a => In a l /\ forall b, In b l -> (score b <= score a)%Q
  | None => l = []
  end.
Proof.
  destruct l as [|a l]; [reflexivity|]. intros [Ha _]. cbn.
  split; [left; reflexivity|]. intros b [<-|Hb]; [apply Qle_refl|].
  rewrite List.Forall_forall in Ha. apply Ha, Hb.
Qed.

(** X17: [get_best_asset] returns an asset of the selector that is open, pays the
    minimal payout in force, is of one of the categories given and is not
    excluded, and no such asset scores more; it returns [None] exactly when
    there is no such asset. *)
Theorem best_asset_scores_highest
  (cfg : QuotexConfig) (s : AssetSelector) (min_payout : option Q)
  (categories exclude : option (list string)) :
  match get_best_asset cfg s min_payout categories exclude with
  | Some a =>
      In a (values s) /\
      eligible cfg min_payout categories exclude a = true /\
      is_open a = true /\
      (effective_min_payout cfg min_payout <= payout a)%Q /\
      ~ In (name a) (given exclude) /\
      forall b,
        In b (values s) ->
        eligible cfg min_payout categories exclude b = true ->
        (score b <= score a)%Q
  | None =>
      forall b,
        In b (values s) ->
        eligible cfg min_payout categories exclude b = false
  end.
Proof.
  unfold get_best_asset. cbv zeta.
  destruct (filter_assets_keeps_and_ranks cfg s min_payout categories
              true false) as (Hperm & Hranked & Hsound & _).
  cbv zeta in *.
  set (found := filter_assets cfg s min_payout categories true false) in *.
  set (wanted := kept cfg (effective_min_payout cfg min_payout)
                   (given categories) true false) in *.
  set (final := match given exclude with
                | [] => found
                | _ :: _ =>
                    List.filter
                      (fun a => negb (among (name a) (given exclude))) found
                end).
  assert (Hfinal : forall a,
            In a final <->
            In a (values s) /\
            eligible cfg min_payout categories exclude a = true).
  { intros a. unfold final, eligible. fold wanted.
    assert (Hfound : In a found <-> In a (values s) /\ wanted a = true).
    { split.
      - intros H. apply (Permutation_in _ Hperm), List.filter_In in H.
        exact H.
      - intros H. apply (Permutation_in _ (Permutation_sym Hperm)).
        apply List.filter_In, H. }
    destruct (given exclude) as [|x xs] eqn:E.
    - rewrite Hfound. cbn. rewrite andb_true_r. reflexivity.
    - rewrite List.filter_In, Hfound, andb_true_iff. tauto. }
  assert (Hr : ranked final).
  { unfold final. destruct (given exclude); [exact Hranked|].
    apply ranked_filter, Hranked. }
  replace (match given exclude with
           | [] => found
           | s0 :: l =>
               List.filter
                 (fun a => negb (among (name a) (s0 :: l))) found
           end) with final.
  2: { unfold final. destruct (given exclude); reflexivity. }
  pose proof (head_of_ranked final Hr) as Hhead.
  destruct (head final) as [a|].
  - destruct Hhead as [Ha Hmax]. apply Hfinal in Ha as Ha'.
    destruct Ha' as [Hin Hel]. split; [exact Hin|]. split; [exact Hel|].
    unfold eligible in Hel. apply andb_true_iff in Hel.
    destruct Hel as [Hw Hex]. fold wanted in Hw.
    assert (Hfound : In a found).
    { apply (Permutation_in _ (Permutation_sym Hperm)).
      apply List.filter_In. split; assumption. }
    destruct (Hsound a Hfound) as (_ & Hopen & Hpay & _).
    split; [apply Hopen; reflexivity|]. split; [exact Hpay|]. split.
    + intros Hx. apply among_In in Hx. rewrite Hx in Hex. discriminate.
    + intros b Hb Hbe. apply Hmax, Hfinal. split; assumption.
  - intros b Hb.
    destruct (eligible cfg min_payout categories exclude b) eqn:E;
      [|reflexivity].
    assert (In b final) by (apply Hfinal; split; assumption).
    rewrite Hhead in *. contradiction.
Qed.

(** X18: [get_top_assets] returns the head of the ranking of [filter_assets]: for
    a count that is not negative the first [count] assets of it, all of it
    when it is shorter, and no asset left out scores more than one that is
    returned; for a negative count, the ranking without its last [-count]
    assets. *)
Theorem top_assets_are_the_head_of_the_ranking
  (cfg : QuotexConfig) (s : AssetSelector) (count : Z)
  (min_payout : option Q) (categories : option (list string)) :
  let ranking := filter_assets cfg s min_payout categories true false in
  let top := get_top_assets cfg s count min_payout categories in
  (exists rest,
     ranking = top ++ rest /\
     forall a b, In a top -> In b rest -> (score b <= score a)%Q) /\
  (0 <= count ->
   length top = Nat.min (Z.to_nat count) (length ranking)) /\
  (count < 0 ->
   length top = (length ranking - Z.to_nat (- count))%nat).
Proof.
  cbv zeta. unfold get_top_assets, up_to.
  set (ranking := filter_assets cfg s min_payout categories true false).
  assert (Hr : ranked ranking).
  { apply (filter_assets_keeps_and_ranks cfg s min_payout categories
             true false). }
  split; [|split].
  - destruct (0 <=? count).
    + exists (skipn (Z.to_nat count) ranking).
      split; [symmetry; apply firstn_skipn|].
      apply ranked_app. rewrite firstn_skipn. exact Hr.
    + exists (skipn (length ranking - Z.to_nat (- count)) ranking).
      split; [symmetry; apply firstn_skipn|].
      apply ranked_app. rewrite firstn_skipn. exact Hr.
  - intros H. apply Z.leb_le in H. rewrite H. apply length_firstn.
  - intros H. apply Z.leb_gt in H. rewrite H. rewrite length_firstn. lia.
Qed.

Lemma top_assets_are_the_head_of_the_ranking_witness :
  let s :=
    set_assets
      [("EURUSD", {| name := "EURUSD"; category := "forex"; is_open := true;
                     payout := 85; last_updated := 0 |});
       ("GBPUSD", {| name := "GBPUSD"; category := "forex"; is_open := true;
                     payout := 91; last_updated := 0 |});
       ("BTCUSD", {| name := "BTCUSD"; category := "crypto"; is_open := false;
                     payout := 95; last_updated := 0 |})] __init__ in
  let cfg := default_config "" "" true in
  length (get_top_assets cfg s 1 None None) = 1%nat /\
  length (get_top_assets cfg s (-1) None None) = 1%nat /\
  map name (get_top_assets cfg s 5 None None) = ["GBPUSD"; "EURUSD"].
Proof.
  cbv zeta. split; [|split].
  - match goal with
    | |- length (get_top_assets ?cfg ?s _ _ _) = _ =>
        rewrite (proj1 (proj2 (top_assets_are_the_head_of_the_ranking
                                 cfg s 1 None None)))
    end; [vm_compute; reflexivity | lia].
  - vm_compute. reflexivity.
  - vm_compute. reflexivity.
Defined.

(** *** The registry of callbacks *)

Inductive RegistryOp : Type :=
| Register (callback : nat)
| Unregister (callback : nat).

Definition registry_step (s : AssetSelector) (o : RegistryOp)
  : AssetSelector :=
  match o with
  | Register callback => register_callback callback s
  | Unregister callback => unregister_callback callback s
  end.

Lemma existsb_eqb_In x l : existsb (Nat.eqb x) l = true <-> In x l.
Proof.
  rewrite existsb_exists. split.
  - intros (y & Hy & E). apply Nat.eqb_eq in E. subst. exact Hy.
  - intros H. exists x. split; [exact H | apply Nat.eqb_refl].
Qed.

Lemma remove_first_In x y l : In y (remove_first x l) -> In y l.
Proof.
  induction l as [|z l IH]; cbn; [auto|].
  destruct (Nat.eqb x z); [auto|]. intros [H|H]; auto.
Qed.

Lemma remove_first_NoDup x l :
  NoDup l -> NoDup (remove_first x l) /\ ~ In x (remove_first x l).
Proof.
  induction l as [|z l IH]; intros H; cbn.
  - split; [constructor | intros []].
  - apply NoDup_cons in H. destruct H as [Hz H].
    destruct (Nat.eqb x z) eqn:E.
    + apply Nat.eqb_eq in E. subst z. split; [exact H|].
      intros Hin. apply Hz, list_elem_of_In, Hin.
    + destruct (IH H) as [Hnd Hout]. split.
      * apply NoDup_cons. split; [|exact Hnd].
        intros Hin. apply Hz, list_elem_of_In.
        apply list_elem_of_In in Hin. eapply remove_first_In, Hin.
      * intros [Hx|Hx]; [|contradiction].
        subst z. rewrite Nat.eqb_refl in E. discriminate.
Qed.

Lemma remove_first_last x l : ~ In x l -> remove_first x (l ++ [x]) = l.
Proof.
  induction l as [|y l IH]; intros H; cbn.
  - rewrite Nat.eqb_refl. reflexivity.
  - destruct (Nat.eqb x y) eqn:E.
    + apply Nat.eqb_eq in E. subst y. exfalso. apply H. left. reflexivity.
    + rewrite IH; [reflexivity|]. intros Hin. apply H. right. exact Hin.
Qed.

(** X19: Whatever callbacks are registered and unregistered, in whatever order,
    no callback is ever registered twice; registering a callback again
    changes nothing, after [register_callback] the callback is in the list
    and after [unregister_callback] it is not, and unregistering a callback
    that was newly registered gives the list back as it was. *)
Theorem a_callback_is_registered_once
  (ops : list RegistryOp) (callback : nat) :
  let s := fold_left registry_step ops __init__ in
  NoDup (_callbacks s) /\
  In callback (_callbacks (register_callback callback s)) /\
  register_callback callback (register_callback callback s) =
    register_callback callback s /\
  ~ In callback (_callbacks (unregister_callback callback s)) /\
  (~ In callback (_callbacks s) ->
   _callbacks (unregister_callback callback (register_callback callback s)) =
     _callbacks s).
Proof.
  cbv zeta.
  assert (Hnd : forall s, NoDup (_callbacks s) ->
                          NoDup (_callbacks (fold_left registry_step ops s))).
  { induction ops as [|o ops IH]; intros s H; [exact H|].
    cbn. apply IH. destruct o as [cb|cb]; cbn.
    - unfold register_callback.
      destruct (existsb (Nat.eqb cb) (_callbacks s)) eqn:E; [exact H|].
      cbn. apply NoDup_app. split; [exact H|]. split.
      + intros x Hx Hx'. apply list_elem_of_In in Hx, Hx'.
        destruct Hx' as [<-|[]].
        apply existsb_eqb_In in Hx. congruence.
      + apply NoDup_singleton.
    - unfold unregister_callback.
      destruct (existsb (Nat.eqb cb) (_callbacks s)); [|exact H].
      cbn. apply remove_first_NoDup, H. }
  specialize (Hnd __init__ (NoDup_nil_2 : NoDup (_callbacks __init__))).
  set (s := fold_left registry_step ops __init__) in *.
  split; [exact Hnd|].
  assert (Hin : In callback (_callbacks (register_callback callback s))).
  { unfold register_callback.
    destruct (existsb (Nat.eqb callback) (_callbacks s)) eqn:E.
    - apply existsb_eqb_In, E.
    - cbn. apply in_or_app. right. left. reflexivity. }
  split; [exact Hin|]. split; [|split].
  - unfold register_callback at 1.
    apply existsb_eqb_In in Hin. rewrite Hin. reflexivity.
  - unfold unregister_callback.
    destruct (existsb (Nat.eqb callback) (_callbacks s)) eqn:E.
    + cbn. apply remove_first_NoDup, Hnd.
    + intros H. apply existsb_eqb_In in H. congruence.
  - clear Hin. intros Hout. unfold register_callback.
    destruct (existsb (Nat.eqb callback) (_callbacks s)) eqn:E;
      [apply existsb_eqb_In in E; contradiction|].
    unfold unregister_callback, log.
    cbn [_callbacks set_callbacks set_logged].
    replace (existsb (Nat.eqb callback) (_callbacks s ++ [callback]))
      with true.
    + cbn [_callbacks set_callbacks set_logged].
      apply remove_first_last, Hout.
    + symmetry. apply existsb_eqb_In, in_or_app. right. left. reflexivity.
Qed.

(** *** Updates *)




Section Updates.
Variable cfg : QuotexConfig.
Variable client_is_connected : bool.
Variable get_assets_outcome : AssetsOutcome.
Variable uniform : string -> Q.
Variable get_payment : option (string -> PaymentOutcome).
Variable callback_outcome : nat -> list AssetInfo -> UnitOutcome.















End Updates.



End AssetSelectorFacts.

(** ** The session context *)

Module SessionFacts.
Import Config SessionContext.

(** The trades that were decided, and the sum of their profits as
    [_update_stats] accumulates it. *)
Definition decided (l : list TradeRecord) : list TradeRecord :=
  List.filter (fun t => match win t with Some _ => true | None => false end) l.

Definition profit_of (l : list TradeRecord) : Q :=
  fold_left (fun acc t => (acc + profit t)%Q) (decided l) 0%Q.

Record consistent (s : SessionContext) : Prop := {
  consistent_total :
    total_trades (account s) = Z.of_nat (length (trades s));
  consistent_winning :
    winning_trades (account s) = Z.of_nat (length (get_winning_trades s));
  consistent_losing :
    losing_trades (account s) = Z.of_nat (length (get_losing_trades s));
  consistent_profit :
    total_profit (account s) = profit_of (trades s)
}.

(** What a balance refresh may change. *)
Definition same_history (s s' : SessionContext) : Prop :=
  trades s' = trades s /\
  total_trades (account s') = total_trades (account s) /\
  winning_trades (account s') = winning_trades (account s) /\
  losing_trades (account s') = losing_trades (account s) /\
  total_profit (account s') = total_profit (account s).

Lemma same_history_consistent s s' :
  same_history s s' -> consistent s -> consistent s'.
Proof.
  intros (Ht & H1 & H2 & H3 & H4) [C1 C2 C3 C4].
  split; unfold get_winning_trades, get_losing_trades in *; rewrite Ht; congruence.
Qed.

Lemma initialize_same_history answer s :
  same_history s (snd (initialize answer s)).
Proof.
  destruct answer as [[[[r|] [d|]]|]|msg]; repeat split.
Qed.

Lemma update_balance_same_history answer s :
  same_history s (snd (update_balance answer s)).
Proof.
  destruct answer as [[[[r|] [d|]]|]|msg]; repeat split.
Qed.

(** The statistics after one more trade. *)
Definition counted (t : TradeRecord) (a a' : AccountInfo) : Prop :=
  total_trades a' = total_trades a + 1 /\
  winning_trades a' =
    winning_trades a + (match win t with Some true => 1 | _ => 0 end) /\
  losing_trades a' =
    losing_trades a + (match win t with Some false => 1 | _ => 0 end) /\
  total_profit a' =
    match win t with
    | Some _ => (total_profit a + profit t)%Q
    | None => total_profit a
    end.

(** The identifier and the time of the trade in an answer that
    [record_trade] can turn into a record. *)
Definition usable (answer : TradeAnswer) : option (string * nat) :=
  match answer with
  | TradeGiven (Some info) =>
      match info_id info, info_timestamp info with
      | Some id, At t => Some (id, t)
      | _, _ => None
      end
  | _ => None
  end.

Definition win_of (answer : TradeAnswer) : option bool :=
  match answer with
  | TradeGiven (Some info) => info_win info
  | _ => None
  end.

Lemma record_trade_effect cfg name stake side seconds wait_for_result
  trade_answer balance_answer s :
  let r := record_trade cfg name stake side seconds wait_for_result
             trade_answer balance_answer s in
  match usable trade_answer with
  | None =>
      fst r = Ret None /\ trades (snd r) = trades s /\
      account (snd r) = account s
  | Some (id, time) =>
      exists t,
        fst r = Ret (Some t) /\ trades (snd r) = trades s ++ [t] /\
        trade_id t = id /\ timestamp t = time /\
        asset t = name /\ amount t = stake /\ direction t = side /\
        duration t = seconds /\ win t = win_of trade_answer /\
        counted t (account s) (account (snd r))
  end.
Proof.
  cbv zeta.
  destruct trade_answer as [[[[id|] [| |t] status result profit win]|]|msg];
    cbn [usable win_of info_id info_timestamp info_win].
  all: try (destruct (dry_run cfg) eqn:D;
            unfold record_trade; rewrite D;
            repeat split; fail).
  all: try (destruct status, result, profit, win as [[|]|];
            destruct (dry_run cfg) eqn:D;
            unfold record_trade; rewrite D;
            repeat split; fail).
  destruct balance_answer as [[[[r|] [d|]]|]|msg];
    destruct win as [[|]|];
    destruct (dry_run cfg) eqn:D;
    eexists;
    unfold record_trade; rewrite D;
    repeat split; cbn; lia.
Qed.

Lemma reset_consistent s : consistent (snd (reset s)).
Proof. split; reflexivity. Qed.

Lemma length_filter_snoc {A} (f : A -> bool) l x :
  Z.of_nat (length (List.filter f (l ++ [x]))) =
  Z.of_nat (length (List.filter f l)) + (if f x then 1 else 0).
Proof.
  rewrite List.filter_app, List.length_app. cbn [List.filter].
  destruct (f x); cbn [length]; lia.
Qed.

Lemma profit_of_snoc l t :
  profit_of (l ++ [t]) =
  match win t with
  | Some _ => (profit_of l + profit t)%Q
  | None => profit_of l
  end.
Proof.
  unfold profit_of, decided. rewrite List.filter_app, fold_left_app.
  cbn [List.filter]. destruct (win t); reflexivity.
Qed.

Lemma record_trade_consistent cfg name stake side seconds wait_for_result
  trade_answer balance_answer s :
  consistent s ->
  consistent (snd (record_trade cfg name stake side seconds wait_for_result
                     trade_answer balance_answer s)).
Proof.
  intros [C1 C2 C3 C4].
  pose proof (record_trade_effect cfg name stake side seconds wait_for_result
                trade_answer balance_answer s) as H.
  cbv zeta in H.
  destruct (usable trade_answer) as [[id time]|].
  - destruct H as (t & _ & Ht & _ & _ & _ & _ & _ & _ & _ & H1 & H2 & H3 & H4).
    split; unfold get_winning_trades, get_losing_trades in *; rewrite Ht.
    + rewrite H1, C1, List.length_app. cbn [length]. lia.
    + rewrite H2, C2, length_filter_snoc. destruct (win t) as [[|]|]; reflexivity.
    + rewrite H3, C3, length_filter_snoc. destruct (win t) as [[|]|]; reflexivity.
    + rewrite H4, C4, profit_of_snoc. reflexivity.
  - destruct H as (_ & Ht & Ha).
    split; unfold get_winning_trades, get_losing_trades in *;
      rewrite Ht, Ha; assumption.
Qed.

Lemma run_ops_consistent cfg ops s :
  consistent s -> consistent (run_ops cfg ops s).
Proof.
  unfold run_ops. revert s.
  induction ops as [|o ops IH]; intros s C; [exact C|].
  cbn [fold_left]. apply IH.
  destruct o; cbn [run_op].
  - eapply same_history_consistent; [apply initialize_same_history|exact C].
  - eapply same_history_consistent; [apply update_balance_same_history|exact C].
  - apply record_trade_consistent, C.
  - apply reset_consistent.
Qed.

Lemma won_and_lost_le s :
  Z.of_nat (length (get_winning_trades s)) +
  Z.of_nat (length (get_losing_trades s)) <= Z.of_nat (length (trades s)).
Proof.
  unfold get_winning_trades, get_losing_trades.
  induction (trades s) as [|t l IH]; [reflexivity|].
  cbn [List.filter]. destruct (win t) as [[|]|]; cbn [length]; lia.
Qed.

Lemma win_rate_bounds a :
  0 <= winning_trades a <= total_trades a ->
  (0 <= win_rate a)%Q /\ (win_rate a <= 100)%Q.
Proof.
  intros [H0 H1]. unfold win_rate.
  destruct (total_trades a =? 0) eqn:E.
  - split; [apply Qle_refl|discriminate].
  - apply Z.eqb_neq in E.
    assert (Hp : (0 < inject_Z (total_trades a))%Q).
    { change 0%Q with (inject_Z 0). rewrite <- Zlt_Qlt. lia. }
    assert (Hw : (0 <= inject_Z (winning_trades a))%Q).
    { change 0%Q with (inject_Z 0). rewrite <- Zle_Qle. lia. }
    assert (Hle : (inject_Z (winning_trades a) <= inject_Z (total_trades a))%Q).
    { rewrite <- Zle_Qle. lia. }
    split.
    + apply Qmult_le_0_compat; [|discriminate].
      apply Qle_shift_div_l; [exact Hp|].
      rewrite Qmult_0_l. exact Hw.
    + apply Qle_trans with (1 * 100)%Q; [|discriminate].
      apply Qmult_le_compat_r; [|discriminate].
      apply Qle_shift_div_r; [exact Hp|].
      rewrite Qmult_1_l. exact Hle.
Qed.

(** X22: whatever is done with a session, [total_trades], [winning_trades],
    [losing_trades] and [total_profit] of its account are the number of
    trades in the history, the numbers of won and of lost trades in it, and
    the sum of the profits of the trades with a decided outcome; the win
    rate lies between 0 and 100. *)
Theorem statistics_follow_the_history cfg ops :
  let s := run_ops cfg ops __init__ in
  total_trades (account s) = Z.of_nat (length (trades s)) /\
  winning_trades (account s) = Z.of_nat (length (get_winning_trades s)) /\
  losing_trades (account s) = Z.of_nat (length (get_losing_trades s)) /\
  total_profit (account s) = profit_of (trades s) /\
  winning_trades (account s) + losing_trades (account s)
    <= total_trades (account s) /\
  (0 <= win_rate (account s))%Q /\ (win_rate (account s) <= 100)%Q.
Proof.
  cbv zeta.
  destruct (run_ops_consistent cfg ops __init__) as [C1 C2 C3 C4];
    [split; reflexivity|].
  set (s := run_ops cfg ops __init__) in *.
  assert (Hsum : winning_trades (account s) + losing_trades (account s)
                 <= total_trades (account s)).
  { rewrite C1, C2, C3. apply won_and_lost_le. }
  repeat (split; [assumption|]).
  apply win_rate_bounds. rewrite C2 in *. lia.
Qed.

(** X23: [record_trade] never raises.  When the client gives no trade, an
    empty one, one without identifier or without a readable time, or fails,
    the result is [None] and neither the history nor the account changes
    (the balance is not refreshed).  Otherwise the result is a record with
    the identifier, time and outcome of the client's answer and the asset,
    amount, direction and duration of the call; it is appended to the
    history and counted once. *)
Theorem record_trade_appends_or_changes_nothing cfg name stake side seconds
  wait_for_result trade_answer balance_answer s :
  let r := record_trade cfg name stake side seconds wait_for_result
             trade_answer balance_answer s in
  match usable trade_answer with
  | None =>
      fst r = Ret None /\ trades (snd r) = trades s /\
      account (snd r) = account s
  | Some (id, time) =>
      exists t,
        fst r = Ret (Some t) /\ trades (snd r) = trades s ++ [t] /\
        trade_id t = id /\ timestamp t = time /\
        asset t = name /\ amount t = stake /\ direction t = side /\
        duration t = seconds /\ win t = win_of trade_answer /\
        counted t (account s) (account (snd r))
  end.
Proof. apply record_trade_effect. Qed.

(** X24: [get_recent_trades count] is the end of the history: its last
    [count] trades (all of them when there are fewer) for a positive
    [count], the whole history for [count = 0], and the history without its
    first [-count] trades for a negative [count]. *)
Theorem recent_trades_are_the_end_of_the_history count s :
  let n := Z.of_nat (length (trades s)) in
  exists earlier,
    trades s = earlier ++ get_recent_trades count s /\
    Z.of_nat (length (get_recent_trades count s)) =
      if 0 <? count then Z.min count n
      else if count =? 0 then n
      else Z.max 0 (n + count).
Proof.
  cbv zeta. unfold get_recent_trades, from.
  destruct (trades s) as [|t l] eqn:E.
  - exists []. split; [reflexivity|].
    cbn [length Z.of_nat]. destruct (0 <? count) eqn:H1; [lia|].
    destruct (count =? 0); lia.
  - rewrite <- E. clear E.
    destruct (0 <=? - count) eqn:H0.
    + exists (firstn (Z.to_nat (- count)) (trades s)).
      split; [symmetry; apply firstn_skipn|].
      rewrite List.length_skipn.
      destruct (0 <? count) eqn:H1; [lia|].
      destruct (count =? 0) eqn:H2; lia.
    + exists (firstn (length (trades s) - Z.to_nat (- - count)) (trades s)).
      split; [symmetry; apply firstn_skipn|].
      rewrite List.length_skipn.
      destruct (0 <? count) eqn:H1; lia.
Qed.

End SessionFacts.

(** ** The simulated API *)

Module DryRunFacts.
Import DryRunAPI.

Lemma buy_run random name stake side seconds api :
  let trade :=
    {| id := "dry_run_" ++ pretty (randint random 10000 99999 (draws api));
       asset := name; amount := stake; direction := side;
       duration := seconds; timestamp := clock api; status := "opened" |} in
  buy random name stake side seconds api =
  (Ret trade,
   {| balance := balance api;
      trades := <[id trade := trade]> (trades api);
      candle_streams := candle_streams api;
      draws := S (draws api); clock := S (clock api) |}).
Proof. reflexivity. Qed.

Lemma check_win_found random trade_id trade api :
  trades api !! trade_id = Some trade ->
  let won := choice random (draws api) in
  let gain := (if won then amount trade * (85 # 100) else - amount trade)%Q in
  check_win random trade_id api =
  (Ret (Some {| win := won; profit := gain;
                close_price := uniform random 1 2 (S (draws api)) |}),
   {| balance := (balance api + gain)%Q;
      trades := trades api;
      candle_streams := candle_streams api;
      draws := S (S (draws api)); clock := clock api |}).
Proof.
  intros H. cbv zeta. unfold check_win, bind, get. rewrite H. reflexivity.
Qed.

(** X25: a trade placed with [buy] is found by [check_win] under the
    identifier that [buy] returned: the result is a gain of 85% of the
    stake or a loss of the whole stake, by what [random.choice] drew, and
    the balance moves by exactly that profit; the trade stays in the table.
    For an identifier that is not in the table [check_win] returns [None]
    and changes nothing. *)
Theorem check_win_settles_a_bought_trade random name stake side seconds
  trade_id api :
  (let placed := buy random name stake side seconds api in
   exists trade,
     fst placed = Ret trade /\
     amount trade = stake /\
     let checked := check_win random (id trade) (snd placed) in
     exists r,
       fst checked = Ret (Some r) /\
       profit r = (if win r then stake * (85 # 100) else - stake)%Q /\
       balance (snd checked) = (balance api + profit r)%Q /\
       trades (snd checked) = trades (snd placed)) /\
  match trades api !! trade_id with
  | None => check_win random trade_id api = (Ret None, api)
  | Some _ => fst (check_win random trade_id api) <> Ret None
  end.
Proof.
  split.
  - cbv zeta. rewrite buy_run. cbv zeta. cbn [fst snd].
    eexists. split; [reflexivity|]. split; [reflexivity|].
    erewrite check_win_found by (cbn [trades id]; apply lookup_insert_eq).
    eexists. repeat split.
  - destruct (trades api !! trade_id) as [trade|] eqn:E.
    + rewrite (check_win_found _ _ _ _ E). discriminate.
    + unfold check_win, bind, get. rewrite E. reflexivity.
Qed.

Definition well_formed (c : Candle) : Prop :=
  (low c <= Qmin (open c) (close c))%Q /\
  (Qmax (open c) (close c) <= high c)%Q.

(** Each candle opens within 0.01 of the price before it. *)
Fixpoint follows (base_price : Q) (candles : list Candle) : Prop :=
  match candles with
  | [] => True
  | c :: rest =>
      (base_price - (1 # 100) <= open c)%Q /\
      (open c <= base_price + (1 # 100))%Q /\
      follows (close c) rest
  end.

(** [random.uniform a b] gives a number between [a] and [b]. *)
Definition in_range (random : Random) : Prop :=
  forall a b n, (a <= b)%Q ->
    (a <= uniform random a b n)%Q /\ (uniform random a b n <= b)%Q.

Section Candles.

Variable random : Random.
Variable time_at : nat -> Q.
Hypothesis Hrange : in_range random.

(** The candle of one turn of the loop, from the state it starts in. *)
Definition turned (count period i : Z) (base_price : Q) (s : DryRunAPI)
  : Candle :=
  let n := draws s in
  let open_price := (base_price + uniform random (- (1 # 100)) (1 # 100) n)%Q in
  let close_price :=
    (open_price + uniform random (- (5 # 1000)) (5 # 1000) (S n))%Q in
  {| candle_timestamp :=
       (time_at (clock s) - inject_Z ((count - i) * period))%Q;
     open := open_price;
     high := (Qmax open_price close_price
              + uniform random 0 (3 # 1000) (S (S n)))%Q;
     low := (Qmin open_price close_price
             - uniform random 0 (3 # 1000) (S (S (S n))))%Q;
     close := close_price;
     volume := uniform random 100 1000 (S (S (S (S n)))) |}.

Definition after_turn (s : DryRunAPI) : DryRunAPI :=
  {| balance := balance s; trades := trades s;
     candle_streams := candle_streams s;
     draws := S (S (S (S (S (draws s))))); clock := S (clock s) |}.

Lemma candle_turn_run count period i base_price s :
  candle_turn random time_at count period i base_price s =
  (Ret (turned count period i base_price s), after_turn s).
Proof. reflexivity. Qed.

Lemma Qle_minus_nonneg (m d : Q) : (0 <= d)%Q -> (m - d <= m)%Q.
Proof.
  intros H. apply Qle_trans with (m + 0)%Q.
  - unfold Qminus. apply Qplus_le_r.
    change 0%Q with (- 0)%Q. apply Qopp_le_compat, H.
  - rewrite Qplus_0_r. apply Qle_refl.
Qed.

Lemma Qle_plus_nonneg (m d : Q) : (0 <= d)%Q -> (m <= m + d)%Q.
Proof.
  intros H. apply Qle_trans with (m + 0)%Q.
  - rewrite Qplus_0_r. apply Qle_refl.
  - apply Qplus_le_r, H.
Qed.

Lemma turned_well_formed count period i base_price s :
  well_formed (turned count period i base_price s) /\
  (base_price - (1 # 100) <= open (turned count period i base_price s))%Q /\
  (open (turned count period i base_price s) <= base_price + (1 # 100))%Q.
Proof.
  unfold turned, well_formed. cbv zeta. cbn [open close high low].
  split; [split|split].
  - apply Qle_minus_nonneg. apply Hrange. discriminate.
  - apply Qle_plus_nonneg. apply Hrange. discriminate.
  - destruct (Hrange (- (1 # 100))%Q (1 # 100)%Q (draws s)) as [A _];
      [discriminate|].
    apply Qplus_le_r with (z := base_price) in A.
    exact A.
  - destruct (Hrange (- (1 # 100))%Q (1 # 100)%Q (draws s)) as [_ A];
      [discriminate|].
    apply Qplus_le_r with (z := base_price) in A.
    exact A.
Qed.

Lemma candle_loop_run count period indices :
  forall base_price candles s,
  exists new s',
    candle_loop random time_at count period indices base_price candles s =
      (Ret (candles ++ new), s') /\
    length new = length indices /\
    Forall well_formed new /\ follows base_price new /\
    balance s' = balance s /\ trades s' = trades s /\
    candle_streams s' = candle_streams s.
Proof.
  induction indices as [|i rest IH]; intros base_price candles s.
  - exists [], s. rewrite app_nil_r. repeat split. constructor.
  - cbn [candle_loop]. unfold bind at 1. rewrite candle_turn_run.
    destruct (IH (close (turned count period i base_price s))
                (candles ++ [turned count period i base_price s])
                (after_turn s))
      as (new & s' & E & Hl & Hw & Hf & Hb & Ht & Hc).
    exists (turned count period i base_price s :: new), s'.
    rewrite E, <- app_assoc.
    destruct (turned_well_formed count period i base_price s) as (W & O1 & O2).
    split; [reflexivity|].
    split; [cbn [length]; congruence|].
    split; [constructor; assumption|].
    split; [cbn [follows]; auto|].
    auto.
Qed.

(** X26: when [random.uniform] stays within its bounds, [get_candles] returns
    [count] candles (none for a negative [count]); in each, [low] is at most
    and [high] at least both [open] and [close]; the first opens within 0.01
    of 1.1 and each later one within 0.01 of the close before it; the
    balance, the trades and the candle streams are left alone. *)
Theorem simulated_candles_are_well_formed name period count api :
  exists candles api',
    get_candles random time_at name period count api = (Ret candles, api') /\
    length candles = Z.to_nat count /\
    Forall well_formed candles /\
    follows (11 # 10) candles /\
    balance api' = balance api /\ trades api' = trades api /\
    candle_streams api' = candle_streams api.
Proof.
  unfold get_candles.
  destruct (candle_loop_run count period (range count) (11 # 10) [] api)
    as (new & s' & E & Hl & H).
  exists new, s'. split; [exact E|].
  split; [|exact H].
  rewrite Hl. unfold range. rewrite List.length_map, List.length_seq.
  reflexivity.
Qed.

End Candles.

(** A generator that always draws the lower bound. *)
Definition lowest : Random :=
  {| randint := fun a _ _ => a;
     choice := fun _ => true;
     uniform := fun a _ _ => a |}.

Lemma simulated_candles_are_well_formed_witness :
  in_range lowest /\
  exists candles api',
    get_candles lowest (fun _ => 0%Q) "EURUSD" 60 3 __init__
      = (Ret candles, api') /\
    length candles = 3%nat /\ Forall well_formed candles.
Proof.
  assert (H : in_range lowest).
  { intros a b n Hab. split; [apply Qle_refl|exact Hab]. }
  split; [exact H|].
  destruct (simulated_candles_are_well_formed lowest (fun _ => 0%Q) H
              "EURUSD" 60 3 __init__)
    as (candles & api' & E & Hl & Hw & _).
  exists candles, api'. auto.
Defined.

Lemma get_latest_candle_run random time_at sub_key api :
  let base_price := default (11 # 10)%Q (candle_streams api !! sub_key) in
  let n := draws api in
  let close_price :=
    (base_price + uniform random (- (5 # 1000)) (5 # 1000) n)%Q in
  get_latest_candle random time_at sub_key api =
  (Ret {| candle_timestamp := time_at (clock api);
          open := base_price;
          high := (Qmax base_price close_price
                   + uniform random 0 (3 # 1000) (S n))%Q;
          low := (Qmin base_price close_price
                  - uniform random 0 (3 # 1000) (S (S n)))%Q;
          close := close_price;
          volume := uniform random 100 1000 (S (S (S n))) |},
   {| balance := balance api; trades := trades api;
      candle_streams := <[sub_key := close_price]> (candle_streams api);
      draws := S (S (S (S n))); clock := S (clock api) |}).
Proof.
  cbv zeta. unfold get_latest_candle, bind at 1, get at 1.
  destruct (candle_streams api !! sub_key) as [p|] eqn:E.
  - unfold bind at 1, ret at 1, bind at 1, get at 1. rewrite E. reflexivity.
  - unfold bind at 1, modify at 1, bind at 1, get at 1.
    cbn [candle_streams set_candle_streams].
    rewrite lookup_insert_eq.
    cbv beta iota zeta delta
      [bind get modify ret random_uniform draw datetime_now set_draws
       set_clock set_candle_streams candle_streams draws clock balance
       trades default].
    rewrite insert_insert_eq. reflexivity.
Qed.

(** X27: [get_latest_candle] never fails on a missing stream: the first
    candle of a stream opens at 1.1, every later one at the close of the
    candle before it, which is the price kept for the stream; the other
    streams, the balance and the trades are left alone. *)
Theorem latest_candles_continue random time_at sub_key api :
  let first := get_latest_candle random time_at sub_key api in
  exists c1,
    fst first = Ret c1 /\
    open c1 = default (11 # 10)%Q (candle_streams api !! sub_key) /\
    candle_streams (snd first)
      = <[sub_key := close c1]> (candle_streams api) /\
    balance (snd first) = balance api /\ trades (snd first) = trades api /\
    let second := get_latest_candle random time_at sub_key (snd first) in
    exists c2, fst second = Ret c2 /\ open c2 = close c1.
Proof.
  cbv zeta. rewrite get_latest_candle_run. cbv zeta. cbn [fst snd].
  eexists. split; [reflexivity|].
  cbn [open close candle_streams balance trades].
  repeat (split; [reflexivity|]).
  rewrite get_latest_candle_run. cbv zeta. cbn [fst snd].
  eexists. split; [reflexivity|].
  cbn [open close candle_streams]. rewrite lookup_insert_eq. reflexivity.
Qed.

End DryRunFacts.
